(** * NASA Mission Control Dashboard: the backend gateway, verified

    A shallow embedding of the Express backend of the dashboard:
    - [JS]: the fragment of JavaScript the backend relies on (dynamic
      values, truthiness, exceptions, strings, [parseInt], [Date]);
    - [Validators]: backend/src/utils/validators.js;
    - [NodeCache]: the node-cache store both caches are instances of;
    - [NasaApi]: the service layer (cached upstream requests);
    - [Http], [Apod], [Mars], [Neows], [Epic], [Proxy]: the route
      handlers and the error middleware.

    Strings are sequences of 8-bit characters; the regular expressions and
    case conversions of the backend only ever distinguish ASCII characters.
    Time is an explicit parameter: a handler receives the instant at which
    it runs, in milliseconds since the epoch, as [Date.now()] would give. *)

From Stdlib Require Import ZArith QArith Lia List Bool Ascii String Sorted.
From stdpp Require Import base option list gmap strings pretty.

Local Open Scope string_scope.
Local Open Scope list_scope.
Local Open Scope Z_scope.

(** ** The JavaScript fragment *)

Module JS.

(** IEEE doubles by their exact value. *)
Inductive number :=
| NaN
| NegInf
| Fin (q : Q)
| PosInf.

Definition Int (z : Z) : number := Fin (inject_Z z).

(** Dynamic values. [VBuiltin k] is the function or object a plain object
    inherits from [Object.prototype] under the key [k]; it is opaque. *)
#[warnings="-register-all"]
Inductive value :=
| VUndef
| VNull
| VBool (b : bool)
| VNum (n : number)
| VStr (s : string)
| VArr (elems : list value)
| VObj (props : list (string * value))
| VBuiltin (name : string).

(** What an axios error carries of the upstream response. *)
Record response_info := mkResponseInfo {
  resp_status : Z;
  resp_error_message : option string;   (* response.data?.error?.message *)
  resp_statusText : string
}.

(** Error objects: [name], [message], the [code] and [response] axios adds,
    the [errors] of a validation error, and the stack trace. *)
Record error := mkError {
  err_name : string;
  err_message : string;
  err_code : option string;
  err_response : option response_info;
  err_errors : option (list string);
  err_stack : string
}.

(** [throw new TypeError(msg)] as the runtime raises it; stack traces are not
    modelled and read as the empty string. *)
Definition TypeError (msg : string) : error :=
  mkError "TypeError" msg None None None "".

(** [new Error(msg)]. *)
Definition Error (msg : string) : error :=
  mkError "Error" msg None None None "".

(** A computation either returns or throws. *)
Inductive jsres (A : Type) :=
| Ret (a : A)
| Throw (e : error).
Arguments Ret {A} a.
Arguments Throw {A} e.

Definition bind {A B : Type} (c : jsres A) (k : A -> jsres B) : jsres B :=
  match c with
  | Ret a => k a
  | Throw e => Throw e
  end.

Notation "'do' x <- c ; k" := (bind c (fun x => k))
  (at level 10, x name, c at level 100, k at level 200).

(** [a < b] on numbers; a comparison with [NaN] is false. *)
Definition num_lt (a b : number) : bool :=
  match a, b with
  | NaN, _ | _, NaN => false
  | _, NegInf => false
  | NegInf, _ => true
  | PosInf, _ => false
  | _, PosInf => true
  | Fin x, Fin y => negb (Qle_bool y x)
  end.

(** *** Truthiness and [typeof] *)

Definition truthy (v : value) : bool :=
  match v with
  | VUndef | VNull => false
  | VBool b => b
  | VNum NaN => false
  | VNum (Fin q) => negb (Qeq_bool q 0)
  | VNum _ => true
  | VStr s => negb (String.eqb s "")
  | VArr _ | VObj _ | VBuiltin _ => true
  end.

Definition typeof (v : value) : string :=
  match v with
  | VUndef => "undefined"
  | VNull | VArr _ | VObj _ => "object"
  | VBool _ => "boolean"
  | VNum _ => "number"
  | VStr _ => "string"
  | VBuiltin k => if String.eqb k "__proto__" then "object" else "function"
  end.

(** [v === undefined || v === null || v === ''] *)
Definition is_blank (v : value) : bool :=
  match v with
  | VUndef | VNull => true
  | VStr s => String.eqb s ""
  | _ => false
  end.

(** *** Strings *)

Definition is_digit (c : ascii) : bool :=
  ((48 <=? N_of_ascii c) && (N_of_ascii c <=? 57))%N.

Definition digit_val (c : ascii) : Z := Z.of_N (N_of_ascii c) - 48.

Definition is_upper (c : ascii) : bool :=
  ((65 <=? N_of_ascii c) && (N_of_ascii c <=? 90))%N.

Definition is_lower (c : ascii) : bool :=
  ((97 <=? N_of_ascii c) && (N_of_ascii c <=? 122))%N.

Definition lower_char (c : ascii) : ascii :=
  if is_upper c then ascii_of_N (N_of_ascii c + 32) else c.

Definition upper_char (c : ascii) : ascii :=
  if is_lower c then ascii_of_N (N_of_ascii c - 32) else c.

Fixpoint string_map (f : ascii -> ascii) (s : string) : string :=
  match s with
  | EmptyString => EmptyString
  | String c s' => String (f c) (string_map f s')
  end.

Definition toLowerCase (s : string) : string := string_map lower_char s.
Definition toUpperCase (s : string) : string := string_map upper_char s.

Fixpoint all_chars (p : ascii -> bool) (s : string) : bool :=
  match s with
  | EmptyString => true
  | String c s' => p c && all_chars p s'
  end.

(** [s.startsWith(p)], [s.includes(sub)], [s.endsWith(suf)] *)
Definition startsWith (p s : string) : bool := String.prefix p s.

Fixpoint includes (sub s : string) : bool :=
  startsWith sub s ||
  match s with
  | EmptyString => false
  | String _ s' => includes sub s'
  end.

Fixpoint endsWith (suf s : string) : bool :=
  String.eqb s suf ||
  match s with
  | EmptyString => false
  | String _ s' => endsWith suf s'
  end.

(** [xs.join(sep)] on strings *)
Fixpoint join (sep : string) (xs : list string) : string :=
  match xs with
  | [] => ""
  | [x] => x
  | x :: rest => x +:+ sep +:+ join sep rest
  end.

(** Decimal digits of an integer, as template literals print them. *)
Definition show (z : Z) : string := pretty z.

Definition pad2 (z : Z) : string :=
  if z <? 10 then "0" +:+ show z else show z.

Definition pad4 (z : Z) : string :=
  if z <? 10 then "000" +:+ show z
  else if z <? 100 then "00" +:+ show z
  else if z <? 1000 then "0" +:+ show z
  else show z.

Definition pad6 (z : Z) : string :=
  if z <? 10000 then "00" +:+ pad4 z
  else if z <? 100000 then "0" +:+ show z
  else show z.

(** *** Property lookup on plain objects

    [o[k]] reads an own property, else what [Object.prototype] provides. *)

Definition object_prototype_keys : list string :=
  [ "constructor"; "__proto__"; "hasOwnProperty"; "isPrototypeOf";
    "propertyIsEnumerable"; "toLocaleString"; "toString"; "valueOf";
    "__defineGetter__"; "__defineSetter__"; "__lookupGetter__";
    "__lookupSetter__" ].

Fixpoint own_property (props : list (string * value)) (k : string) : option value :=
  match props with
  | [] => None
  | (k', v) :: rest => if String.eqb k' k then Some v else own_property rest k
  end.

Definition get_property (props : list (string * value)) (k : string) : value :=
  match own_property props k with
  | Some v => v
  | None => if existsb (String.eqb k) object_prototype_keys then VBuiltin k else VUndef
  end.

(** [{ ...o, [k]: v }]: the property is overwritten in place or added last. *)
Fixpoint set_property (props : list (string * value)) (k : string) (v : value)
  : list (string * value) :=
  match props with
  | [] => [(k, v)]
  | (k', v') :: rest =>
      if String.eqb k' k then (k, v) :: rest else (k', v') :: set_property rest k v
  end.

(** [xs.sort(compare)] for a consistent comparator: a stable sort. [gt a b]
    is [compare(a, b) > 0]. *)
Fixpoint sort_insert {A : Type} (gt : A -> A -> bool) (x : A) (sorted : list A) : list A :=
  match sorted with
  | [] => [x]
  | y :: rest => if gt x y then y :: sort_insert gt x rest else x :: y :: rest
  end.

Fixpoint sort {A : Type} (gt : A -> A -> bool) (xs : list A) : list A :=
  match xs with
  | [] => []
  | x :: rest => sort_insert gt x (sort gt rest)
  end.

(** [receiver.toLowerCase()]: strings have the method; reading it off
    [undefined] or [null] throws, and so does calling what any other value
    has under that name (nothing, or a property that is data). *)
Definition call_toLowerCase (receiver : value) : jsres string :=
  match receiver with
  | VStr s => Ret (toLowerCase s)
  | VUndef | VNull =>
      Throw (TypeError "Cannot read properties of undefined (reading 'toLowerCase')")
  | _ => Throw (TypeError "rover.toLowerCase is not a function")
  end.

(** [receiver.includes(x)] for a string [x]: arrays compare their elements
    with [x], strings search for it, nothing else has the method. *)
Definition call_includes (receiver : value) (x : string) : jsres bool :=
  match receiver with
  | VArr elems =>
      Ret (existsb (fun e => match e with VStr s => String.eqb s x | _ => false end) elems)
  | VStr s => Ret (includes x s)
  | VUndef | VNull =>
      Throw (TypeError "Cannot read properties of undefined (reading 'includes')")
  | _ => Throw (TypeError "roverCameras.includes is not a function")
  end.

(** *** [parseInt] on strings

    Leading white space, an optional sign, an optional [0x] prefix, then
    the longest run of digits of the radix; [None] is [NaN]. White space is
    what [StrWhiteSpaceChar] has among the 8-bit characters: tab to carriage
    return, the space and the no-break space. The integer is exact, where
    [parseInt] returns the double nearest to it: the two agree on the
    integers up to [2 ^ 53], and the statements that depend on the value
    keep to these. *)

Definition is_space (c : ascii) : bool :=
  let n := N_of_ascii c in
  ((9 <=? n) && (n <=? 13) || (n =? 32) || (n =? 160))%N.

Fixpoint skip_spaces (s : string) : string :=
  match s with
  | String c s' => if is_space c then skip_spaces s' else s
  | EmptyString => s
  end.

Definition digit_of (radix : Z) (c : ascii) : option Z :=
  let n := Z.of_N (N_of_ascii c) in
  let d := if is_digit c then n - 48
           else if is_lower c then n - 87
           else if is_upper c then n - 55
           else radix in
  if d <? radix then Some d else None.

Fixpoint digits_prefix (radix : Z) (s : string) (acc : option Z) : option Z :=
  match s with
  | EmptyString => acc
  | String c s' =>
      match digit_of radix c with
      | Some d => digits_prefix radix s' (Some (default 0 acc * radix + d))
      | None => acc
      end
  end.

Definition parseInt_string (s : string) : option Z :=
  let s := skip_spaces s in
  let '(sign, s) :=
    match s with
    | String "-" s' => (-1, s')
    | String "+" s' => (1, s')
    | _ => (1, s)
    end in
  let '(radix, s) :=
    match s with
    | String "0" (String "x" s') => (16, s')
    | String "0" (String "X" s') => (16, s')
    | _ => (10, s)
    end in
  option_map (Z.mul sign) (digits_prefix radix s None).

(** *** Dates

    Time values are milliseconds since the epoch; days are counted in the
    proleptic Gregorian calendar, as [Day], [MakeDay], [YearFromTime],
    [MonthFromTime] and [DateFromTime] of ECMAScript do. *)

Definition msPerDay : Z := 86400000.

(** Day number of the civil date [y]-[m]-[d] ([m] from 1), 1970-01-01 being 0. *)
Definition days_from_civil (y m d : Z) : Z :=
  let y := if m <=? 2 then y - 1 else y in
  let era := y / 400 in
  let yoe := y - era * 400 in
  let mp := (m + 9) mod 12 in
  let doy := (153 * mp + 2) / 5 + d - 1 in
  let doe := yoe * 365 + yoe / 4 - yoe / 100 + doy in
  era * 146097 + doe - 719468.

(** The civil date (year, month from 1, day of month) of a day number. *)
Definition civil_from_days (z : Z) : Z * Z * Z :=
  let z := z + 719468 in
  let era := z / 146097 in
  let doe := z - era * 146097 in
  let yoe := (doe - doe / 1460 + doe / 36524 - doe / 146096) / 365 in
  let y := yoe + era * 400 in
  let doy := doe - (365 * yoe + yoe / 4 - yoe / 100) in
  let mp := (5 * doy + 2) / 153 in
  let d := doy - (153 * mp + 2) / 5 + 1 in
  let m := if mp <? 10 then mp + 3 else mp - 9 in
  (if m <=? 2 then y + 1 else y, m, d).

(** [MakeDay(year, month, date)], [month] from 0 and free to overflow. *)
Definition MakeDay (year month date : Z) : Z :=
  days_from_civil (year + month / 12) (month mod 12 + 1) 1 + date - 1.

Definition Day (t : Z) : Z := t / msPerDay.

(** The three numbers of a string of the shape dddd-dd-dd. *)
Definition date_fields (s : string) : option (Z * Z * Z) :=
  match s with
  | String y1 (String y2 (String y3 (String y4 (String "-"
      (String m1 (String m2 (String "-" (String d1 (String d2 EmptyString))))))))) =>
      if forallb is_digit [y1; y2; y3; y4; m1; m2; d1; d2]
      then Some (((digit_val y1 * 10 + digit_val y2) * 10 + digit_val y3) * 10 + digit_val y4,
                 digit_val m1 * 10 + digit_val m2,
                 digit_val d1 * 10 + digit_val d2)
      else None
  | _ => None
  end.

(** [/^\d{4}-\d{2}-\d{2}$/.test(s)] *)
Definition dateRegex_test (s : string) : bool :=
  match date_fields s with Some _ => true | None => false end.

(** [new Date(s)] for a date-only string: midnight UTC of that day, the day
    of the month rolling over into the next month as V8 lets it; [None] is
    the invalid date, whose time value is [NaN]. *)
Definition Date_parse_date_only (s : string) : option Z :=
  match date_fields s with
  | Some (y, m, d) =>
      if (1 <=? m) && (m <=? 12) && (1 <=? d) && (d <=? 31)
      then Some (MakeDay y (m - 1) d * msPerDay)
      else None
  | None => None
  end.

(** [LocalTime(t)]: [tza t] is the offset of the server's time zone at [t],
    in milliseconds. *)
Definition LocalTime (tza : Z -> Z) (t : Z) : Z := t + tza t.

Definition getFullYear (tza : Z -> Z) (t : Z) : Z :=
  fst (fst (civil_from_days (Day (LocalTime tza t)))).

(** [getMonth()], from 0 *)
Definition getMonth (tza : Z -> Z) (t : Z) : Z :=
  snd (fst (civil_from_days (Day (LocalTime tza t)))) - 1.

Definition getDate (tza : Z -> Z) (t : Z) : Z :=
  snd (civil_from_days (Day (LocalTime tza t))).

(** [new Date(t).toISOString().split('T')[0]] *)
Definition toISODate (t : Z) : string :=
  let '(y, m, d) := civil_from_days (Day t) in
  let year :=
    if (0 <=? y) && (y <=? 9999) then pad4 y
    else if y <? 0 then "-" +:+ pad6 (- y)
    else "+" +:+ pad6 y in
  year +:+ "-" +:+ pad2 m +:+ "-" +:+ pad2 d.

(** The server without a time-zone offset. *)
Definition utc : Z -> Z := fun _ => 0.

(** *** [trim], [slice] and [replace]

    The white space and line terminators among the 8-bit characters: tab,
    line feed, vertical tab, form feed, carriage return, space and the
    no-break space. *)
Definition is_white (c : ascii) : bool :=
  let n := N_of_ascii c in
  ((9 <=? n) && (n <=? 13) || (n =? 32) || (n =? 160))%N.

Fixpoint trimStart (s : string) : string :=
  match s with
  | String c s' => if is_white c then trimStart s' else s
  | EmptyString => s
  end.

Fixpoint trimEnd (s : string) : string :=
  match s with
  | EmptyString => EmptyString
  | String c s' =>
      match trimEnd s' with
      | EmptyString => if is_white c then EmptyString else String c EmptyString
      | rest => String c rest
      end
  end.

(** [s.trim()] *)
Definition trim (s : string) : string := trimEnd (trimStart s).

(** [s.slice(0, end)] for an integer [end]: a negative one counts from the
    end of the string. *)
Definition slice_to (end_ : Z) (s : string) : string :=
  let len := Z.of_nat (String.length s) in
  let to := if end_ <? 0 then Z.max (len + end_) 0 else Z.min end_ len in
  String.substring 0 (Z.to_nat to) s.

(** [s.replace(/[<>]/g, '')] *)
Fixpoint strip_angles (s : string) : string :=
  match s with
  | EmptyString => EmptyString
  | String c s' =>
      if Ascii.eqb c "<" || Ascii.eqb c ">" then strip_angles s'
      else String c (strip_angles s')
  end.

End JS.

(** ** The Gregorian calendar, to state what the dates of the model are *)

Module Calendar.
Import JS.

Definition InLeapYear (y : Z) : bool :=
  (y mod 4 =? 0) && (negb (y mod 100 =? 0) || (y mod 400 =? 0)).

Definition DaysInMonth (y m : Z) : Z :=
  if m =? 2 then (if InLeapYear y then 29 else 28)
  else if (m =? 4) || (m =? 6) || (m =? 9) || (m =? 11) then 30
  else 31.

(** A date of the calendar. *)
Definition valid_date (y m d : Z) : bool :=
  (1 <=? m) && (m <=? 12) && (1 <=? d) && (d <=? DaysInMonth y m).

End Calendar.

(** ** backend/src/utils/validators.js *)

Module Validators.
Import JS.

(** [validateDate(dateString)]; [tza] is the server's time-zone offset, which
    [getFullYear], [getMonth] and [getDate] read the date in. *)
Definition validateDate (tza : Z -> Z) (dateString : value) : bool :=
  if negb (truthy dateString) || negb (String.eqb (typeof dateString) "string")
  then false
  else
    match dateString with
    | VStr s =>
        if negb (dateRegex_test s) then false
        else
          match date_fields s, Date_parse_date_only s with
          | Some (year, month, day), Some date =>
              (getFullYear tza date =? year)
              && (getMonth tza date =? month - 1)
              && (getDate tza date =? day)
          | _, _ => false   (* the getters of an invalid date return NaN *)
          end
    | _ => false
    end.

(** [validateCount(count, min, max)], [validateSol(sol)] and
    [validatePage(page)] take their first argument as the string [parseInt]
    converts it to. *)
Definition validateCount (count : string) (min max : Z) : bool :=
  match parseInt_string count with
  | Some num => (min <=? num) && (num <=? max)
  | None => false
  end.

Definition validateSol (sol : string) : bool :=
  match parseInt_string sol with
  | Some num => (0 <=? num) && (num <=? 10000)
  | None => false
  end.

Definition validatePage (page : string) : bool :=
  match parseInt_string page with
  | Some num => (1 <=? num) && (num <=? 1000)
  | None => false
  end.

(** [validateCamera(camera, rover, validCameras)], [validCameras] a plain
    object. *)
Definition validateCamera (camera rover : value) (validCameras : list (string * value))
  : jsres bool :=
  if negb (truthy camera) || negb (String.eqb (typeof camera) "string")
  then Ret false
  else
    do key <- call_toLowerCase rover;
    let roverCameras := get_property validCameras key in
    if negb (truthy roverCameras) then Ret false
    else
      match camera with
      | VStr c => call_includes roverCameras (toUpperCase c)
      | _ => Ret false
      end.

(** [validateAsteroidId(asteroidId)] *)
Definition validateAsteroidId (asteroidId : value) : bool :=
  if negb (truthy asteroidId) || negb (String.eqb (typeof asteroidId) "string")
  then false
  else
    match asteroidId with
    | VStr s =>
        all_chars is_digit s
        && (1 <=? Z.of_nat (String.length s))
        && (Z.of_nat (String.length s) <=? 10)
    | _ => false
    end.

(** What [validateDateRange] returns: [{ isValid: false, message }] or
    [{ isValid: true, days }]. *)
Inductive range_check :=
| RangeInvalid (message : string)
| RangeValid (days : number).

(** [Math.ceil(a / b)] for integers, [b] positive *)
Definition ceil_div (a b : Z) : Z := - ((- a) / b).

(** [validateDateRange(startDate, endDate, maxDays)] *)
Definition validateDateRange (tza : Z -> Z) (startDate endDate : value) (maxDays : Z)
  : range_check :=
  if negb (validateDate tza startDate) then RangeInvalid "Invalid start date format"
  else if negb (validateDate tza endDate) then RangeInvalid "Invalid end date format"
  else
    match startDate, endDate with
    | VStr s, VStr e =>
        match Date_parse_date_only s, Date_parse_date_only e with
        | Some start, Some end_ =>
            if start >? end_
            then RangeInvalid "Start date must be before or equal to end date"
            else
              let daysDiff := ceil_div (end_ - start) (1000 * 60 * 60 * 24) in
              if daysDiff >? maxDays
              then RangeInvalid ("Date range cannot exceed " +:+ show maxDays +:+ " days")
              else RangeValid (Int (daysDiff + 1))
        | _, _ => RangeValid NaN   (* comparisons with NaN are false *)
        end
    | _, _ => RangeValid NaN
    end.

(** A rule of [validateQueryParams]: [{ required, validator, message }]. *)
Record rule := mkRule {
  required : bool;
  validator : option (value -> jsres value);
  message : option string
}.

(** [rule.message || `Invalid ${key}`] *)
Definition rule_message (key : string) (r : rule) : string :=
  match message r with
  | Some m => if String.eqb m "" then "Invalid " +:+ key else m
  | None => "Invalid " +:+ key
  end.

(** The loop of [validateQueryParams] over [Object.entries(rules)]. Beside
    the [errors] array it threads the list of validator calls made so far,
    each with the key of its rule and the argument it was given. *)
Fixpoint rules_loop (params : list (string * value)) (rules : list (string * rule))
    (errors : list string) (calls : list (string * value))
  : jsres (list string * list (string * value)) :=
  match rules with
  | [] => Ret (errors, calls)
  | (key, r) :: rest =>
      let value := get_property params key in
      if required r && is_blank value
      then rules_loop params rest (errors ++ [key +:+ " is required"]) calls
      else if is_blank value
      then rules_loop params rest errors calls
      else
        match validator r with
        | Some f =>
            do ok <- f value;
            rules_loop params rest
              (if truthy ok then errors else errors ++ [rule_message key r])
              (calls ++ [(key, value)])
        | None => rules_loop params rest errors calls
        end
  end.

(** [{ isValid, errors }] *)
Record params_check := mkParamsCheck {
  isValid : bool;
  errors : list string
}.

(** [validateQueryParams(params, rules)], with the validator calls it made. *)
Definition validateQueryParams (params : list (string * value)) (rules : list (string * rule))
  : jsres (params_check * list (string * value)) :=
  do r <- rules_loop params rules [] [];
  Ret (mkParamsCheck (Nat.eqb (List.length (fst r)) 0) (fst r), snd r).

(** [sanitizeString(input, maxLength)], [maxLength] an integer. *)
Definition sanitizeString (input : value) (maxLength : Z) : string :=
  if negb (truthy input) || negb (String.eqb (typeof input) "string")
  then ""
  else
    match input with
    | VStr s => strip_angles (slice_to maxLength (trim s))
    | _ => ""
    end.

(** [/^[a-zA-Z0-9]+$/.test(s)] *)
Definition alphanumeric (s : string) : bool :=
  negb (String.eqb s "") && all_chars (fun c => is_lower c || is_upper c || is_digit c) s.

(** [validateApiKey(apiKey)] *)
Definition validateApiKey (apiKey : value) : bool :=
  if negb (truthy apiKey) || negb (String.eqb (typeof apiKey) "string")
  then false
  else
    match apiKey with
    | VStr s =>
        (20 <=? Z.of_nat (String.length s))
        && (Z.of_nat (String.length s) <=? 50)
        && alphanumeric s
    | _ => false
    end.

End Validators.

(** ** The node-cache store

    Both caches of the backend are instances of the node-cache package,
    [new NodeCache({ stdTTL, checkperiod })]. The package is a dependency:
    its source (lib/node_cache.js) is not among the files of the repository,
    and the model follows the package: string keys, values copied in and out
    (so no aliasing), a time to live per entry, an expired entry deleted by
    the read that finds it, and the counters [getStats()] reports. The
    byte-size estimates [ksize] and [vsize] of the statistics are left out. *)

Module NodeCache.

(** A stored entry: [{ t, v }], [t] the instant it expires at or 0 for never. *)
Record entry (V : Type) := mkEntry {
  t : Z;
  v : V
}.
Arguments mkEntry {V} t v.
Arguments t {V} e.
Arguments v {V} e.

Record stats := mkStats {
  hits : Z;
  misses : Z;
  keys : Z
}.

Record cache (V : Type) := mkCache {
  stdTTL : Z;
  data : gmap string (entry V);
  getStats : stats
}.
Arguments mkCache {V} stdTTL data getStats.
Arguments stdTTL {V} c.
Arguments data {V} c.
Arguments getStats {V} c.

Definition no_stats : stats := mkStats 0 0 0.

Definition create {V : Type} (stdTTL : Z) : cache V := mkCache stdTTL ∅ no_stats.

(** [data.t !== 0 && data.t < Date.now()] *)
Definition expired {V : Type} (now : Z) (e : entry V) : bool :=
  negb (t e =? 0) && (t e <? now).

Definition count_hit (s : stats) : stats := mkStats (hits s + 1) (misses s) (keys s).
Definition count_miss (s : stats) : stats := mkStats (hits s) (misses s + 1) (keys s).

(** [del(key)] *)
Definition del {V : Type} (key : string) (c : cache V) : cache V :=
  match data c !! key with
  | Some _ =>
      mkCache (stdTTL c) (delete key (data c))
        (mkStats (hits (getStats c)) (misses (getStats c)) (keys (getStats c) - 1))
  | None => c
  end.

(** [get(key)]: a live entry is a hit; an expired one is deleted and, like
    an absent one, a miss. *)
Definition get {V : Type} (now : Z) (key : string) (c : cache V) : option V * cache V :=
  match data c !! key with
  | Some e =>
      if expired now e
      then let c' := del key c in
           (None, mkCache (stdTTL c') (data c') (count_miss (getStats c')))
      else (Some (v e), mkCache (stdTTL c) (data c) (count_hit (getStats c)))
  | None => (None, mkCache (stdTTL c) (data c) (count_miss (getStats c)))
  end.

(** [set(key, value, ttl)]; [ttl = None] is the call without a ttl. *)
Definition set {V : Type} (now : Z) (key : string) (value : V) (ttl : option Z)
    (c : cache V) : cache V :=
  let ttl := default (stdTTL c) ttl in
  let livetime := if ttl =? 0 then 0 else now + ttl * 1000 in
  let existent := bool_decide (is_Some (data c !! key)) in
  mkCache (stdTTL c) (<[key := mkEntry livetime value]> (data c))
    (mkStats (hits (getStats c)) (misses (getStats c))
       (if existent then keys (getStats c) else keys (getStats c) + 1)).

(** [keys()]: [Object.keys(this.data)], in no particular order here. *)
Definition key_list {V : Type} (c : cache V) : list string :=
  (map_to_list (data c)).*1.

(** [flushAll()]: [this.data = {}] and
    [this.stats = { hits: 0, misses: 0, keys: 0, ksize: 0, vsize: 0 }]: the
    entries go and the counters start again. *)
Definition flushAll {V : Type} (c : cache V) : cache V :=
  mkCache (stdTTL c) ∅ no_stats.

(** [flushStats()]: the counters alone start again. *)
Definition flushStats {V : Type} (c : cache V) : cache V :=
  mkCache (stdTTL c) (data c) no_stats.

(** The periodic check ([checkperiod]): every expired entry is deleted. *)
Definition checkData {V : Type} (now : Z) (c : cache V) : cache V :=
  let live := filter (fun kv => expired now (snd kv) = false) (data c) in
  mkCache (stdTTL c) live
    (mkStats (hits (getStats c)) (misses (getStats c))
       (keys (getStats c) - Z.of_nat (size (data c)) + Z.of_nat (size live))).

End NodeCache.

(** ** The service layer (services/nasaApi): cached upstream requests *)

Module NasaApi.
Import JS.

(** *** Upstream payloads

    The payloads the handlers only pass on are opaque JSON; the ones they
    read are typed by the fields read, next to the JSON object received. *)

(** An entry of [close_approach_data]. *)
Record approach := mkApproach {
  close_approach_date : string;
  miss_distance_kilometers : string;
  relative_velocity_kilometers_per_hour : string
}.

(** A near earth object. *)
Record neo := mkNeo {
  neo_props : list (string * value);
  neo_id : string;
  neo_name : string;
  is_potentially_hazardous_asteroid : bool;
  estimated_diameter_max : number;   (* estimated_diameter.kilometers.estimated_diameter_max *)
  close_approach_data : list approach
}.

(** The NEO feed: the objects are grouped by date. *)
Record feed := mkFeed {
  feed_props : list (string * value);
  element_count : value;
  near_earth_objects : list (string * list neo)
}.

(** An EPIC image record. *)
Record epic_image := mkEpicImage {
  image_props : list (string * value);
  image_date : string;    (* image.date *)
  image_name : string     (* image.image *)
}.

Inductive payload :=
| Opaque (json : value)
| Manifest (props : list (string * value)) (max_sol : Z)
| Feed (f : feed)
| Neo (o : neo)
| Images (imgs : list epic_image)
| Dates (dates : list string).

(** The JSON received. *)
Definition json_of_payload (p : payload) : value :=
  match p with
  | Opaque json => json
  | Manifest props _ => VObj props
  | Feed f => VObj (feed_props f)
  | Neo o => VObj (neo_props o)
  | Images imgs => VArr (map (fun i => VObj (image_props i)) imgs)
  | Dates dates => VArr (map (fun d => VObj [("date", VStr d)]) dates)
  end.

Definition payload_truthy (p : payload) : bool :=
  match p with
  | Opaque json => truthy json
  | _ => true
  end.

(** *** Request parameters and [JSON.stringify] of them *)

Inductive param :=
| PStr (s : string)
| PNum (z : Z)
| PBool (b : bool).

Definition param_truthy (p : param) : bool :=
  match p with
  | PStr s => negb (String.eqb s "")
  | PNum z => negb (z =? 0)
  | PBool b => b
  end.

Definition dquote : string := String (ascii_of_N 34) EmptyString.
Definition backslash : string := String (ascii_of_N 92) EmptyString.

Definition hex_digit (n : N) : ascii :=
  if (n <? 10)%N then ascii_of_N (48 + n) else ascii_of_N (87 + n).

Definition escape_char (c : ascii) : string :=
  let n := N_of_ascii c in
  if (n =? 34)%N then backslash +:+ dquote
  else if (n =? 92)%N then backslash +:+ backslash
  else if (n =? 8)%N then backslash +:+ "b"
  else if (n =? 12)%N then backslash +:+ "f"
  else if (n =? 10)%N then backslash +:+ "n"
  else if (n =? 13)%N then backslash +:+ "r"
  else if (n =? 9)%N then backslash +:+ "t"
  else if (n <? 32)%N
  then backslash +:+ "u00" +:+ String (hex_digit (n / 16)) (String (hex_digit (n mod 16)) "")
  else String c "".

Fixpoint escape (s : string) : string :=
  match s with
  | EmptyString => ""
  | String c s' => escape_char c +:+ escape s'
  end.

Definition quote (s : string) : string := dquote +:+ escape s +:+ dquote.

Definition stringify_param (p : param) : string :=
  match p with
  | PStr s => quote s
  | PNum z => show z
  | PBool true => "true"
  | PBool false => "false"
  end.

Definition JSON_stringify (params : list (string * param)) : string :=
  "{" +:+ join "," (map (fun kv => quote (fst kv) +:+ ":" +:+ stringify_param (snd kv)) params)
      +:+ "}".

(** *** The upstream and the service state *)

(** What [client.get(endpoint, { params })] settles to: the response data,
    or the error axios rejects with. *)
Inductive upstream_result :=
| Resolved (data : payload)
| Rejected (e : error).

(** The environment of the server process. [upstream n endpoint params] is
    the outcome of the request made after [n] earlier ones. *)
Record config := mkConfig {
  upstream : nat -> string -> list (string * param) -> upstream_result;
  NODE_ENV : option string;
  NASA_API_KEY : option string;
  CACHE_TTL_SECONDS : option string;
  RATE_LIMIT_WINDOW_MS : option string;
  tza : Z -> Z
}.

(** The module's cache and the upstream requests made so far (the request
    interceptor adds the [api_key] parameter to each). *)
Record service := mkService {
  cache : NodeCache.cache payload;
  requests : list (string * list (string * param))
}.

(** [parseInt(process.env.CACHE_TTL_SECONDS) || 3600] *)
Definition env_ttl (cfg : config) : Z :=
  match CACHE_TTL_SECONDS cfg with
  | Some s =>
      match parseInt_string s with
      | Some n => if n =? 0 then 3600 else n
      | None => 3600
      end
  | None => 3600
  end.

(** The service as the module creates it. *)
Definition start (cfg : config) : service :=
  mkService (NodeCache.create (env_ttl cfg)) [].

(** The error [makeRequest] throws for a rejected request. *)
Definition request_error (e : error) : error :=
  let status := option_map resp_status (err_response e) in
  match status with
  | Some s =>
      if s =? 429 then Error "NASA API rate limit exceeded. Please try again later."
      else if s =? 403 then Error "Invalid NASA API key. Please check your configuration."
      else if s >=? 500 then Error "NASA API is currently unavailable. Please try again later."
      else Error ("NASA API request failed: " +:+ err_message e)
  | None => Error ("NASA API request failed: " +:+ err_message e)
  end.

(** [makeRequest(endpoint, params, cacheKey, cacheTTL)], run at [now]. *)
Definition makeRequest (cfg : config) (now : Z) (endpoint : string)
    (params : list (string * param)) (cacheKey : string) (cacheTTL : option Z)
    (st : service) : jsres payload * service :=
  let finalCacheKey :=
    if negb (String.eqb cacheKey "") then cacheKey
    else endpoint +:+ "_" +:+ JSON_stringify params in
  let '(cachedData, cache1) := NodeCache.get now finalCacheKey (cache st) in
  let miss :=
    let requests1 := requests st ++ [(endpoint, params)] in
    match upstream cfg (List.length (requests st)) endpoint params with
    | Resolved data =>
        let ttl :=
          match cacheTTL with
          | Some ttl => if ttl =? 0 then env_ttl cfg else ttl
          | None => env_ttl cfg
          end in
        (Ret data, mkService (NodeCache.set now finalCacheKey data (Some ttl) cache1) requests1)
    | Rejected e => (Throw (request_error e), mkService cache1 requests1)
    end in
  match cachedData with
  | Some data =>
      if payload_truthy data then (Ret data, mkService cache1 (requests st)) else miss
  | None => miss
  end.

(** Adds [key: v] to the parameters when [v] is truthy. *)
Definition add_if (key : string) (v : option param) (params : list (string * param))
  : list (string * param) :=
  match v with
  | Some p => if param_truthy p then params ++ [(key, p)] else params
  | None => params
  end.

(** [getAPOD(date, count, startDate, endDate)] *)
Definition getAPOD (cfg : config) (now : Z)
    (date : option string) (count : option param) (startDate endDate : option string)
    (st : service) : jsres payload * service :=
  let params :=
    add_if "end_date" (option_map PStr endDate)
      (add_if "start_date" (option_map PStr startDate)
         (add_if "count" count
            (add_if "date" (option_map PStr date) []))) in
  makeRequest cfg now "/planetary/apod" params ("apod_" +:+ JSON_stringify params) None st.

(** [getMarsRoverPhotos(rover, sol, earthDate, camera, page)] *)
Definition getMarsRoverPhotos (cfg : config) (now : Z) (rover : string)
    (sol : option param) (earthDate camera : option string) (page : Z)
    (st : service) : jsres payload * service :=
  let params :=
    add_if "camera" (option_map PStr camera)
      (add_if "earth_date" (option_map PStr earthDate)
         (add_if "sol" sol [("page", PNum page)])) in
  makeRequest cfg now ("/mars-photos/api/v1/rovers/" +:+ rover +:+ "/photos") params
    ("mars_" +:+ rover +:+ "_" +:+ JSON_stringify params) None st.

(** [getMarsRoverManifest(rover)] *)
Definition getMarsRoverManifest (cfg : config) (now : Z) (rover : string)
    (st : service) : jsres payload * service :=
  makeRequest cfg now ("/mars-photos/api/v1/rovers/" +:+ rover) []
    ("mars_manifest_" +:+ rover) (Some 86400) st.

(** [getNearEarthObjects(startDate, endDate, detailed)] *)
Definition getNearEarthObjects (cfg : config) (now : Z)
    (startDate endDate : option string) (detailed : bool)
    (st : service) : jsres payload * service :=
  let params :=
    add_if "end_date" (option_map PStr endDate)
      (add_if "start_date" (option_map PStr startDate)
         [("detailed_destruction", PBool detailed)]) in
  makeRequest cfg now "/neo/rest/v1/feed" params ("neows_" +:+ JSON_stringify params) None st.

(** [getNearEarthObjectById(asteroidId)] *)
Definition getNearEarthObjectById (cfg : config) (now : Z) (asteroidId : string)
    (st : service) : jsres payload * service :=
  makeRequest cfg now ("/neo/rest/v1/neo/" +:+ asteroidId) []
    ("neows_object_" +:+ asteroidId) (Some 86400) st.

(** [getEPICImages(date, type)] *)
Definition getEPICImages (cfg : config) (now : Z) (date : option string) (type : string)
    (st : service) : jsres payload * service :=
  let today := toISODate now in
  let targetDate :=
    match date with
    | Some d => if String.eqb d "" then today else d
    | None => today
    end in
  makeRequest cfg now ("/EPIC/api/" +:+ type +:+ "/date/" +:+ targetDate) []
    ("epic_" +:+ type +:+ "_" +:+ targetDate) None st.

(** [getEPICAvailableDates(type)] *)
Definition getEPICAvailableDates (cfg : config) (now : Z) (type : string)
    (st : service) : jsres payload * service :=
  makeRequest cfg now ("/EPIC/api/" +:+ type +:+ "/all") []
    ("epic_dates_" +:+ type) (Some 86400) st.

(** [clearCache()] *)
Definition clearCache (st : service) : service :=
  mkService (NodeCache.flushAll (cache st)) (requests st).

(** [getCacheStats()]: [{ keys: cache.keys().length, stats: cache.getStats() }] *)
Definition getCacheStats (st : service) : Z * NodeCache.stats :=
  (Z.of_nat (List.length (NodeCache.key_list (cache st))), NodeCache.getStats (cache st)).

End NasaApi.

(** ** Responses and the error middleware *)

Module Http.
Import JS NasaApi.

(** What a handler sends: [res.status(status).json(body)], or
    [res.set(headers); res.send(data)] for a binary body. *)
Inductive response :=
| JsonResponse (status : Z) (body : value)
| SendResponse (headers : list (string * string)) (data : string).

(** A handler responds, or hands an error on with [next(error)]. *)
Inductive outcome :=
| Respond (r : response)
| Next (e : error).

(** [res.status(status).json({ success: false, error, message, ...extra })] *)
Definition failure (status : Z) (error message : string) (extra : list (string * value))
  : outcome :=
  Respond (JsonResponse status
    (VObj ([("success", VBool false); ("error", VStr error); ("message", VStr message)]
           ++ extra))).

(** [res.json({ success: true, data, meta })] *)
Definition success (data : value) (meta : list (string * value)) : outcome :=
  Respond (JsonResponse 200
    (VObj [("success", VBool true); ("data", data); ("meta", VObj meta)])).

(** [new Date(t).toISOString()] *)
Definition pad3 (z : Z) : string :=
  if z <? 10 then "00" +:+ show z
  else if z <? 100 then "0" +:+ show z
  else show z.

Definition toISOString (t : Z) : string :=
  let ms := t mod msPerDay in
  toISODate t +:+ "T" +:+ pad2 (ms / 3600000) +:+ ":" +:+ pad2 (ms / 60000 mod 60)
    +:+ ":" +:+ pad2 (ms / 1000 mod 60) +:+ "." +:+ pad3 (ms mod 1000) +:+ "Z".

(** The [cached] and [timestamp] fields every [meta] ends with. *)
Definition stamp (now : Z) : list (string * value) :=
  [("cached", VBool true); ("timestamp", VStr (toISOString now))].

(** [field || null] in a [meta] object *)
Definition or_null (field : option string) : value :=
  match field with
  | Some s => if String.eqb s "" then VNull else VStr s
  | None => VNull
  end.

(** A query parameter that is present and not the empty string. *)
Definition given (field : option string) : bool :=
  match field with
  | Some s => negb (String.eqb s "")
  | None => false
  end.

(** A query parameter as the value the validators receive. *)
Definition arg (field : option string) : value :=
  match field with
  | Some s => VStr s
  | None => VUndef
  end.

(** The time value of [new Date(s)] for a date-only string. *)
Definition time_of (s : string) : option Z := Date_parse_date_only s.

(** [a > b] on time values; a comparison with [NaN] is false. *)
Definition later (a b : option Z) : bool :=
  match a, b with
  | Some x, Some y => x >? y
  | _, _ => false
  end.

(** [Math.ceil((end - start) / (1000 * 60 * 60 * 24))] on time values;
    [None] is [NaN], which arithmetic on an invalid date gives. *)
Definition days_between (start end_ : option Z) : option Z :=
  match start, end_ with
  | Some s, Some e => Some (Validators.ceil_div (e - s) (1000 * 60 * 60 * 24))
  | _, _ => None
  end.

(** [daysDiff > limit] *)
Definition exceeds (daysDiff : option Z) (limit : Z) : bool :=
  match daysDiff with
  | Some d => d >? limit
  | None => false
  end.

(** [daysDiff + 1] *)
Definition plus_one (daysDiff : option Z) : value :=
  match daysDiff with
  | Some d => VNum (Int (d + 1))
  | None => VNum NaN
  end.

(** [process.env.NODE_ENV === name] *)
Definition env_is (cfg : config) (name : string) : bool :=
  match NODE_ENV cfg with
  | Some e => String.eqb e name
  | None => false
  end.

(** [err.code === c] *)
Definition has_code (e : error) (c : string) : bool :=
  match err_code e with
  | Some c' => String.eqb c' c
  | None => false
  end.

(** middleware/errorHandler.js. It throws when [err.errors] is missing from
    an error named [ValidationError]. *)
Definition errorHandler (cfg : config) (err : error) : jsres response :=
  let reply status error message extra :=
    Ret (JsonResponse status
      (VObj ([("success", VBool false); ("error", VStr error); ("message", VStr message)]
             ++ extra))) in
  if includes "NASA API rate limit exceeded" (err_message err)
  then reply 429 "Rate limit exceeded"
         "Too many requests to NASA API. Please try again later."
         [("retryAfter", VNum (Int 3600))]
  else if includes "Invalid NASA API key" (err_message err)
  then reply 403 "API key invalid"
         "NASA API key is invalid or missing. Please check server configuration." []
  else if includes "NASA API is currently unavailable" (err_message err)
  then reply 503 "Service unavailable"
         "NASA API is temporarily unavailable. Please try again later." []
  else
    match err_response err with
    | Some r =>
        let status := resp_status r in
        let message :=
          match resp_error_message r with
          | Some m => if String.eqb m "" then resp_statusText r else m
          | None => resp_statusText r
          end in
        reply status "External API error"
          ("NASA API returned " +:+ show status +:+ ": " +:+ message) []
    | None =>
        if String.eqb (err_name err) "ValidationError"
        then
          match err_errors err with
          | Some messages => reply 400 "Validation error" (join ", " messages) []
          | None => Throw (TypeError "Cannot convert undefined or null to object")
          end
        else if String.eqb (err_name err) "CastError"
        then reply 400 "Invalid parameter" "Invalid parameter format provided" []
        else if has_code err "ECONNABORTED" || includes "timeout" (err_message err)
        then reply 408 "Request timeout" "Request to NASA API timed out. Please try again." []
        else if has_code err "ENOTFOUND" || has_code err "ECONNREFUSED"
        then reply 503 "Network error" "Unable to connect to NASA API. Please try again later." []
        else
          reply 500 "Internal server error"
            (if env_is cfg "production"
             then "Something went wrong on our end. Please try again later."
             else err_message err)
            (if env_is cfg "development" then [("stack", VStr (err_stack err))] else [])
    end.

(** middleware/notFound.js *)
Definition notFound (originalUrl : string) : response :=
  JsonResponse 404
    (VObj [("success", VBool false); ("error", VStr "Not found");
           ("message", VStr ("Route " +:+ originalUrl +:+ " not found"));
           ("availableEndpoints",
            VObj [("health", VStr "/api/health"); ("apod", VStr "/api/apod");
                  ("mars", VStr "/api/mars"); ("neows", VStr "/api/neows");
                  ("epic", VStr "/api/epic")])]).

(** A route as the application serves it: the handler, then the error
    middleware on what the handler handed on. *)
Definition serve (cfg : config) (o : outcome) : jsres response :=
  match o with
  | Respond r => Ret r
  | Next e => errorHandler cfg e
  end.

(** Reading a response. *)
Definition status_of (r : response) : Z :=
  match r with
  | JsonResponse status _ => status
  | SendResponse _ _ => 200
  end.

Definition field (k : string) (body : value) : value :=
  match body with
  | VObj props => default VUndef (own_property props k)
  | _ => VUndef
  end.

Definition body_of (r : response) : value :=
  match r with
  | JsonResponse _ body => body
  | SendResponse _ _ => VUndef
  end.

(** The two envelopes: [{ success: true, ... }] sent with status 200 and
    without an [error]; [{ success: false, error, message, ... }] sent with
    an error status, [error] and [message] both strings. *)
Definition success_envelope (status : Z) (body : value) : Prop :=
  status = 200 /\ field "success" body = VBool true /\ field "error" body = VUndef.

Definition failure_envelope (status : Z) (body : value) : Prop :=
  400 <= status < 600
  /\ field "success" body = VBool false
  /\ (exists label, field "error" body = VStr label)
  /\ (exists text, field "message" body = VStr text).

(** The errors the gateway handlers hand on: raised by the runtime or by
    the service layer, they carry no upstream response and are not named
    [ValidationError]. *)
Definition raised (e : error) : Prop :=
  err_response e = None /\ err_name e <> "ValidationError".

(** What a gateway handler may end with. *)
Definition well_behaved (o : outcome) : Prop :=
  match o with
  | Respond (JsonResponse status body) =>
      success_envelope status body \/ failure_envelope status body
  | Respond (SendResponse _ _) => False
  | Next e => raised e
  end.

(** The JSON body a handler answered with, if it did. *)
Definition answer (o : outcome) : value :=
  match o with
  | Respond r => body_of r
  | Next _ => VUndef
  end.

(** The handler answered 400: the request was turned down. *)
Definition rejected (o : outcome) : Prop :=
  exists body, o = Respond (JsonResponse 400 body).

(** From [st] to [st'] the log of upstream requests grew by at most [n]
    requests, added at its end. *)
Definition appended (n : nat) (st st' : service) : Prop :=
  exists new, requests st' = requests st ++ new /\ (List.length new <= n)%nat.

End Http.

(** ** routes/apod.js *)

Module Apod.
Import JS Validators NasaApi Http.

(** [req.query] of [GET /apod] *)
Record query := mkQuery {
  date : option string;
  count : option string;
  start_date : option string;
  end_date : option string
}.

(** [GET /api/apod] *)
Definition get_root (cfg : config) (now : Z) (q : query) (st : service)
  : outcome * service :=
  if given (date q) && negb (validateDate (tza cfg) (arg (date q)))
  then (failure 400 "Invalid date format" "Date must be in YYYY-MM-DD format" [], st)
  else if given (count q) && negb (validateCount (default "" (count q)) 1 100)
  then (failure 400 "Invalid count" "Count must be between 1 and 100" [], st)
  else if given (start_date q) && negb (validateDate (tza cfg) (arg (start_date q)))
  then (failure 400 "Invalid start_date format" "Start date must be in YYYY-MM-DD format" [], st)
  else if given (end_date q) && negb (validateDate (tza cfg) (arg (end_date q)))
  then (failure 400 "Invalid end_date format" "End date must be in YYYY-MM-DD format" [], st)
  else if given (start_date q) && given (end_date q)
          && later (time_of (default "" (start_date q))) (time_of (default "" (end_date q)))
  then (failure 400 "Invalid date range" "Start date must be before end date" [], st)
  else
    match getAPOD cfg now (date q) (option_map PStr (count q)) (start_date q) (end_date q) st with
    | (Ret data, st') =>
        (success (json_of_payload data) ([("endpoint", VStr "apod")] ++ stamp now), st')
    | (Throw error, st') => (Next error, st')
    end.

(** [GET /api/apod/today] *)
Definition get_today (cfg : config) (now : Z) (st : service) : outcome * service :=
  let today := toISODate now in
  match getAPOD cfg now (Some today) None None None st with
  | (Ret data, st') =>
      (success (json_of_payload data)
         ([("endpoint", VStr "apod/today"); ("date", VStr today)] ++ stamp now), st')
  | (Throw error, st') => (Next error, st')
  end.

(** [GET /api/apod/random]; [count_param] is [req.query.count]. The count
    is a number, which [validateCount] reads as the string [String(count)]:
    the decimal digits of the count, for a count up to [2 ^ 53]. *)
Definition get_random (cfg : config) (now : Z) (count_param : option string) (st : service)
  : outcome * service :=
  let count :=
    match count_param with
    | Some s =>
        match parseInt_string s with
        | Some n => if n =? 0 then 1 else n
        | None => 1
        end
    | None => 1
    end in
  if negb (validateCount (show count) 1 100)
  then (failure 400 "Invalid count" "Count must be between 1 and 100" [], st)
  else
    match getAPOD cfg now None (Some (PNum count)) None None st with
    | (Ret data, st') =>
        (success (json_of_payload data)
           ([("endpoint", VStr "apod/random"); ("count", VNum (Int count))] ++ stamp now), st')
    | (Throw error, st') => (Next error, st')
    end.

(** [req.query] of [GET /apod/range] *)
Record range_query := mkRangeQuery {
  range_start : option string;
  range_end : option string
}.

(** [GET /api/apod/range] *)
Definition get_range (cfg : config) (now : Z) (q : range_query) (st : service)
  : outcome * service :=
  if negb (given (range_start q)) || negb (given (range_end q))
  then (failure 400 "Missing parameters" "Both start_date and end_date are required" [], st)
  else
    let start_date := default "" (range_start q) in
    let end_date := default "" (range_end q) in
    if negb (validateDate (tza cfg) (VStr start_date))
       || negb (validateDate (tza cfg) (VStr end_date))
    then (failure 400 "Invalid date format" "Dates must be in YYYY-MM-DD format" [], st)
    else if later (time_of start_date) (time_of end_date)
    then (failure 400 "Invalid date range" "Start date must be before end date" [], st)
    else
      let daysDiff := days_between (time_of start_date) (time_of end_date) in
      if exceeds daysDiff 100
      then (failure 400 "Date range too large" "Date range cannot exceed 100 days" [], st)
      else
        match getAPOD cfg now None None (Some start_date) (Some end_date) st with
        | (Ret data, st') =>
            (success (json_of_payload data)
               ([("endpoint", VStr "apod/range"); ("start_date", VStr start_date);
                 ("end_date", VStr end_date); ("days", plus_one daysDiff)]
                ++ stamp now), st')
        | (Throw error, st') => (Next error, st')
        end.

End Apod.

(** ** routes/mars.js *)

Module Mars.
Import JS Validators NasaApi Http.

Definition VALID_ROVERS : list string :=
  ["curiosity"; "opportunity"; "spirit"; "perseverance"].

Definition VALID_CAMERAS : list (string * value) :=
  [ ("curiosity",
     VArr (map VStr ["FHAZ"; "RHAZ"; "MAST"; "CHEMCAM"; "MAHLI"; "MARDI"; "NAVCAM"]));
    ("opportunity", VArr (map VStr ["FHAZ"; "RHAZ"; "NAVCAM"; "PANCAM"; "MINITES"]));
    ("spirit", VArr (map VStr ["FHAZ"; "RHAZ"; "NAVCAM"; "PANCAM"; "MINITES"]));
    ("perseverance",
     VArr (map VStr
       ["EDL_RUCAM"; "EDL_RDCAM"; "EDL_DDCAM"; "EDL_PUCAM1"; "EDL_PUCAM2";
        "NAVCAM_LEFT"; "NAVCAM_RIGHT"; "MCZ_LEFT"; "MCZ_RIGHT";
        "FRONT_HAZCAM_LEFT_A"; "FRONT_HAZCAM_RIGHT_A"; "REAR_HAZCAM_LEFT";
        "REAR_HAZCAM_RIGHT"; "SKYCAM"; "SHERLOC_WATSON"])) ].

(** [xs.includes(s)] on an array of strings *)
Definition list_includes (xs : list string) (s : string) : bool :=
  existsb (String.eqb s) xs.

(** [VALID_CAMERAS[rover].join(', ')] *)
Definition cameras_of (rover : string) : jsres string :=
  match get_property VALID_CAMERAS rover with
  | VArr cameras =>
      Ret (join ", " (map (fun c => match c with VStr s => s | _ => "" end) cameras))
  | VUndef => Throw (TypeError "Cannot read properties of undefined (reading 'join')")
  | _ => Throw (TypeError "VALID_CAMERAS[rover.toLowerCase(...)].join is not a function")
  end.

Definition invalid_rover : outcome :=
  failure 400 "Invalid rover" ("Rover must be one of: " +:+ join ", " VALID_ROVERS) [].

(** [GET /api/mars/rovers] *)
Definition get_rovers (now : Z) : outcome :=
  Respond (JsonResponse 200
    (VObj [("success", VBool true);
           ("data", VObj [("rovers", VArr (map VStr VALID_ROVERS));
                          ("cameras", VObj VALID_CAMERAS)]);
           ("meta", VObj [("endpoint", VStr "mars/rovers");
                          ("timestamp", VStr (toISOString now))])])).

(** [GET /api/mars/:rover/manifest] *)
Definition get_manifest (cfg : config) (now : Z) (rover : string) (st : service)
  : outcome * service :=
  if negb (list_includes VALID_ROVERS (toLowerCase rover)) then (invalid_rover, st)
  else
    match getMarsRoverManifest cfg now (toLowerCase rover) st with
    | (Ret data, st') =>
        (success (json_of_payload data)
           ([("endpoint", VStr ("mars/" +:+ rover +:+ "/manifest"));
             ("rover", VStr (toLowerCase rover))] ++ stamp now), st')
    | (Throw error, st') => (Next error, st')
    end.

(** The camera check the photo routes share: [None] when the camera is
    absent or valid, else the outcome the route ends with. *)
Definition check_camera (rover : string) (camera : option string) : option outcome :=
  if given camera
  then
    match validateCamera (arg camera) (VStr (toLowerCase rover)) VALID_CAMERAS with
    | Ret true => None
    | Ret false =>
        match cameras_of (toLowerCase rover) with
        | Ret names => Some (failure 400 "Invalid camera" ("Camera must be one of: " +:+ names) [])
        | Throw error => Some (Next error)
        end
    | Throw error => Some (Next error)
    end
  else None.

(** [camera?.toUpperCase()] *)
Definition upper (camera : option string) : option string := option_map toUpperCase camera.

(** [req.query] of [GET /mars/:rover/photos] *)
Record photos_query := mkPhotosQuery {
  sol : option string;
  earth_date : option string;
  camera : option string;
  page : option string
}.

(** [GET /api/mars/:rover/photos] *)
Definition get_photos (cfg : config) (now : Z) (rover : string) (q : photos_query)
    (st : service) : outcome * service :=
  if negb (list_includes VALID_ROVERS (toLowerCase rover)) then (invalid_rover, st)
  else if negb (given (sol q)) && negb (given (earth_date q))
  then (failure 400 "Missing parameter" "Either sol or earth_date parameter is required" [], st)
  else if given (sol q) && negb (validateSol (default "" (sol q)))
  then (failure 400 "Invalid sol" "Sol must be a positive integer" [], st)
  else if given (earth_date q) && negb (validateDate (tza cfg) (arg (earth_date q)))
  then (failure 400 "Invalid earth_date format" "Earth date must be in YYYY-MM-DD format" [], st)
  else
    match check_camera rover (camera q) with
    | Some o => (o, st)
    | None =>
        let pageNum := parseInt_string (default "1" (page q)) in
        match pageNum with
        | Some n =>
            if n <? 1
            then (failure 400 "Invalid page" "Page must be a positive integer" [], st)
            else
              match getMarsRoverPhotos cfg now (toLowerCase rover) (option_map PStr (sol q))
                      (earth_date q) (upper (camera q)) n st with
              | (Ret data, st') =>
                  (success (json_of_payload data)
                     ([("endpoint", VStr ("mars/" +:+ rover +:+ "/photos"));
                       ("rover", VStr (toLowerCase rover));
                       ("sol", or_null (sol q));
                       ("earth_date", or_null (earth_date q));
                       ("camera", or_null (upper (camera q)));
                       ("page", VNum (Int n))] ++ stamp now), st')
              | (Throw error, st') => (Next error, st')
              end
        | None => (failure 400 "Invalid page" "Page must be a positive integer" [], st)
        end
    end.

(** [GET /api/mars/:rover/latest] *)
Definition get_latest (cfg : config) (now : Z) (rover : string) (camera : option string)
    (st : service) : outcome * service :=
  if negb (list_includes VALID_ROVERS (toLowerCase rover)) then (invalid_rover, st)
  else
    match check_camera rover camera with
    | Some o => (o, st)
    | None =>
        match getMarsRoverManifest cfg now (toLowerCase rover) st with
        | (Ret (Manifest _ latestSol), st1) =>
            match getMarsRoverPhotos cfg now (toLowerCase rover) (Some (PNum latestSol))
                    None (upper camera) 1 st1 with
            | (Ret data, st2) =>
                (success (json_of_payload data)
                   ([("endpoint", VStr ("mars/" +:+ rover +:+ "/latest"));
                     ("rover", VStr (toLowerCase rover));
                     ("latest_sol", VNum (Int latestSol));
                     ("camera", or_null (upper camera))] ++ stamp now), st2)
            | (Throw error, st2) => (Next error, st2)
            end
        | (Ret _, st1) =>
            (Next (TypeError "Cannot read properties of undefined (reading 'max_sol')"), st1)
        | (Throw error, st1) => (Next error, st1)
        end
    end.

End Mars.

(** ** routes/neows.js *)

Module Neows.
Import JS Validators NasaApi Http.

(** The doubles the literals [0.001], [0.01] and [0.1] denote. *)
Definition lit_0_001 : Q := 1152921504606847 # 1152921504606846976.
Definition lit_0_01 : Q := 5764607523034235 # 576460752303423488.
Definition lit_0_1 : Q := 3602879701896397 # 36028797018963968.

(** [categorizeSize(diameterKm)] *)
Definition categorizeSize (diameterKm : number) : string :=
  if num_lt diameterKm (Fin lit_0_001) then "TINY"
  else if num_lt diameterKm (Fin lit_0_01) then "SMALL"
  else if num_lt diameterKm (Fin lit_0_1) then "MEDIUM"
  else if num_lt diameterKm (Int 1) then "LARGE"
  else "MASSIVE".

(** [risk_summary.closest_approach] and [risk_summary.largest_object] *)
Record closest := mkClosest {
  object_name : string;
  distance : number;
  closest_date : string;
  velocity : number
}.

Record largest := mkLargest {
  name : string;
  diameter : number;
  is_hazardous : bool
}.

Record risk_summary := mkRiskSummary {
  total_objects : value;
  potentially_hazardous : Z;
  close_approaches : Z;
  largest_object : option largest;
  closest_approach : option closest
}.

(** [analysis.next_approach] *)
Record next_approach := mkNextApproach {
  next_date : string;
  distance_km : number;
  velocity_kmh : number
}.

(** [analysis] of [GET /neows/object/:id] *)
Record analysis := mkAnalysis {
  risk_level : string;
  size_category : string;
  next : option next_approach;
  approach_count : Z
}.

Definition json_of_largest (l : option largest) : value :=
  match l with
  | Some l => VObj [("name", VStr (name l)); ("diameter", VNum (diameter l));
                    ("is_hazardous", VBool (is_hazardous l))]
  | None => VNull
  end.

Definition json_of_closest (c : option closest) : value :=
  match c with
  | Some c => VObj [("object_name", VStr (object_name c)); ("distance", VNum (distance c));
                    ("date", VStr (closest_date c)); ("velocity", VNum (velocity c))]
  | None => VNull
  end.

Definition json_of_risk_summary (r : risk_summary) : value :=
  VObj [("total_objects", total_objects r);
        ("potentially_hazardous", VNum (Int (potentially_hazardous r)));
        ("close_approaches", VNum (Int (close_approaches r)));
        ("largest_object", json_of_largest (largest_object r));
        ("closest_approach", json_of_closest (closest_approach r))].

Definition json_of_next (n : option next_approach) : value :=
  match n with
  | Some n => VObj [("date", VStr (next_date n)); ("distance_km", VNum (distance_km n));
                    ("velocity_kmh", VNum (velocity_kmh n))]
  | None => VNull
  end.

Definition json_of_analysis (a : analysis) : value :=
  VObj [("risk_level", VStr (risk_level a)); ("size_category", VStr (size_category a));
        ("next_approach", json_of_next (next a));
        ("approach_count", VNum (Int (approach_count a)))].

(** [req.query] of [GET /neows/feed] *)
Record feed_query := mkFeedQuery {
  start_date : option string;
  end_date : option string;
  detailed : option string
}.

Section Routes.

(** What the engine provides and the model leaves open: [parseFloat] on a
    string, the time value of [new Date(s)] for a date in any format ([None]
    for an invalid one), and the rounding addition and division of doubles. *)
Variable parseFloat : string -> number.
Variable Date_parse : string -> option Z.
Variable float_add float_div : number -> number -> number.

(** The body of the [forEach] over the approaches of [obj]. *)
Definition track_approach (obj : neo) (r : risk_summary) (a : approach) : risk_summary :=
  let dist := parseFloat (miss_distance_kilometers a) in
  let closer :=
    match closest_approach r with
    | None => true
    | Some c => num_lt dist (distance c)
    end in
  mkRiskSummary (total_objects r) (potentially_hazardous r) (close_approaches r + 1)
    (largest_object r)
    (if closer
     then Some (mkClosest (neo_name obj) dist (close_approach_date a)
                  (parseFloat (relative_velocity_kilometers_per_hour a)))
     else closest_approach r).

(** The body of the [forEach] over the objects of the feed. *)
Definition track_object (r : risk_summary) (obj : neo) : risk_summary :=
  let r1 :=
    if is_potentially_hazardous_asteroid obj
    then mkRiskSummary (total_objects r) (potentially_hazardous r + 1) (close_approaches r)
           (largest_object r) (closest_approach r)
    else r in
  let r2 := fold_left (track_approach obj) (close_approach_data obj) r1 in
  let diam := estimated_diameter_max obj in
  let larger :=
    match largest_object r2 with
    | None => true
    | Some l => num_lt (diameter l) diam
    end in
  mkRiskSummary (total_objects r2) (potentially_hazardous r2) (close_approaches r2)
    (if larger
     then Some (mkLargest (neo_name obj) diam (is_potentially_hazardous_asteroid obj))
     else largest_object r2)
    (closest_approach r2).

(** [Object.values(data.near_earth_objects).flat()] *)
Definition all_objects (f : feed) : list neo :=
  concat (map snd (near_earth_objects f)).

Definition summarize (f : feed) : risk_summary :=
  fold_left track_object (all_objects f)
    (mkRiskSummary (element_count f) 0 0 None None).

(** [start_date || today] *)
Definition or_today (field : option string) (today : string) : string :=
  match field with
  | Some s => if String.eqb s "" then today else s
  | None => today
  end.

(** [detailed === 'true'] *)
Definition is_true (field : option string) : bool :=
  match field with
  | Some s => String.eqb s "true"
  | None => false
  end.

(** [GET /api/neows/feed] *)
Definition get_feed (cfg : config) (now : Z) (q : feed_query) (st : service)
  : outcome * service :=
  let today := toISODate now in
  let startDate := or_today (start_date q) today in
  let endDate := or_today (end_date q) today in
  if negb (validateDate (tza cfg) (VStr startDate))
  then (failure 400 "Invalid start_date format" "Start date must be in YYYY-MM-DD format" [], st)
  else if negb (validateDate (tza cfg) (VStr endDate))
  then (failure 400 "Invalid end_date format" "End date must be in YYYY-MM-DD format" [], st)
  else if later (time_of startDate) (time_of endDate)
  then (failure 400 "Invalid date range" "Start date must be before or equal to end date" [], st)
  else
    let daysDiff := days_between (time_of startDate) (time_of endDate) in
    if exceeds daysDiff 7
    then (failure 400 "Date range too large" "Date range cannot exceed 7 days" [], st)
    else
      match getNearEarthObjects cfg now (Some startDate) (Some endDate) (is_true (detailed q)) st with
      | (Ret (Feed data), st') =>
          let processedData :=
            VObj (set_property (feed_props data) "risk_summary"
                    (json_of_risk_summary (summarize data))) in
          (success processedData
             ([("endpoint", VStr "neows/feed"); ("start_date", VStr startDate);
               ("end_date", VStr endDate); ("days", plus_one daysDiff);
               ("detailed", VBool (is_true (detailed q)))] ++ stamp now), st')
      | (Ret _, st') =>
          (Next (TypeError "Cannot convert undefined or null to object"), st')
      | (Throw error, st') => (Next error, st')
      end.

(** [data.near_earth_objects[today] || []] *)
Fixpoint objects_on (day : string) (groups : list (string * list neo)) : list neo :=
  match groups with
  | [] => []
  | (d, objs) :: rest => if String.eqb d day then objs else objects_on day rest
  end.

(** [GET /api/neows/today] *)
Definition get_today (cfg : config) (now : Z) (st : service) : outcome * service :=
  let today := toISODate now in
  match getNearEarthObjects cfg now (Some today) (Some today) false st with
  | (Ret (Feed data), st') =>
      let todayObjects := objects_on today (near_earth_objects data) in
      let total := Z.of_nat (List.length todayObjects) in
      let stats :=
        VObj [("total_count", VNum (Int total));
              ("hazardous_count",
               VNum (Int (Z.of_nat (List.length
                 (List.filter is_potentially_hazardous_asteroid todayObjects)))));
              ("average_size",
               VNum (if total >? 0
                     then float_div
                            (fold_left (fun sum obj => float_add sum (estimated_diameter_max obj))
                               todayObjects (Int 0))
                            (Int total)
                     else Int 0))] in
      (success (VObj (set_property (feed_props data) "daily_stats" stats))
         ([("endpoint", VStr "neows/today"); ("date", VStr today)] ++ stamp now), st')
  | (Ret _, st') =>
      (Next (TypeError ("Cannot read properties of undefined (reading '" +:+ today +:+ "')")), st')
  | (Throw error, st') => (Next error, st')
  end.

(** The projection of an approach the object and hazardous routes return. *)
Definition project (a : approach) : next_approach :=
  mkNextApproach (close_approach_date a) (parseFloat (miss_distance_kilometers a))
    (parseFloat (relative_velocity_kilometers_per_hour a)).

(** [new Date(approach.close_approach_date)] *)
Definition approach_time (a : approach) : option Z := Date_parse (close_approach_date a).

(** The approaches after [now], earliest first. *)
Definition futureApproaches (now : Z) (approaches : list approach) : list approach :=
  sort (fun a b => later (approach_time a) (approach_time b))
    (List.filter (fun a => later (approach_time a) (Some now)) approaches).

(** The analysis [GET /neows/object/:id] adds to the object. *)
Definition analyse (now : Z) (data : neo) : analysis :=
  mkAnalysis
    (if is_potentially_hazardous_asteroid data then "HIGH" else "LOW")
    (categorizeSize (estimated_diameter_max data))
    (match futureApproaches now (close_approach_data data) with
     | first :: _ => Some (project first)
     | [] => None
     end)
    (Z.of_nat (List.length (close_approach_data data))).

(** [GET /api/neows/object/:id] *)
Definition get_object (cfg : config) (now : Z) (id : string) (st : service)
  : outcome * service :=
  if String.eqb id ""
  then (failure 400 "Invalid asteroid ID" "Asteroid ID is required and must be a string" [], st)
  else
    match getNearEarthObjectById cfg now id st with
    | (Ret (Neo data), st') =>
        (success
           (VObj (set_property (neo_props data) "analysis" (json_of_analysis (analyse now data))))
           ([("endpoint", VStr ("neows/object/" +:+ id)); ("asteroid_id", VStr id)]
            ++ stamp now), st')
    | (Ret _, st') =>
        (Next (TypeError "Cannot read properties of undefined (reading 'kilometers')"), st')
    | (Throw error, st') => (Next error, st')
    end.

(** [GET /api/neows/hazardous] *)
Definition get_hazardous (cfg : config) (now : Z) (st : service) : outcome * service :=
  let today := toISODate now in
  match getNearEarthObjects cfg now (Some today) (Some today) true st with
  | (Ret (Feed data), st') =>
      let hazardousObjects :=
        sort (fun a b => num_lt (estimated_diameter_max a) (estimated_diameter_max b))
          (List.filter is_potentially_hazardous_asteroid (all_objects data)) in
      let shape (obj : neo) :=
        VObj [("id", VStr (neo_id obj)); ("name", VStr (neo_name obj));
              ("diameter_km", VNum (estimated_diameter_max obj));
              ("close_approach_data",
               VArr (map (fun a => json_of_next (Some (project a))) (close_approach_data obj)))] in
      (success
         (VObj [("hazardous_objects", VArr (map shape hazardousObjects));
                ("count", VNum (Int (Z.of_nat (List.length hazardousObjects))));
                ("date", VStr today)])
         ([("endpoint", VStr "neows/hazardous"); ("date", VStr today)] ++ stamp now), st')
  | (Ret _, st') =>
      (Next (TypeError "Cannot convert undefined or null to object"), st')
  | (Throw error, st') => (Next error, st')
  end.

End Routes.

End Neows.

(** ** routes/epic.js *)

Module Epic.
Import JS Validators NasaApi Http.

Definition VALID_TYPES : list string := ["natural"; "enhanced"].

Definition invalid_type : outcome :=
  failure 400 "Invalid type" ("Type must be one of: " +:+ join ", " VALID_TYPES) [].

(** [req.query.type], [natural] when absent *)
Definition type_of (type : option string) : string := default "natural" type.

(** [s.split(' ')[0]] *)
Fixpoint first_word (s : string) : string :=
  match s with
  | EmptyString => ""
  | String c s' => if Ascii.eqb c " " then "" else String c (first_word s')
  end.

(** [s.replace(/-/g, '/')] *)
Definition slashes (s : string) : string :=
  string_map (fun c => if Ascii.eqb c "-" then "/"%char else c) s.

(** [process.env.NASA_API_KEY || 'DEMO_KEY'] *)
Definition api_key (cfg : config) : string :=
  match NASA_API_KEY cfg with
  | Some k => if String.eqb k "" then "DEMO_KEY" else k
  | None => "DEMO_KEY"
  end.

Definition archive_url (cfg : config) (type : string) (image : epic_image)
    (folder extension : string) : string :=
  "https://api.nasa.gov/EPIC/archive/" +:+ type +:+ "/"
    +:+ slashes (first_word (image_date image)) +:+ "/" +:+ folder +:+ "/"
    +:+ image_name image +:+ "." +:+ extension +:+ "?api_key=" +:+ api_key cfg.

(** [{ ...image, image_url, thumbnail_url }] *)
Definition with_urls (cfg : config) (type : string) (image : epic_image)
  : list (string * value) :=
  set_property
    (set_property (image_props image) "image_url" (VStr (archive_url cfg type image "png" "png")))
    "thumbnail_url" (VStr (archive_url cfg type image "thumbs" "jpg")).

(** The record [GET /epic/images] returns for an image. *)
Definition enhance (cfg : config) (type : string) (image : epic_image) : value :=
  VObj (set_property (with_urls cfg type image) "metadata"
    (VObj (map (fun k => (k, get_property (image_props image) k))
       ["sun_j2000_position"; "lunar_j2000_position"; "attitude_quaternions"; "coords"]))).

Definition images_meta (endpoint date type : string) (count : nat) (now : Z)
  : list (string * value) :=
  [("endpoint", VStr endpoint); ("date", VStr date); ("type", VStr type);
   ("count", VNum (Int (Z.of_nat count)))] ++ stamp now.

Definition not_an_array : error := TypeError "data.map is not a function".

(** [req.query] of [GET /epic/images] *)
Record images_query := mkImagesQuery {
  date : option string;
  type : option string
}.

(** [GET /api/epic/images] *)
Definition get_images (cfg : config) (now : Z) (q : images_query) (st : service)
  : outcome * service :=
  let type := toLowerCase (type_of (type q)) in
  if negb (Mars.list_includes VALID_TYPES type) then (invalid_type, st)
  else
    let today := toISODate now in
    let targetDate := Neows.or_today (date q) today in
    if negb (validateDate (tza cfg) (VStr targetDate))
    then (failure 400 "Invalid date format" "Date must be in YYYY-MM-DD format" [], st)
    else if later (time_of targetDate) (Some now)
    then (failure 400 "Invalid date" "Date cannot be in the future" [], st)
    else
      match getEPICImages cfg now (Some targetDate) type st with
      | (Ret (Images data), st') =>
          (success (VArr (map (enhance cfg type) data))
             (images_meta "epic/images" targetDate type (List.length data) now), st')
      | (Ret _, st') => (Next not_an_array, st')
      | (Throw error, st') => (Next error, st')
      end.

(** [GET /api/epic/latest] *)
Definition get_latest (cfg : config) (now : Z) (type_param : option string) (st : service)
  : outcome * service :=
  let type := toLowerCase (type_of type_param) in
  let no_data :=
    failure 404 "No data available" "No EPIC images available for the specified type" [] in
  if negb (Mars.list_includes VALID_TYPES type) then (invalid_type, st)
  else
    match getEPICAvailableDates cfg now type st with
    | (Ret (Dates []), st1) => (no_data, st1)
    | (Ret (Dates (latestDate :: _)), st1) =>
        match getEPICImages cfg now (Some latestDate) type st1 with
        | (Ret (Images data), st2) =>
            (success (VArr (map (fun image => VObj (with_urls cfg type image)) data))
               (images_meta "epic/latest" latestDate type (List.length data) now), st2)
        | (Ret _, st2) => (Next not_an_array, st2)
        | (Throw error, st2) => (Next error, st2)
        end
    | (Ret (Opaque json), st1) =>
        if truthy json
        then (Next (TypeError "Cannot read properties of undefined (reading 'date')"), st1)
        else (no_data, st1)
    | (Ret _, st1) =>
        (Next (TypeError "Cannot read properties of undefined (reading 'date')"), st1)
    | (Throw error, st1) => (Next error, st1)
    end.

(** Today's images of one type: [GET /api/epic/natural] and
    [GET /api/epic/enhanced]. *)
Definition get_today_of (type : string) (cfg : config) (now : Z) (st : service)
  : outcome * service :=
  let today := toISODate now in
  match getEPICImages cfg now (Some today) type st with
  | (Ret (Images data), st') =>
      (success (VArr (map (fun image => VObj (with_urls cfg type image)) data))
         (images_meta ("epic/" +:+ type) today type (List.length data) now), st')
  | (Ret _, st') => (Next not_an_array, st')
  | (Throw error, st') => (Next error, st')
  end.

Definition get_natural := get_today_of "natural".
Definition get_enhanced := get_today_of "enhanced".

Definition month_names : list string :=
  ["January"; "February"; "March"; "April"; "May"; "June"; "July"; "August";
   "September"; "October"; "November"; "December"].

Section Dates.

(** The time value of [new Date(s)] for a date in any format. *)
Variable Date_parse : string -> option Z.

(** [toLocaleDateString('en-US', { year: 'numeric', month: 'long', day: 'numeric' })] *)
Definition formatted_date (cfg : config) (time : option Z) : string :=
  match time with
  | Some t =>
      nth (Z.to_nat (getMonth (tza cfg) t)) month_names "" +:+ " "
        +:+ show (getDate (tza cfg) t) +:+ ", " +:+ show (getFullYear (tza cfg) t)
  | None => "Invalid Date"
  end.

(** [new Date(year, 0, 0)]: local midnight of the day before the year
    starts, a year below 100 counting from 1900. *)
Definition year_start (cfg : config) (year : Z) : Z :=
  let year := if (0 <=? year) && (year <=? 99) then 1900 + year else year in
  let local := MakeDay year 0 0 * msPerDay in
  local - tza cfg local.

(** [Math.ceil((date - new Date(date.getFullYear(), 0, 0)) / (1000 * 60 * 60 * 24))] *)
Definition day_of_year (cfg : config) (time : option Z) : value :=
  match time with
  | Some t =>
      VNum (Int (ceil_div (t - year_start cfg (getFullYear (tza cfg) t)) (1000 * 60 * 60 * 24)))
  | None => VNum NaN
  end.

Definition describe (cfg : config) (date : string) : value :=
  VObj [("date", VStr date);
        ("formatted_date", VStr (formatted_date cfg (Date_parse date)));
        ("day_of_year", day_of_year cfg (Date_parse date))].

(** [GET /api/epic/dates] *)
Definition get_dates (cfg : config) (now : Z) (type_param : option string) (st : service)
  : outcome * service :=
  let type := toLowerCase (type_of type_param) in
  if negb (Mars.list_includes VALID_TYPES type) then (invalid_type, st)
  else
    match getEPICAvailableDates cfg now type st with
    | (Ret (Dates data), st') =>
        (success (VArr (map (describe cfg) data))
           ([("endpoint", VStr "epic/dates"); ("type", VStr type);
             ("count", VNum (Int (Z.of_nat (List.length data))));
             ("date_range",
              VObj [("earliest", arg (List.last (map Some data) None));
                    ("latest", arg (List.hd None (map Some data)))])] ++ stamp now), st')
    | (Ret _, st') => (Next not_an_array, st')
    | (Throw error, st') => (Next error, st')
    end.

End Dates.

End Epic.

(** ** routes/health.js *)

Module Health.
Import JS NasaApi Http.

(** [process.env.NODE_ENV || 'development'] *)
Definition environment (cfg : config) : string :=
  match NODE_ENV cfg with
  | Some e => if String.eqb e "" then "development" else e
  | None => "development"
  end.

Section Routes.

(** The rounding division of doubles, which the model leaves open. *)
Variable float_div : number -> number -> number.

(** [hits / (hits + misses) || 0] *)
Definition hitRate (s : NodeCache.stats) : number :=
  let rate :=
    float_div (Int (NodeCache.hits s)) (Int (NodeCache.hits s + NodeCache.misses s)) in
  if truthy (VNum rate) then rate else Int 0.

(** [GET /api/health]; [uptime] is what [process.uptime()] returns. The
    probe [nasaApi.getAPOD()] is a request like any other: it reads the
    cache and, on a miss, asks the upstream. *)
Definition get_health (cfg : config) (now : Z) (uptime : number) (st : service)
  : response * service :=
  let '(probe, st1) := getAPOD cfg now None None None None st in
  let '(keys, stats) := getCacheStats st1 in
  (JsonResponse 200
     (VObj [("success", VBool true);
            ("data",
             VObj ([("status", VStr "operational");
                    ("timestamp", VStr (toISOString now));
                    ("uptime", VNum uptime);
                    ("environment", VStr (environment cfg));
                    ("version", VStr "1.0.0");
                    ("services",
                     VObj [("api", VStr "operational"); ("cache", VStr "operational");
                           ("nasa_api",
                            VStr match probe with
                                 | Ret _ => "operational"
                                 | Throw _ => "degraded"
                                 end)])]
                   ++ match probe with
                      | Ret _ => []
                      | Throw _ =>
                          [("warnings", VArr [VStr "NASA API connectivity issues detected"])]
                      end
                   ++ [("cache",
                        VObj [("status", VStr "operational");
                              ("keys", VNum (Int keys));
                              ("hits", VNum (Int (NodeCache.hits stats)));
                              ("misses", VNum (Int (NodeCache.misses stats)));
                              ("hitRate", VNum (hitRate stats))])]))]),
   st1).

End Routes.

(** [POST /api/health/cache/clear] *)
Definition post_cache_clear (cfg : config) (st : service) : response * service :=
  if env_is cfg "production"
  then
    (JsonResponse 403
       (VObj [("success", VBool false); ("error", VStr "Forbidden");
              ("message", VStr "Cache clearing is not allowed in production")]), st)
  else
    (JsonResponse 200
       (VObj [("success", VBool true); ("message", VStr "Cache cleared successfully")]),
     clearCache st).

End Health.

(** ** routes/proxy.js *)

Module Proxy.
Import JS NasaApi Http.

(** A cached image: [{ data, contentType }]. *)
Record image := mkImage {
  data : string;
  contentType : string
}.

(** What [axios.get(url, { responseType: 'arraybuffer', ... })] settles to:
    the [content-type] header and the bytes, or the error. *)
Inductive fetch_result :=
| Fetched (content_type : option string) (bytes : string)
| Failed (e : error).

(** The module's image cache and the URLs fetched so far. *)
Record state := mkState {
  imageCache : NodeCache.cache image;
  fetched : list string
}.

(** [new NodeCache({ stdTTL: 86400, checkperiod: 3600 })] *)
Definition start : state := mkState (NodeCache.create 86400) [].

Definition allowedDomains : list string :=
  ["apod.nasa.gov"; "mars.nasa.gov"; "api.nasa.gov"; "epic.gsfc.nasa.gov";
   "photojournal.jpl.nasa.gov"].

(** [allowedDomains.some(domain => hostname.includes(domain) || hostname.endsWith(domain))] *)
Definition isAllowedDomain (hostname : string) : bool :=
  existsb (fun domain => includes domain hostname || endsWith domain hostname) allowedDomains.

(** [Buffer.from(url).toString('base64')] *)
Definition base64_alphabet : string :=
  "ABCDEFGHIJKLMNOPQRSTUVWXYZabcdefghijklmnopqrstuvwxyz0123456789+/".

Definition base64_digit (n : N) : ascii :=
  default "A"%char (String.get (N.to_nat n) base64_alphabet).

Fixpoint base64 (s : string) : string :=
  match s with
  | EmptyString => ""
  | String a EmptyString =>
      let x := N_of_ascii a in
      String (base64_digit (x / 4)) (String (base64_digit (x mod 4 * 16)) "==")
  | String a (String b EmptyString) =>
      let x := N_of_ascii a in
      let y := N_of_ascii b in
      String (base64_digit (x / 4))
        (String (base64_digit (x mod 4 * 16 + y / 16))
           (String (base64_digit (y mod 16 * 4)) "="))
  | String a (String b (String c rest)) =>
      let x := N_of_ascii a in
      let y := N_of_ascii b in
      let z := N_of_ascii c in
      String (base64_digit (x / 4))
        (String (base64_digit (x mod 4 * 16 + y / 16))
           (String (base64_digit (y mod 16 * 4 + z / 64))
              (String (base64_digit (z mod 64)) (base64 rest))))
  end%N.

Definition image_headers (contentType : string) (bytes : string) (mark : string)
  : list (string * string) :=
  [("Content-Type", contentType);
   ("Content-Length", show (Z.of_nat (String.length bytes)));
   ("Cache-Control", "public, max-age=86400");
   ("X-Cache", mark)].

(** The [catch] block of [GET /proxy/image]. *)
Definition image_error (error : error) : outcome :=
  if has_code error "ECONNABORTED" || includes "timeout" (err_message error)
  then failure 408 "Request timeout" "Image request timed out" []
  else
    match option_map resp_status (err_response error) with
    | Some status =>
        if status =? 404
        then failure 404 "Image not found" "The requested image could not be found" []
        else Next error
    | None => Next error
    end.

(** What [new URL(url)] throws on a string that is no URL. *)
Definition invalid_url : error :=
  mkError "TypeError" "Invalid URL" (Some "ERR_INVALID_URL") None None "".

Section Routes.

(** [new URL(url).hostname], [None] when the constructor throws; and the
    outcome of the fetch made after [n] earlier ones. *)
Variable URL_hostname : string -> option string.
Variable fetch : nat -> string -> fetch_result.

(** [GET /api/proxy/image] *)
Definition get_image (now : Z) (url_param : option string) (st : state) : outcome * state :=
  if negb (given url_param)
  then (failure 400 "Missing URL parameter" "Image URL is required" [], st)
  else
    let url := default "" url_param in
    match URL_hostname url with
    | None => (image_error invalid_url, st)
    | Some hostname =>
        if negb (isAllowedDomain hostname)
        then (failure 403 "Forbidden domain" "Only NASA domains are allowed" [], st)
        else
          let cacheKey := "image_" +:+ base64 url in
          let '(cachedImage, cache1) := NodeCache.get now cacheKey (imageCache st) in
          match cachedImage with
          | Some img =>
              (Respond (SendResponse (image_headers (contentType img) (data img) "HIT") (data img)),
               mkState cache1 (fetched st))
          | None =>
              match fetch (List.length (fetched st)) url with
              | Fetched content_type imageData =>
                  let contentType :=
                    match content_type with
                    | Some ct => if String.eqb ct "" then "image/jpeg" else ct
                    | None => "image/jpeg"
                    end in
                  (Respond (SendResponse (image_headers contentType imageData "MISS") imageData),
                   mkState (NodeCache.set now cacheKey (mkImage imageData contentType) None cache1)
                     (fetched st ++ [url]))
              | Failed error => (image_error error, mkState cache1 (fetched st ++ [url]))
              end
          end
    end.

End Routes.

(** The [reduce] of [GET /proxy/cache/stats]: each key is read with
    [imageCache.get], which counts. *)
Definition measure (now : Z) (acc : Z * NodeCache.cache image) (key : string)
  : Z * NodeCache.cache image :=
  let '(item, c) := NodeCache.get now key (snd acc) in
  (fst acc + match item with
             | Some img => Z.of_nat (String.length (data img))
             | None => 0
             end, c).

Definition json_of_stats (s : NodeCache.stats) : value :=
  VObj [("hits", VNum (Int (NodeCache.hits s))); ("misses", VNum (Int (NodeCache.misses s)));
        ("keys", VNum (Int (NodeCache.keys s)))].

(** [Math.round(total / (1024 * 1024) * 100) / 100] *)
Definition megabytes (total : Z) : number :=
  Fin (((total * 200 + 1048576) / 2097152) # 100).

(** [GET /api/proxy/cache/stats]. [getStats()] hands out the statistics
    object of the cache itself, so what is serialized are the counters as
    the reads of the [reduce] left them. *)
Definition get_cache_stats (now : Z) (st : state) : response * state :=
  let keys := NodeCache.key_list (imageCache st) in
  let '(total, cache1) := fold_left (measure now) keys (0, imageCache st) in
  (JsonResponse 200
     (VObj [("success", VBool true);
            ("data", VObj [("stats", json_of_stats (NodeCache.getStats cache1));
                           ("cached_images", VNum (Int (Z.of_nat (List.length keys))));
                           ("cache_size_mb", VNum (megabytes total))])]),
   mkState cache1 (fetched st)).

(** [POST /api/proxy/cache/clear] *)
Definition post_cache_clear (cfg : config) (st : state) : response * state :=
  if env_is cfg "production"
  then
    (JsonResponse 403
       (VObj [("success", VBool false); ("error", VStr "Forbidden");
              ("message", VStr "Cache clearing is not allowed in production")]), st)
  else
    (JsonResponse 200
       (VObj [("success", VBool true); ("message", VStr "Image cache cleared successfully")]),
     mkState (NodeCache.flushAll (imageCache st)) (fetched st)).

(** A reading of [new URL(url).hostname] for the URLs of the examples,
    which have the shape [scheme://host/path] with a host of letters, digits,
    dots and hyphens, maybe a port, a query or a fragment: the host in lower
    case. A string without [://] after its scheme counts as no URL. *)
Fixpoint until_any (stops : list ascii) (s : string) : string :=
  match s with
  | EmptyString => ""
  | String c s' =>
      if existsb (Ascii.eqb c) stops then "" else String c (until_any stops s')
  end.

Fixpoint after_scheme (s : string) : option string :=
  match s with
  | String ":" (String "/" (String "/" rest)) => Some rest
  | String c s' =>
      if is_lower c || is_upper c || is_digit c then after_scheme s' else None
  | EmptyString => None
  end.

Definition simple_hostname (url : string) : option string :=
  match after_scheme url with
  | Some rest =>
      let host := until_any [":"; "/"; "?"; "#"]%char rest in
      if String.eqb host "" then None else Some (toLowerCase host)
  | None => None
  end.

End Proxy.

(** ** server.js: the gateway routes behind the error middleware *)

Module App.
Import JS NasaApi Http.

(** A request to the gateway, by the route it matches. *)
Inductive request :=
| GetApod (q : Apod.query)
| GetApodToday
| GetApodRandom (count : option string)
| GetApodRange (q : Apod.range_query)
| GetMarsRovers
| GetMarsManifest (rover : string)
| GetMarsPhotos (rover : string) (q : Mars.photos_query)
| GetMarsLatest (rover : string) (camera : option string)
| GetNeowsFeed (q : Neows.feed_query)
| GetNeowsToday
| GetNeowsObject (id : string)
| GetNeowsHazardous
| GetEpicImages (q : Epic.images_query)
| GetEpicLatest (type : option string)
| GetEpicDates (type : option string)
| GetEpicNatural
| GetEpicEnhanced
| NoRoute (originalUrl : string).

Section Gateway.

Variable parseFloat : string -> number.
Variable Date_parse : string -> option Z.
Variable float_add float_div : number -> number -> number.

(** The handler of the route. *)
Definition handle (cfg : config) (now : Z) (req : request) (st : service)
  : outcome * service :=
  match req with
  | GetApod q => Apod.get_root cfg now q st
  | GetApodToday => Apod.get_today cfg now st
  | GetApodRandom count => Apod.get_random cfg now count st
  | GetApodRange q => Apod.get_range cfg now q st
  | GetMarsRovers => (Mars.get_rovers now, st)
  | GetMarsManifest rover => Mars.get_manifest cfg now rover st
  | GetMarsPhotos rover q => Mars.get_photos cfg now rover q st
  | GetMarsLatest rover camera => Mars.get_latest cfg now rover camera st
  | GetNeowsFeed q => Neows.get_feed parseFloat cfg now q st
  | GetNeowsToday => Neows.get_today float_add float_div cfg now st
  | GetNeowsObject id => Neows.get_object parseFloat Date_parse cfg now id st
  | GetNeowsHazardous => Neows.get_hazardous parseFloat cfg now st
  | GetEpicImages q => Epic.get_images cfg now q st
  | GetEpicLatest type => Epic.get_latest cfg now type st
  | GetEpicDates type => Epic.get_dates Date_parse cfg now type st
  | GetEpicNatural => Epic.get_natural cfg now st
  | GetEpicEnhanced => Epic.get_enhanced cfg now st
  | NoRoute originalUrl => (Respond (notFound originalUrl), st)
  end.

(** The response the application sends. *)
Definition gateway (cfg : config) (now : Z) (req : request) (st : service)
  : jsres response * service :=
  (serve cfg (fst (handle cfg now req st)), snd (handle cfg now req st)).

(** What the rate limiter mounted on [/api/] answers once an address has
    used up its requests: the [message] object of its options, status 429. *)
Definition rate_limited (cfg : config) : response :=
  let windowMs :=
    match RATE_LIMIT_WINDOW_MS cfg with
    | Some s =>
        match parseInt_string s with
        | Some n => if n =? 0 then 900000 else n
        | None => 900000
        end
    | None => 900000
    end in
  JsonResponse 429
    (VObj [("error", VStr "Too many requests from this IP, please try again later.");
           ("retryAfter", VNum (Int (Validators.ceil_div windowMs 1000)))]).

(** The application behind the rate limiter; [limited] tells whether the
    limiter stops the request. *)
Definition api (limited : bool) (cfg : config) (now : Z) (req : request) (st : service)
  : jsres response * service :=
  if limited then (Ret (rate_limited cfg), st) else gateway cfg now req st.

End Gateway.

End App.

(** ** Concrete servers and requests the statements below are run on *)

Module Scenario.
Import JS Validators NasaApi Http.

(** Noon of 2024-01-01, UTC. *)
Definition noon : Z := 1704110400000.

Definition picture : payload :=
  Opaque (VObj [("title", VStr "The Horsehead Nebula"); ("media_type", VStr "image")]).

Definition apophis : neo :=
  mkNeo [("id", VStr "2099942"); ("name", VStr "99942 Apophis (2004 MN4)")]
    "2099942" "99942 Apophis (2004 MN4)" true (Fin (34 # 100))
    [ mkApproach "2021-03-06" "16852369.3" "16607.9";
      mkApproach "2029-04-13" "38011.7" "26692.2";
      mkApproach "2036-03-27" "46400000.1" "20000.5" ].

(** An upstream that answers every request, the object route with [apophis]. *)
Definition answering (n : nat) (endpoint : string) (params : list (string * param))
  : upstream_result :=
  if startsWith "/neo/rest/v1/neo/" endpoint then Resolved (Neo apophis)
  else if startsWith "/neo/rest/v1/feed" endpoint
  then Resolved (Feed (mkFeed [("element_count", VNum (Int 1))] (VNum (Int 1))
                         [("2024-01-01", [apophis])]))
  else Resolved picture.

(** A development server in UTC. *)
Definition server : config := mkConfig answering None None None None utc.

Definition fresh : service := start server.

(** The engine functions the routes leave open, read for the examples:
    date-only strings, and numbers that stay unparsed. *)
Definition no_float (s : string) : number := NaN.
Definition no_arith (a b : number) : number := NaN.

(** A rule whose validator rejects everything, for a parameter that is
    not required. *)
Definition rejecting : rule := mkRule false (Some (fun _ => Ret (VBool false))) None.

(** An image host that always answers. *)
Definition jpeg (n : nat) (url : string) : Proxy.fetch_result :=
  Proxy.Fetched (Some "image/jpeg") "JFIF".

Definition picture_url : string := "https://apod.nasa.gov/image/2401/horsehead.jpg".

(** The proxy after the same picture was asked for twice, a second apart:
    a miss, then a hit. *)
Definition proxy_used : Proxy.state :=
  snd (Proxy.get_image Proxy.simple_hostname jpeg (noon + 1000) (Some picture_url)
         (snd (Proxy.get_image Proxy.simple_hostname jpeg noon (Some picture_url) Proxy.start))).

(** And after [POST /proxy/cache/clear] on top of that. *)
Definition proxy_cleared : Proxy.state := snd (Proxy.post_cache_clear server proxy_used).

(** A host that merely contains an allowed domain. *)
Definition lookalike_url : string := "https://apod.nasa.gov.evil.example.com/x.jpg".

(** [GET /apod?date=2024-01-01] *)
Definition apod_query : Apod.query := Apod.mkQuery (Some "2024-01-01") None None None.

(** An upstream that knows one rover: the manifest of Curiosity says
    [max_sol: 4000], and every other request is answered with no photos. *)
Definition rover_upstream (n : nat) (endpoint : string) (params : list (string * param))
  : upstream_result :=
  if String.eqb endpoint "/mars-photos/api/v1/rovers/curiosity"
  then Resolved (Manifest [("photo_manifest",
                            VObj [("name", VStr "Curiosity"); ("max_sol", VNum (Int 4000))])]
                   4000)
  else Resolved (Opaque (VObj [("photos", VArr [])])).

Definition mission_control : config := mkConfig rover_upstream None None None None utc.

(** A feed of two objects: one of 0.5 km that is not hazardous, one of
    2 km that is. *)
Definition two_rocks : feed :=
  mkFeed [("element_count", VNum (Int 2))] (VNum (Int 2))
    [("2024-01-01",
      [ mkNeo [("name", VStr "(2024 AA)")] "1" "(2024 AA)" false (Fin (1 # 2)) [];
        mkNeo [("name", VStr "(2024 AB)")] "2" "(2024 AB)" true (Int 2) [] ])].

(** An upstream of EPIC data: two dates, the latest first, and no images. *)
Definition epic_upstream (n : nat) (endpoint : string) (params : list (string * param))
  : upstream_result :=
  if endsWith "/all" endpoint then Resolved (Dates ["2023-12-31"; "2023-12-30"])
  else Resolved (Images []).

Definition earth_watch : config := mkConfig epic_upstream None None None None utc.

End Scenario.

(** * Properties *)

Import JS Calendar Validators NasaApi Http.

(** ** Strings *)

Lemma append_empty (s : string) : "" +:+ s = s.
Proof. reflexivity. Qed.

Lemma append_String (c : ascii) (s rest : string) :
  String c s +:+ rest = String c (s +:+ rest).
Proof. reflexivity. Qed.

Lemma append_empty_r (s : string) : s +:+ "" = s.
Proof. induction s as [|c s IH]; [reflexivity | now rewrite append_String, IH]. Qed.

Lemma startsWith_spec (p s : string) :
  startsWith p s = true <-> exists rest, s = p +:+ rest.
Proof.
  unfold startsWith. revert s. induction p as [|c p IH]; intros s.
  - split; [intros _; exists s; reflexivity | intros _; destruct s; reflexivity].
  - destruct s as [|c' s]; simpl.
    + split; [discriminate | intros [rest H]; discriminate].
    + destruct (Ascii.ascii_dec c c') as [->|Hne].
      * rewrite IH. split; intros [rest H]; exists rest;
          rewrite append_String in *; congruence.
      * split; [discriminate | intros [rest H]; rewrite append_String in H; congruence].
Qed.

Lemma includes_String (sub : string) (c : ascii) (s : string) :
  includes sub (String c s) = startsWith sub (String c s) || includes sub s.
Proof. reflexivity. Qed.

Lemma includes_spec (sub s : string) :
  includes sub s = true <-> exists before rest, s = before +:+ sub +:+ rest.
Proof.
  induction s as [|c s IH].
  - change (includes sub "") with (startsWith sub "" || false).
    rewrite orb_false_r, startsWith_spec. split.
    + intros [rest H]. exists "", rest. exact H.
    + intros [before [rest H]]. destruct before; [|discriminate].
      exists rest. exact H.
  - rewrite includes_String, orb_true_iff, startsWith_spec, IH. split.
    + intros [[rest H]|[before [rest H]]].
      * exists "", rest. exact H.
      * exists (String c before), rest. rewrite append_String. congruence.
    + intros [before [rest H]]. destruct before as [|c' before].
      * left. exists rest. exact H.
      * right. exists before, rest. rewrite append_String in H. congruence.
Qed.

Lemma endsWith_String (suf : string) (c : ascii) (s : string) :
  endsWith suf (String c s) = String.eqb (String c s) suf || endsWith suf s.
Proof. reflexivity. Qed.

Lemma endsWith_spec (suf s : string) :
  endsWith suf s = true <-> exists before, s = before +:+ suf.
Proof.
  induction s as [|c s IH].
  - change (endsWith suf "") with (String.eqb "" suf || false).
    rewrite orb_false_r, String.eqb_eq. split.
    + intros <-. exists "". reflexivity.
    + intros [before H]. destruct before; [exact H | discriminate].
  - rewrite endsWith_String, orb_true_iff, String.eqb_eq, IH. split.
    + intros [<-|[before H]].
      * exists "". reflexivity.
      * exists (String c before). rewrite append_String. congruence.
    + intros [before H]. destruct before as [|c' before].
      * left. exact H.
      * right. exists before. rewrite append_String in H. congruence.
Qed.

(** A suffix is a substring: the [endsWith] test of the proxy adds nothing
    to its [includes] test. *)
Lemma endsWith_includes (suf s : string) :
  endsWith suf s = true -> includes suf s = true.
Proof.
  rewrite endsWith_spec, includes_spec. intros [before H].
  exists before, "". now rewrite append_empty_r.
Qed.

(** ** Dates *)

Example epoch_is_day_zero : days_from_civil 1970 1 1 = 0.
Proof. reflexivity. Qed.

Example civil_date_of_new_year_2024 : civil_from_days 19723 = (2024, 1, 1).
Proof. reflexivity. Qed.

Example leap_day_rolls_over :
  Date_parse_date_only "2023-02-29" = Date_parse_date_only "2023-03-01".
Proof. reflexivity. Qed.

(** The time value of a date-only string is a midnight. *)
Lemma time_of_midnight (s : string) (t : Z) :
  time_of s = Some t -> t = Day t * msPerDay.
Proof.
  unfold time_of, Date_parse_date_only.
  destruct (date_fields s) as [[[y m] d]|]; [|discriminate].
  destruct (_ && _); [|discriminate].
  intros [= <-]. unfold Day. now rewrite Z.div_mul.
Qed.

(** With the server's clock between UTC and UTC+24h a midnight UTC is read
    back on the day it names. *)
Lemma local_day_of_midnight (tza : Z -> Z) (day : Z) :
  0 <= tza (day * msPerDay) < msPerDay ->
  Day (LocalTime tza (day * msPerDay)) = day.
Proof.
  intros H. unfold Day, LocalTime.
  rewrite Z.add_comm, Z.div_add by discriminate.
  rewrite Z.div_small by exact H. reflexivity.
Qed.

(** ** The validators *)

Example validateDate_examples :
  validateDate utc (VStr "2024-02-30") = false
  /\ validateDate utc (VStr "2024-02-29") = true
  /\ validateDate utc (VStr "2023-02-29") = false.
Proof. repeat split. Qed.

(** West of Greenwich the local getters read a midnight UTC on the day
    before, and no date validates. *)
Example validateDate_west_of_greenwich :
  validateDate (fun _ => -18000000) (VStr "2024-02-29") = false.
Proof. reflexivity. Qed.

Example validateCount_examples :
  validateCount "0" 1 100 = false
  /\ validateCount "100" 1 100 = true
  /\ validateCount "101" 1 100 = false.
Proof. repeat split. Qed.

(** [validateDate] rejects everything that is not a string. *)
Lemma validateDate_string (tza : Z -> Z) (v : value) :
  validateDate tza v = true -> exists s, v = VStr s /\ dateRegex_test s = true.
Proof.
  unfold validateDate. destruct v; simpl; try discriminate.
  - destruct b; discriminate.
  - destruct n; try discriminate. destruct (Qeq_bool q 0); discriminate.
  - destruct (negb (s =? "")%string); simpl; [|discriminate].
    destruct (dateRegex_test s) eqn:E; simpl; [|discriminate].
    intros _. eauto.
  - destruct (name =? "__proto__")%string; discriminate.
Qed.

(** A valid date has a time value. *)
Lemma validateDate_time (tza : Z -> Z) (s : string) :
  validateDate tza (VStr s) = true -> exists t, time_of s = Some t.
Proof.
  unfold validateDate, time_of. simpl.
  destruct (negb (s =? "")%string); simpl; [|discriminate].
  destruct (negb (dateRegex_test s)); [discriminate|].
  destruct (date_fields s) as [[[y m] d]|]; [|discriminate].
  destruct (Date_parse_date_only s); [eauto | discriminate].
Qed.

(** ** The calendar *)

Lemma InLeapYear_spec (y : Z) :
  InLeapYear y = true <-> y mod 4 = 0 /\ (y mod 100 <> 0 \/ y mod 400 = 0).
Proof.
  unfold InLeapYear.
  rewrite andb_true_iff, orb_true_iff, negb_true_iff, !Z.eqb_eq, Z.eqb_neq.
  reflexivity.
Qed.

Lemma valid_date_spec (y m d : Z) :
  valid_date y m d = true <-> 1 <= m <= 12 /\ 1 <= d <= DaysInMonth y m.
Proof.
  unfold valid_date. rewrite !andb_true_iff, !Z.leb_le. lia.
Qed.

Lemma DaysInMonth_spec (y m : Z) :
  DaysInMonth y m
  = if m =? 2 then (if InLeapYear y then 29 else 28)
    else if (m =? 4) || (m =? 6) || (m =? 9) || (m =? 11) then 30 else 31.
Proof. reflexivity. Qed.

(** The year of a day of the 400-year era that starts on a first of March,
    and the day of that year. *)
Lemma year_of_era_day (doe : Z) :
  0 <= doe < 146097 ->
  let yoe := (doe - doe / 1460 + doe / 36524 - doe / 146096) / 365 in
  let doy := doe - (365 * yoe + yoe / 4 - yoe / 100) in
  0 <= yoe <= 399
  /\ 0 <= doy <= 365
  /\ (doy = 365 -> (yoe + 1) mod 4 = 0 /\ ((yoe + 1) mod 100 <> 0 \/ yoe = 399)).
Proof. intros H. cbv zeta. Z.to_euclidean_division_equations. lia. Qed.

(** The month, counted from March, of a day of the year, and the day of
    that month. *)
Lemma month_of_year_day (doy : Z) :
  0 <= doy <= 365 ->
  let mp := (5 * doy + 2) / 153 in
  let d := doy - (153 * mp + 2) / 5 + 1 in
  0 <= mp <= 11
  /\ 1 <= d <= 31
  /\ (mp = 11 -> d <= 29)
  /\ (mp = 11 -> d = 29 -> doy = 365)
  /\ (mp = 1 \/ mp = 3 \/ mp = 6 \/ mp = 8 -> d <= 30).
Proof. intros H. cbv zeta. Z.to_euclidean_division_equations. lia. Qed.

(** Every day number is the day number of a date. *)
Lemma civil_from_days_valid (z : Z) :
  let '(y, m, d) := civil_from_days z in valid_date y m d = true.
Proof.
  unfold civil_from_days. cbv zeta.
  set (era := (z + 719468) / 146097).
  set (doe := z + 719468 - era * 146097).
  assert (Hdoe : 0 <= doe < 146097)
    by (subst doe era; Z.to_euclidean_division_equations; lia).
  pose proof (year_of_era_day doe Hdoe) as Y. cbv zeta in Y.
  set (yoe := (doe - doe / 1460 + doe / 36524 - doe / 146096) / 365) in *.
  set (doy := doe - (365 * yoe + yoe / 4 - yoe / 100)) in *.
  destruct Y as (Hyoe & Hdoy & Hleap).
  pose proof (month_of_year_day doy Hdoy) as M. cbv zeta in M.
  set (mp := (5 * doy + 2) / 153) in *.
  set (d := doy - (153 * mp + 2) / 5 + 1) in *.
  destruct M as (Hmp & Hd & Hfeb & Hfeb29 & H30).
  clearbody d mp doy doe.
  apply valid_date_spec. rewrite DaysInMonth_spec.
  destruct (Z.ltb_spec mp 10) as [Lt|Ge].
  - destruct (Z.leb_spec (mp + 3) 2); [lia|].
    destruct (Z.eqb_spec (mp + 3) 2); [lia|].
    destruct (Z.eqb_spec (mp + 3) 4), (Z.eqb_spec (mp + 3) 6), (Z.eqb_spec (mp + 3) 9),
      (Z.eqb_spec (mp + 3) 11); cbn [orb]; lia.
  - destruct (Z.leb_spec (mp - 9) 2); [|lia].
    destruct (Z.eqb_spec (mp - 9) 2) as [E|N].
    + destruct (InLeapYear _) eqn:L; [lia|].
      assert (d <> 29); [|lia]. intros ->.
      apply not_true_iff_false in L. apply L, InLeapYear_spec.
      destruct Hleap as [H4 H100]; [lia|].
      clear - H4 H100 Hyoe. Z.to_euclidean_division_equations. lia.
    + destruct (Z.eqb_spec (mp - 9) 4), (Z.eqb_spec (mp - 9) 6), (Z.eqb_spec (mp - 9) 9),
        (Z.eqb_spec (mp - 9) 11); cbn [orb]; lia.
Qed.

(** The day of the era of a date is a day of its year. *)
Lemma era_day_of_year (yoe doy : Z) :
  0 <= yoe <= 399 ->
  0 <= doy <= 365 ->
  (doy = 365 -> (yoe + 1) mod 4 = 0 /\ ((yoe + 1) mod 100 <> 0 \/ yoe = 399)) ->
  let doe := yoe * 365 + yoe / 4 - yoe / 100 + doy in
  0 <= doe < 146097
  /\ (doe - doe / 1460 + doe / 36524 - doe / 146096) / 365 = yoe.
Proof. intros Hyoe Hdoy Hleap. cbv zeta. Z.to_euclidean_division_equations. lia. Qed.

(** The day of the year of a day of a month, months counted from March. *)
Lemma year_day_of_month (mp d : Z) :
  0 <= mp <= 11 ->
  1 <= d <= 31 ->
  (mp = 11 -> d <= 29) ->
  (mp = 1 \/ mp = 3 \/ mp = 6 \/ mp = 8 -> d <= 30) ->
  let doy := (153 * mp + 2) / 5 + d - 1 in
  0 <= doy <= 365
  /\ (doy = 365 -> mp = 11 /\ d = 29)
  /\ (5 * doy + 2) / 153 = mp.
Proof. intros Hmp Hd Hfeb H30. cbv zeta. Z.to_euclidean_division_equations. lia. Qed.

(** Every date is read back from its day number. *)
Lemma civil_from_days_from_civil (y m d : Z) :
  valid_date y m d = true -> civil_from_days (days_from_civil y m d) = (y, m, d).
Proof.
  intros V. apply valid_date_spec in V as [Hm Hd]. rewrite DaysInMonth_spec in Hd.
  unfold days_from_civil. cbv zeta.
  set (y' := if m <=? 2 then y - 1 else y).
  set (era := y' / 400).
  set (yoe := y' - era * 400).
  set (mp := (m + 9) mod 12).
  set (doy := (153 * mp + 2) / 5 + d - 1).
  assert (Hyoe : 0 <= yoe <= 399)
    by (subst yoe era; Z.to_euclidean_division_equations; lia).
  assert (Hmp : 0 <= mp <= 11 /\ m = if mp <? 10 then mp + 3 else mp - 9).
  { subst mp. destruct (Z.ltb_spec ((m + 9) mod 12) 10);
      Z.to_euclidean_division_equations; lia. }
  destruct Hmp as [Hmp Em].
  assert (Hd' : 1 <= d <= 31 /\ (mp = 11 -> d <= 29)
                /\ (mp = 1 \/ mp = 3 \/ mp = 6 \/ mp = 8 -> d <= 30)
                /\ (mp = 11 -> d = 29 -> InLeapYear y = true)).
  { destruct (Z.ltb_spec mp 10), (Z.eqb_spec m 2);
      [lia | | destruct (InLeapYear y); lia | ];
      destruct (Z.eqb_spec m 4), (Z.eqb_spec m 6), (Z.eqb_spec m 9), (Z.eqb_spec m 11);
      cbn [orb] in Hd; lia. }
  destruct Hd' as (Hd31 & Hfeb & H30 & Hleap).
  destruct (year_day_of_month mp d Hmp Hd31 Hfeb H30) as (Hdoy & H365 & Emp).
  fold doy in Hdoy, H365, Emp.
  assert (Hleap' : doy = 365 ->
                   (yoe + 1) mod 4 = 0 /\ ((yoe + 1) mod 100 <> 0 \/ yoe = 399)).
  { intros E. destruct (H365 E) as [E11 E29].
    apply InLeapYear_spec in Hleap; [|assumption..].
    assert (m = 2) by (destruct (Z.ltb_spec mp 10); lia).
    assert (y' = y - 1) by (subst y'; destruct (Z.leb_spec m 2); lia).
    clear - Hleap Hyoe H0. subst yoe era. Z.to_euclidean_division_equations. lia. }
  destruct (era_day_of_year yoe doy Hyoe Hdoy Hleap') as [Hdoe Eyoe].
  set (doe := yoe * 365 + yoe / 4 - yoe / 100 + doy) in *.
  unfold civil_from_days. cbv zeta.
  replace (era * 146097 + doe - 719468 + 719468) with (doe + era * 146097) by ring.
  rewrite Z.div_add, (Z.div_small doe 146097) by lia.
  replace (doe + era * 146097 - (0 + era) * 146097) with doe by ring.
  rewrite Eyoe.
  replace (doe - (365 * yoe + yoe / 4 - yoe / 100)) with doy by (subst doe; ring).
  rewrite Emp, <- Em.
  replace (doy - (153 * mp + 2) / 5 + 1) with d by (subst doy; ring).
  f_equal. f_equal.
  subst y' yoe. destruct (Z.leb_spec m 2); lia.
Qed.

Lemma days_from_civil_day (y m d : Z) :
  days_from_civil y m d = days_from_civil y m 1 + d - 1.
Proof. unfold days_from_civil. cbv zeta. ring. Qed.

Lemma DaysInMonth_bounds (y m : Z) : 28 <= DaysInMonth y m <= 31.
Proof.
  unfold DaysInMonth.
  destruct (m =? 2); [destruct (InLeapYear y)|destruct (_ || _)]; lia.
Qed.

Lemma MakeDay_month (y m d : Z) :
  1 <= m <= 12 -> MakeDay y (m - 1) d = days_from_civil y m d.
Proof.
  intros Hm. unfold MakeDay.
  rewrite Z.div_small, Z.mod_small by lia.
  rewrite (days_from_civil_day y m d). f_equal. f_equal. f_equal; ring.
Qed.

(** The local day of a midnight, east of Greenwich. *)
Lemma Day_LocalTime_midnight (tza : Z -> Z) (n : Z) :
  (forall t, 0 <= tza t < msPerDay) -> Day (LocalTime tza (n * msPerDay)) = n.
Proof.
  intros H. unfold Day, LocalTime.
  specialize (H (n * msPerDay)). unfold msPerDay in *.
  symmetry. apply Z.div_unique with (r := tza (n * 86400000)); lia.
Qed.

(** X1. On a server whose clock is not behind UTC, [validateDate] accepts
    exactly the strings dddd-dd-dd that name a date of the calendar. *)
Theorem validateDate_accepts_calendar_dates (tza : Z -> Z) (s : string) :
  (forall t, 0 <= tza t < msPerDay) ->
  validateDate tza (VStr s)
  = match date_fields s with
    | Some (y, m, d) => valid_date y m d
    | None => false
    end.
Proof.
  intros H. unfold validateDate, dateRegex_test, Date_parse_date_only.
  destruct s as [|c s]; [reflexivity|].
  cbn [truthy typeof String.eqb negb orb].
  change (("string" =? "string")%string) with true. cbn [negb orb].
  destruct (date_fields (String c s)) as [[[y m] d]|]; [|reflexivity].
  cbn [negb].
  destruct ((1 <=? m) && (m <=? 12) && (1 <=? d) && (d <=? 31)) eqn:R.
  - apply andb_true_iff in R as [R R4]. apply andb_true_iff in R as [R R3].
    apply andb_true_iff in R as [R1 R2].
    apply Z.leb_le in R1, R2, R3, R4.
    unfold getFullYear, getMonth, getDate.
    rewrite (Day_LocalTime_midnight tza _ H), MakeDay_month by lia.
    destruct (valid_date y m d) eqn:V.
    + rewrite (civil_from_days_from_civil y m d V). cbn [fst snd].
      now rewrite !Z.eqb_refl.
    + pose proof (civil_from_days_valid (days_from_civil y m d)) as V'.
      destruct (civil_from_days (days_from_civil y m d)) as [[y' m'] d'].
      cbn [fst snd].
      destruct (Z.eqb_spec y' y) as [->|]; [|reflexivity].
      destruct (Z.eqb_spec (m' - 1) (m - 1)) as [E|]; [|reflexivity].
      destruct (Z.eqb_spec d' d) as [->|]; [|reflexivity].
      replace m' with m in V' by lia. congruence.
  - symmetry. apply not_true_is_false. intros V.
    unfold valid_date in V.
    apply andb_true_iff in V as [V V4]. apply andb_true_iff in V as [V V3].
    apply andb_true_iff in V as [V1 V2].
    apply Z.leb_le in V1, V2, V3, V4.
    pose proof (DaysInMonth_bounds y m).
    rewrite (proj2 (Z.leb_le 1 m)), (proj2 (Z.leb_le m 12)),
      (proj2 (Z.leb_le 1 d)), (proj2 (Z.leb_le d 31)) in R by lia.
    discriminate.
Qed.

Lemma validateDate_accepts_calendar_dates_witness :
  (forall t, 0 <= utc t < msPerDay)
  /\ validateDate utc (VStr "2023-02-29") = false.
Proof.
  split; [intros t; unfold utc, msPerDay; lia|].
  rewrite (validateDate_accepts_calendar_dates utc "2023-02-29");
    [reflexivity | intros t; unfold utc, msPerDay; lia].
Defined.

(** ** Date ranges *)

Example validateDateRange_start_after_end :
  validateDateRange utc (VStr "2024-01-05") (VStr "2024-01-01") 7
  = RangeInvalid "Start date must be before or equal to end date".
Proof. reflexivity. Qed.

Example validateDateRange_seven_days :
  validateDateRange utc (VStr "2024-01-01") (VStr "2024-01-07") 7 = RangeValid (Int 7).
Proof. reflexivity. Qed.

(** X2. What [validateDateRange] compares with [maxDays] is the difference of
    the two dates, one less than the number of days it then reports. *)
Lemma validateDateRange_on_valid_dates (tza : Z -> Z) (s e : string) (ts te maxDays : Z) :
  validateDate tza (VStr s) = true ->
  validateDate tza (VStr e) = true ->
  time_of s = Some ts ->
  time_of e = Some te ->
  ts <= te ->
  validateDateRange tza (VStr s) (VStr e) maxDays
  = if Day te - Day ts >? maxDays
    then RangeInvalid ("Date range cannot exceed " +:+ show maxDays +:+ " days")
    else RangeValid (Int (Day te - Day ts + 1)).
Proof.
  intros Hs He Hts Hte Hle. unfold validateDateRange.
  rewrite Hs, He. simpl negb. cbv iota.
  unfold time_of in Hts, Hte. rewrite Hts, Hte.
  pose proof (time_of_midnight s ts Hts) as Ms.
  pose proof (time_of_midnight e te Hte) as Me.
  destruct (ts >? te) eqn:G; [apply Z.gtb_lt in G; lia|].
  assert (D : ceil_div (te - ts) (1000 * 60 * 60 * 24) = Day te - Day ts).
  { unfold ceil_div. change (1000 * 60 * 60 * 24) with msPerDay.
    rewrite Ms, Me at 1.
    replace (- (Day te * msPerDay - Day ts * msPerDay))
      with ((Day ts - Day te) * msPerDay) by ring.
    rewrite Z.div_mul by discriminate. ring. }
  rewrite D. reflexivity.
Qed.

Lemma validateDateRange_on_valid_dates_witness :
  validateDateRange utc (VStr "2024-01-01") (VStr "2024-01-31") 100 = RangeValid (Int 31).
Proof.
  exact (validateDateRange_on_valid_dates utc "2024-01-01" "2024-01-31"
           1704067200000 1706659200000 100 eq_refl eq_refl eq_refl eq_refl ltac:(lia)).
Defined.

(** C5. [validateDateRange("2024-01-01", "2024-01-08", 7)] is
    [{ isValid: true, days: 8 }]: a range of eight days passes a maximum of
    seven, because the difference of the dates, not the number of days, is
    compared with [maxDays]. *)
Theorem validateDateRange_eight_days_pass_seven :
  validateDateRange utc (VStr "2024-01-01") (VStr "2024-01-08") 7 = RangeValid (Int 8).
Proof. reflexivity. Qed.

(** C6. [validateCamera('FHAZ', 'constructor', VALID_CAMERAS)] throws a
    [TypeError]: the catalog inherits [constructor] from [Object.prototype],
    a truthy value without an [includes] method. *)
Theorem validateCamera_throws_on_inherited_key :
  validateCamera (VStr "FHAZ") (VStr "constructor") Mars.VALID_CAMERAS
  = Throw (TypeError "roverCameras.includes is not a function").
Proof. reflexivity. Qed.

(** [validateCamera] guards the type of [camera] only: a rover that is not
    a string makes it throw. *)
Lemma validateCamera_throws_without_rover (camera : string) (catalog : list (string * value)) :
  camera <> "" ->
  validateCamera (VStr camera) VUndef catalog
  = Throw (TypeError "Cannot read properties of undefined (reading 'toLowerCase')").
Proof.
  intros H. unfold validateCamera. simpl.
  destruct (String.eqb_spec camera ""); [contradiction | reflexivity].
Qed.

(** On the rovers the routes let through, [validateCamera] returns. *)
Lemma validateCamera_returns_on_valid_rover (camera : value) (rover : string) :
  Mars.list_includes Mars.VALID_ROVERS rover = true ->
  exists b, validateCamera camera (VStr rover) Mars.VALID_CAMERAS = Ret b.
Proof.
  unfold Mars.list_includes, Mars.VALID_ROVERS, existsb.
  rewrite !orb_true_iff, !String.eqb_eq.
  unfold validateCamera.
  destruct (negb (truthy camera) || negb (typeof camera =? "string")%string); [eauto|].
  intros [->|[->|[->|[->|[=]]]]]; destruct camera; simpl; eauto.
Qed.

(** ** [validateQueryParams] *)

(** The loop over a list of rules split in two is the loop over the first
    part followed by the loop over the second. *)
Lemma rules_loop_app (params : list (string * value)) (l1 l2 : list (string * rule))
    (errs : list string) (calls : list (string * value)) :
  rules_loop params (l1 ++ l2) errs calls
  = (do s <- rules_loop params l1 errs calls; rules_loop params l2 (fst s) (snd s)).
Proof.
  revert errs calls. induction l1 as [|[key r] l1 IH]; intros errs calls.
  - reflexivity.
  - cbn [app rules_loop].
    destruct (required r && is_blank (get_property params key)); [apply IH|].
    destruct (is_blank (get_property params key)); [apply IH|].
    destruct (validator r) as [f|]; [|apply IH].
    destruct (f (get_property params key)) as [ok|e]; [apply IH | reflexivity].
Qed.

(** The loop only ever adds to the errors it starts from. *)
Lemma rules_loop_errors_grow (params : list (string * value)) (rules : list (string * rule))
    (errs errs' : list string) (calls calls' : list (string * value)) :
  rules_loop params rules errs calls = Ret (errs', calls') ->
  exists more, errs' = errs ++ more.
Proof.
  revert errs calls. induction rules as [|[key r] rules IH]; intros errs calls.
  - intros [= <- <-]. exists []. now rewrite app_nil_r.
  - cbn [rules_loop].
    destruct (required r && is_blank (get_property params key)).
    { intros H. apply IH in H as [more ->]. rewrite <- app_assoc. eauto. }
    destruct (is_blank (get_property params key)); [apply IH|].
    destruct (validator r) as [f|]; [|apply IH].
    destruct (f (get_property params key)) as [ok|e]; [|discriminate].
    cbn [bind]. intros H. apply IH in H as [more ->].
    destruct (truthy ok); [eauto|]. rewrite <- app_assoc. eauto.
Qed.

(** Every validator call the loop adds was given the value of its key, and
    that value is not blank. *)
Lemma rules_loop_calls (params : list (string * value)) (rules : list (string * rule))
    (errs errs' : list string) (calls calls' : list (string * value)) :
  rules_loop params rules errs calls = Ret (errs', calls') ->
  forall k v, In (k, v) calls' ->
    In (k, v) calls \/ (v = get_property params k /\ is_blank v = false).
Proof.
  revert errs calls. induction rules as [|[key r] rules IH]; intros errs calls.
  - intros [= <- <-] k v H. now left.
  - cbn [rules_loop].
    destruct (required r && is_blank (get_property params key)); [apply IH|].
    destruct (is_blank (get_property params key)) eqn:B; [apply IH|].
    destruct (validator r) as [f|]; [|apply IH].
    destruct (f (get_property params key)) as [ok|e]; [|discriminate].
    cbn [bind]. intros H k v Hin.
    destruct (IH _ _ H k v Hin) as [Hc|Hv]; [|now right].
    apply in_app_or in Hc as [Hc|[[= <- <-]|[]]]; [now left | now right].
Qed.



(** With validators that return, the loop returns. *)
Lemma rules_loop_returns (params : list (string * value)) (rules : list (string * rule)) :
  (forall key r f v, In (key, r) rules -> validator r = Some f -> exists ok, f v = Ret ok) ->
  forall errs calls, exists s, rules_loop params rules errs calls = Ret s.
Proof.
  induction rules as [|[key r] rules IH]; intros Hf errs calls.
  - eexists. reflexivity.
  - assert (Hf' : forall key r f v, In (key, r) rules -> validator r = Some f ->
                    exists ok, f v = Ret ok)
      by (intros; eapply Hf; [right|]; eassumption).
    cbn [rules_loop].
    destruct (required r && is_blank (get_property params key)); [now apply IH|].
    destruct (is_blank (get_property params key)); [now apply IH|].
    destruct (validator r) as [f|] eqn:V; [|now apply IH].
    destruct (Hf key r f (get_property params key) (or_introl eq_refl) V) as [ok ->].
    now apply IH.
Qed.

(** C10. A rule whose parameter is undefined, null or the empty string,
    among rules whose validators return: [validateQueryParams] returns, and
    no validator was called for the key, whatever validator the rule has.
    When the rule is required, the result carries "<key> is required" and is
    not valid; when it is not required, the result and the validator calls
    are those of the rules without it, so that the rule alone is accepted
    with no error. *)
Theorem validateQueryParams_blank_is_absent (params : list (string * value))
    (before after : list (string * rule)) (key : string) (r : rule) :
  is_blank (get_property params key) = true ->
  (forall k r' f v, In (k, r') (before ++ after) -> validator r' = Some f ->
     exists ok, f v = Ret ok) ->
  exists out calls,
    validateQueryParams params (before ++ (key, r) :: after) = Ret (out, calls)
    /\ (forall v, ~ In (key, v) calls)
    /\ isValid out = Nat.eqb (List.length (errors out)) 0
    /\ (required r = true ->
        In (key +:+ " is required") (errors out) /\ isValid out = false)
    /\ (required r = false ->
        validateQueryParams params (before ++ after) = Ret (out, calls)
        /\ (before = [] -> after = [] -> errors out = [] /\ isValid out = true)).
Proof.
  intros B Hf.
  assert (Hb : forall k r' f v, In (k, r') before -> validator r' = Some f ->
                 exists ok, f v = Ret ok)
    by (intros k r' f v Hin; apply (Hf k r' f v); apply in_or_app; now left).
  assert (Ha : forall k r' f v, In (k, r') after -> validator r' = Some f ->
                 exists ok, f v = Ret ok)
    by (intros k r' f v Hin; apply (Hf k r' f v); apply in_or_app; now right).
  destruct (rules_loop_returns params before Hb [] []) as [[e1 c1] L1].
  assert (C1 : forall v, ~ In (key, v) c1).
  { intros v Hin. destruct (rules_loop_calls _ _ _ _ _ _ L1 key v Hin) as [[]|[-> Hn]].
    congruence. }
  destruct (required r) eqn:R.
  - destruct (rules_loop_returns params after Ha (e1 ++ [key +:+ " is required"]) c1)
      as [[e2 c2] L2].
    exists (mkParamsCheck (Nat.eqb (List.length e2) 0) e2), c2.
    assert (E : validateQueryParams params (before ++ (key, r) :: after)
                = Ret (mkParamsCheck (Nat.eqb (List.length e2) 0) e2, c2)).
    { unfold validateQueryParams. rewrite rules_loop_app, L1.
      cbn [bind fst snd rules_loop]. rewrite R, B. cbn [andb]. rewrite L2. reflexivity. }
    split; [exact E|]. split; [|split; [reflexivity|split; [|discriminate]]].
    + intros v Hin. destruct (rules_loop_calls _ _ _ _ _ _ L2 key v Hin) as [Hc|[-> Hn]];
        [exact (C1 v Hc) | congruence].
    + intros _. cbn [errors isValid].
      apply rules_loop_errors_grow in L2 as [more ->]. split.
      * apply in_or_app. left. apply in_or_app. right. now left.
      * rewrite !length_app. cbn [List.length]. apply Nat.eqb_neq. lia.
  - destruct (rules_loop_returns params after Ha e1 c1) as [[e2 c2] L2].
    exists (mkParamsCheck (Nat.eqb (List.length e2) 0) e2), c2.
    assert (E : validateQueryParams params (before ++ (key, r) :: after)
                = Ret (mkParamsCheck (Nat.eqb (List.length e2) 0) e2, c2)).
    { unfold validateQueryParams. rewrite rules_loop_app, L1.
      cbn [bind fst snd rules_loop]. rewrite R, B. cbn [andb]. rewrite L2. reflexivity. }
    split; [exact E|]. split; [|split; [reflexivity|split; [discriminate|]]].
    + intros v Hin. destruct (rules_loop_calls _ _ _ _ _ _ L2 key v Hin) as [Hc|[-> Hn]];
        [exact (C1 v Hc) | congruence].
    + intros _. split.
      * unfold validateQueryParams. rewrite rules_loop_app, L1.
        cbn [bind fst snd]. rewrite L2. reflexivity.
      * intros -> ->. cbn in L1. injection L1 as <- <-. cbn in L2. injection L2 as <- <-.
        split; reflexivity.
Qed.

(** The theorem at work: an empty required [date] is reported, whatever
    the validator of [count] finds, and no validator is called for it. *)
Lemma validateQueryParams_blank_witness :
  exists out calls,
    validateQueryParams [("date", VStr ""); ("count", VStr "5")]
      ([] ++ ("date", mkRule true (Some (fun _ => Ret (VBool false))) None)
          :: [("count", Scenario.rejecting)])
    = Ret (out, calls)
    /\ In "date is required" (errors out)
    /\ isValid out = false
    /\ forall v, ~ In ("date", v) calls.
Proof.
  destruct (validateQueryParams_blank_is_absent
              [("date", VStr ""); ("count", VStr "5")] []
              [("count", Scenario.rejecting)] "date"
              (mkRule true (Some (fun _ => Ret (VBool false))) None))
    as (out & calls & E & C & _ & Hreq & _).
  - reflexivity.
  - intros k r' f v [[= <- <-]|[]] [= <-]. eexists. reflexivity.
  - exists out, calls. destruct (Hreq eq_refl) as [Hin Hvalid].
    split; [exact E|]. split; [exact Hin|]. split; [exact Hvalid | exact C].
Defined.

Example blank_required_parameter_beside_a_rejected_one :
  validateQueryParams [("date", VStr ""); ("count", VStr "5")]
    [("date", mkRule true (Some (fun _ => Ret (VBool false))) None);
     ("count", Scenario.rejecting)]
  = Ret (mkParamsCheck false ["date is required"; "Invalid count"], [("count", VStr "5")]).
Proof. reflexivity. Qed.

Example empty_optional_parameter_is_accepted :
  validateQueryParams [("camera", VStr "")] [("camera", Scenario.rejecting)]
  = Ret (mkParamsCheck true [], []).
Proof. reflexivity. Qed.

Example empty_required_parameter_is_reported :
  validateQueryParams [("date", VStr "")] [("date", mkRule true None None)]
  = Ret (mkParamsCheck false ["date is required"], []).
Proof. reflexivity. Qed.

(** ** Sorting *)

Lemma In_sort_insert {A : Type} (gt : A -> A -> bool) (x y : A) (l : list A) :
  In y (sort_insert gt x l) <-> y = x \/ In y l.
Proof.
  induction l as [|h l IH]; cbn [sort_insert].
  - cbn [In]. intuition.
  - destruct (gt x h); cbn [In]; [rewrite IH|]; intuition.
Qed.

Lemma In_sort {A : Type} (gt : A -> A -> bool) (y : A) (l : list A) :
  In y (sort gt l) <-> In y l.
Proof.
  induction l as [|x l IH]; cbn [sort]; [reflexivity|].
  rewrite In_sort_insert, IH. cbn [In]. intuition.
Qed.

(** On a list whose comparator is the order of the keys, the first element
    of the sorted list is an element with the least key. *)
Lemma sort_head_least {A : Type} (key : A -> Z) (gt : A -> A -> bool)
    (l : list A) (h : A) (rest : list A) :
  (forall a b, In a l -> In b l -> gt a b = (key a >? key b)) ->
  sort gt l = h :: rest ->
  In h l /\ forall y, In y l -> key h <= key y.
Proof.
  revert h rest. induction l as [|x l IH]; intros h rest K; cbn [sort]; [discriminate|].
  assert (K' : forall a b, In a l -> In b l -> gt a b = (key a >? key b))
    by (intros; apply K; now right).
  destruct (sort gt l) as [|h' rest'] eqn:S.
  - cbn [sort_insert]. intros [= <- <-]. split; [now left|].
    intros y [<-|Hy]; [lia|].
    apply (In_sort gt) in Hy. rewrite S in Hy. destruct Hy.
  - destruct (IH h' rest' K' eq_refl) as [Hin Hleast].
    cbn [sort_insert]. rewrite (K x h') by (cbn [In]; auto).
    destruct (key x >? key h') eqn:G.
    + intros [= <- <-]. split; [now right|].
      apply Z.gtb_lt in G. intros y [<-|Hy]; [lia | now apply Hleast].
    + intros [= <- <-]. split; [now left|].
      assert (key x <= key h') by (destruct (Z.gtb_spec (key x) (key h')); [discriminate | lia]).
      intros y [<-|Hy]; [lia|]. specialize (Hleast y Hy). lia.
Qed.

(** ** Objects built by spreading *)

Lemma own_property_set_property (props : list (string * value)) (k : string) (v : value) :
  own_property (set_property props k v) k = Some v.
Proof.
  induction props as [|[k' v'] props IH]; cbn [set_property own_property].
  - now rewrite String.eqb_refl.
  - destruct (String.eqb_spec k' k) as [->|N]; cbn [own_property].
    + now rewrite String.eqb_refl.
    + apply String.eqb_neq in N. now rewrite N.
Qed.

Lemma own_property_set_property_ne (props : list (string * value)) (k k' : string)
    (v : value) :
  k' <> k -> own_property (set_property props k v) k' = own_property props k'.
Proof.
  intros Hne. induction props as [|[k0 v0] props IH]; cbn [set_property own_property].
  - destruct (String.eqb_spec k k'); [congruence | reflexivity].
  - destruct (String.eqb_spec k0 k) as [->|N]; cbn [own_property].
    + destruct (String.eqb_spec k k'); [congruence | reflexivity].
    + destruct (String.eqb_spec k0 k'); [reflexivity | exact IH].
Qed.

(** ** The analysis of a near earth object *)

Example categorizeSize_examples :
  Neows.categorizeSize (Fin (1152921504606847 # 2305843009213693952)) = "TINY"    (* 0.0005 *)
  /\ Neows.categorizeSize (Fin (5764607523034235 # 1152921504606846976)) = "SMALL" (* 0.005 *)
  /\ Neows.categorizeSize (Fin (3602879701896397 # 72057594037927936)) = "MEDIUM"  (* 0.05 *)
  /\ Neows.categorizeSize (Fin (1 # 2)) = "LARGE"
  /\ Neows.categorizeSize (Int 5) = "MASSIVE".
Proof. repeat split. Qed.

Lemma num_lt_Fin (x y : Q) : num_lt (Fin x) (Fin y) = true <-> (x < y)%Q.
Proof.
  cbn [num_lt]. rewrite negb_true_iff, <- not_true_iff_false, Qle_bool_iff.
  split; [apply Qnot_le_lt | apply Qlt_not_le].
Qed.

Lemma num_lt_Fin_false (x y : Q) : num_lt (Fin x) (Fin y) = false <-> (y <= x)%Q.
Proof.
  cbn [num_lt]. rewrite negb_false_iff. apply Qle_bool_iff.
Qed.

(** The size categories are the intervals between the thresholds. *)
Lemma categorizeSize_thresholds (d : Q) :
  ((d < Neows.lit_0_001 -> Neows.categorizeSize (Fin d) = "TINY")
   /\ (Neows.lit_0_001 <= d -> d < Neows.lit_0_01 -> Neows.categorizeSize (Fin d) = "SMALL")
   /\ (Neows.lit_0_01 <= d -> d < Neows.lit_0_1 -> Neows.categorizeSize (Fin d) = "MEDIUM")
   /\ (Neows.lit_0_1 <= d -> d < 1 -> Neows.categorizeSize (Fin d) = "LARGE")
   /\ (1 <= d -> Neows.categorizeSize (Fin d) = "MASSIVE"))%Q.
Proof.
  assert (T1 : (Neows.lit_0_001 <= Neows.lit_0_01)%Q) by (apply Qle_bool_iff; reflexivity).
  assert (T2 : (Neows.lit_0_01 <= Neows.lit_0_1)%Q) by (apply Qle_bool_iff; reflexivity).
  assert (T3 : (Neows.lit_0_1 <= 1)%Q) by (apply Qle_bool_iff; reflexivity).
  unfold Neows.categorizeSize, Int. change (inject_Z 1) with 1%Q.
  repeat split.
  - intros H. apply num_lt_Fin in H. now rewrite H.
  - intros L H. apply num_lt_Fin_false in L. apply num_lt_Fin in H. now rewrite L, H.
  - intros L H.
    assert (L1 : (Neows.lit_0_001 <= d)%Q) by (eapply Qle_trans; eassumption).
    apply num_lt_Fin_false in L, L1. apply num_lt_Fin in H. now rewrite L1, L, H.
  - intros L H.
    assert (L2 : (Neows.lit_0_01 <= d)%Q) by (eapply Qle_trans; eassumption).
    assert (L1 : (Neows.lit_0_001 <= d)%Q) by (eapply Qle_trans; eassumption).
    apply num_lt_Fin_false in L, L1, L2. apply num_lt_Fin in H. now rewrite L1, L2, L, H.
  - intros L.
    assert (L3 : (Neows.lit_0_1 <= d)%Q) by (eapply Qle_trans; eassumption).
    assert (L2 : (Neows.lit_0_01 <= d)%Q) by (eapply Qle_trans; eassumption).
    assert (L1 : (Neows.lit_0_001 <= d)%Q) by (eapply Qle_trans; eassumption).
    apply num_lt_Fin_false in L, L1, L2, L3. now rewrite L1, L2, L3, L.
Qed.

Lemma later_Some (a : option Z) (now : Z) :
  later a (Some now) = true <-> exists t, a = Some t /\ now < t.
Proof.
  destruct a as [t|]; cbn [later].
  - rewrite Z.gtb_lt. split; [eauto | intros [t' [[= <-] H]]; exact H].
  - split; [discriminate | intros [t [[=] _]]].
Qed.

(** The next approach is an approach after [now] that no other approach
    after [now] precedes; there is none exactly when no approach is after
    [now]. *)
Lemma next_approach_earliest (parseFloat : string -> number) (Date_parse : string -> option Z)
    (now : Z) (data : neo) :
  match Neows.next (Neows.analyse parseFloat Date_parse now data) with
  | None =>
      forall ap, In ap (close_approach_data data) ->
        ~ exists t, Date_parse (close_approach_date ap) = Some t /\ now < t
  | Some n =>
      exists ap t,
        In ap (close_approach_data data)
        /\ n = Neows.project parseFloat ap
        /\ Date_parse (close_approach_date ap) = Some t
        /\ now < t
        /\ forall ap' t',
             In ap' (close_approach_data data) ->
             Date_parse (close_approach_date ap') = Some t' ->
             now < t' ->
             t <= t'
  end.
Proof.
  unfold Neows.analyse. cbn [Neows.next]. unfold Neows.futureApproaches.
  set (future := List.filter _ _).
  assert (F : forall a, In a future <->
              In a (close_approach_data data)
              /\ exists t, Date_parse (close_approach_date a) = Some t /\ now < t).
  { intros a. unfold future. rewrite filter_In, later_Some. reflexivity. }
  set (key := fun a => default 0 (Neows.approach_time Date_parse a)).
  assert (K : forall a b, In a future -> In b future ->
              later (Neows.approach_time Date_parse a) (Neows.approach_time Date_parse b)
              = (key a >? key b)).
  { intros a b Ha Hb. apply F in Ha as [_ [ta [Ta _]]]. apply F in Hb as [_ [tb [Tb _]]].
    unfold key, Neows.approach_time. now rewrite Ta, Tb. }
  destruct (sort _ future) as [|first rest] eqn:S.
  - intros ap Hin Hex.
    assert (Hf : In ap future) by (apply F; auto).
    apply (In_sort (fun a b => later (Neows.approach_time Date_parse a)
                                 (Neows.approach_time Date_parse b))) in Hf.
    rewrite S in Hf. destruct Hf.
  - destruct (sort_head_least key _ future first rest K S) as [Hin Hleast].
    apply F in Hin as [Hin [t [T Hnow]]].
    exists first, t. repeat split; try assumption.
    intros ap' t' Hin' T' Hnow'.
    assert (Hf : In ap' future) by (apply F; eauto).
    specialize (Hleast ap' Hf). unfold key, Neows.approach_time in Hleast.
    now rewrite T, T' in Hleast.
Qed.

(** C7. A successful object lookup answers 200 with the object and, added
    to it, an [analysis]: [risk_level] is HIGH exactly for an object flagged
    hazardous; [size_category] follows the thresholds 0.001, 0.01, 0.1 and
    1 km (the doubles these literals denote) on the maximum estimated
    diameter; [next_approach] is null when no approach is dated after [now],
    and else gives the date, distance and velocity of an approach dated
    after [now] that no other such approach precedes; [approach_count]
    counts the approaches. *)
Theorem object_lookup_analysis (parseFloat : string -> number)
    (Date_parse : string -> option Z) (cfg : config) (now : Z) (id : string)
    (st st' : service) (data : neo) :
  id <> "" ->
  getNearEarthObjectById cfg now id st = (Ret (Neo data), st') ->
  let o := Neows.get_object parseFloat Date_parse cfg now id st in
  exists size_category next_approach,
    snd o = st'
    /\ (exists body,
          fst o = Respond (JsonResponse 200 body) /\ field "success" body = VBool true)
    /\ field "analysis" (field "data" (answer (fst o)))
       = VObj [("risk_level",
                VStr (if is_potentially_hazardous_asteroid data then "HIGH" else "LOW"));
               ("size_category", VStr size_category);
               ("next_approach", next_approach);
               ("approach_count",
                VNum (Int (Z.of_nat (List.length (close_approach_data data)))))]
    /\ (forall k, k <> "analysis" ->
          field k (field "data" (answer (fst o))) = field k (VObj (neo_props data)))
    /\ (forall d, estimated_diameter_max data = Fin d ->
          (d < 1152921504606847 # 1152921504606846976 -> size_category = "TINY")
          /\ (1152921504606847 # 1152921504606846976 <= d ->
              d < 5764607523034235 # 576460752303423488 -> size_category = "SMALL")
          /\ (5764607523034235 # 576460752303423488 <= d ->
              d < 3602879701896397 # 36028797018963968 -> size_category = "MEDIUM")
          /\ (3602879701896397 # 36028797018963968 <= d -> d < 1 ->
              size_category = "LARGE")
          /\ (1 <= d -> size_category = "MASSIVE"))%Q
    /\ ((next_approach = VNull
         /\ forall ap, In ap (close_approach_data data) ->
              ~ exists t, Date_parse (close_approach_date ap) = Some t /\ now < t)
        \/ exists ap t,
             In ap (close_approach_data data)
             /\ Date_parse (close_approach_date ap) = Some t
             /\ now < t
             /\ (forall ap' t',
                   In ap' (close_approach_data data) ->
                   Date_parse (close_approach_date ap') = Some t' ->
                   now < t' ->
                   t <= t')
             /\ next_approach
                = VObj [("date", VStr (close_approach_date ap));
                        ("distance_km", VNum (parseFloat (miss_distance_kilometers ap)));
                        ("velocity_kmh",
                         VNum (parseFloat (relative_velocity_kilometers_per_hour ap)))]).
Proof.
  intros Hid Hget o.
  assert (E : o = (success
                     (VObj (set_property (neo_props data) "analysis"
                              (Neows.json_of_analysis
                                 (Neows.analyse parseFloat Date_parse now data))))
                     ([("endpoint", VStr ("neows/object/" +:+ id)); ("asteroid_id", VStr id)]
                      ++ stamp now), st')).
  { unfold o, Neows.get_object.
    destruct (String.eqb_spec id ""); [contradiction|].
    rewrite Hget. reflexivity. }
  rewrite E. clear E o.
  exists (Neows.size_category (Neows.analyse parseFloat Date_parse now data)),
    (Neows.json_of_next (Neows.next (Neows.analyse parseFloat Date_parse now data))).
  split; [reflexivity|]. split; [eexists; split; reflexivity|].
  split; [|split; [|split]].
  - cbn [fst success answer body_of]. unfold field at 2. cbn [own_property].
    change (("success" =? "data")%string) with false.
    change (("data" =? "data")%string) with true. cbn [default from_option Datatypes.id].
    unfold field. now rewrite own_property_set_property.
  - intros k Hk. cbn [fst success answer body_of]. unfold field at 2. cbn [own_property].
    change (("success" =? "data")%string) with false.
    change (("data" =? "data")%string) with true. cbn [default from_option Datatypes.id].
    unfold field. now rewrite own_property_set_property_ne.
  - intros d Hd. unfold Neows.analyse. cbn [Neows.size_category]. rewrite Hd.
    apply categorizeSize_thresholds.
  - pose proof (next_approach_earliest parseFloat Date_parse now data) as N.
    destruct (Neows.next (Neows.analyse parseFloat Date_parse now data)) as [n|].
    + right. destruct N as (ap & t & Hin & -> & Ht & Hnow & Hleast).
      exists ap, t. repeat split; assumption.
    + left. split; [reflexivity | exact N].
Qed.

(** The theorem on the lookup of Apophis at noon of 2024-01-01: of the
    approaches of 2021, 2029 and 2036 the next one is that of 2029. *)
Lemma object_lookup_analysis_witness :
  field "analysis"
    (field "data"
       (answer (fst (Neows.get_object Scenario.no_float Date_parse_date_only Scenario.server
                       Scenario.noon "2099942" Scenario.fresh))))
  = VObj [("risk_level", VStr "HIGH"); ("size_category", VStr "LARGE");
          ("next_approach",
           VObj [("date", VStr "2029-04-13"); ("distance_km", VNum NaN);
                 ("velocity_kmh", VNum NaN)]);
          ("approach_count", VNum (Int 3))].
Proof.
  destruct (object_lookup_analysis Scenario.no_float Date_parse_date_only Scenario.server
              Scenario.noon "2099942" Scenario.fresh
              (snd (getNearEarthObjectById Scenario.server Scenario.noon "2099942"
                      Scenario.fresh))
              Scenario.apophis)
    as (size & next & _ & _ & -> & _ & Hsize & Hnext).
  - discriminate.
  - vm_compute. reflexivity.
  - assert (S : size = "LARGE").
    { destruct (Hsize (34 # 100)%Q eq_refl) as (_ & _ & _ & L & _).
      apply L; [discriminate | reflexivity]. }
    subst size.
    destruct Hnext as [[_ None]|(ap & t & Hin & Ht & Hnow & Hleast & ->)].
    + exfalso. apply (None (mkApproach "2029-04-13" "38011.7" "26692.2")).
      * right. now left.
      * exists 1870732800000. split; [reflexivity | reflexivity].
    + assert (A : ap = mkApproach "2029-04-13" "38011.7" "26692.2").
      { destruct Hin as [<-|[<-|[<-|[]]]].
        - vm_compute in Ht. injection Ht as <-. vm_compute in Hnow. discriminate Hnow.
        - reflexivity.
        - specialize (Hleast (mkApproach "2029-04-13" "38011.7" "26692.2") 1870732800000
                        (or_intror (or_introl eq_refl)) eq_refl eq_refl).
          vm_compute in Ht. injection Ht as <-. exfalso. apply Hleast. reflexivity. }
      subst ap. reflexivity.
Defined.

Example apophis_next_approach :
  Neows.next (Neows.analyse Scenario.no_float Date_parse_date_only Scenario.noon Scenario.apophis)
  = Some (Neows.mkNextApproach "2029-04-13" NaN NaN).
Proof. reflexivity. Qed.

(** ** The risk summary of the feed *)

Lemma track_approach_counts (parseFloat : string -> number) (obj : neo) (aps : list approach) (r : Neows.risk_summary) :
  Neows.total_objects (fold_left (Neows.track_approach parseFloat obj) aps r)
  = Neows.total_objects r
  /\ Neows.potentially_hazardous (fold_left (Neows.track_approach parseFloat obj) aps r)
     = Neows.potentially_hazardous r
  /\ Neows.close_approaches (fold_left (Neows.track_approach parseFloat obj) aps r)
     = Neows.close_approaches r + Z.of_nat (List.length aps)
  /\ Neows.largest_object (fold_left (Neows.track_approach parseFloat obj) aps r)
     = Neows.largest_object r.
Proof.
  revert r. induction aps as [|a aps IH]; intros r; cbn [fold_left List.length].
  - repeat split. lia.
  - destruct (IH (Neows.track_approach parseFloat obj r a)) as [T [H [C L]]].
    rewrite T, H, C, L. cbn [Neows.track_approach Neows.total_objects
      Neows.potentially_hazardous Neows.close_approaches Neows.largest_object].
    repeat split. lia.
Qed.

Lemma track_object_counts (parseFloat : string -> number) (objs : list neo)
    (r : Neows.risk_summary) :
  Neows.total_objects (fold_left (Neows.track_object parseFloat) objs r)
  = Neows.total_objects r
  /\ Neows.potentially_hazardous (fold_left (Neows.track_object parseFloat) objs r)
     = Neows.potentially_hazardous r
       + Z.of_nat (List.length (List.filter is_potentially_hazardous_asteroid objs))
  /\ Neows.close_approaches (fold_left (Neows.track_object parseFloat) objs r)
     = Neows.close_approaches r
       + Z.of_nat (List.length (concat (map close_approach_data objs))).
Proof.
  revert r. induction objs as [|obj objs IH]; intros r.
  - cbn. repeat split; lia.
  - cbn [fold_left map concat List.filter].
    destruct (IH (Neows.track_object parseFloat r obj)) as [T [H C]].
    rewrite T, H, C. clear IH T H C.
    unfold Neows.track_object.
    cbn [Neows.total_objects Neows.potentially_hazardous Neows.close_approaches].
    match goal with
    | |- context [fold_left _ _ ?r1] =>
        destruct (track_approach_counts parseFloat obj (close_approach_data obj) r1)
          as [T [H [C _]]]
    end.
    rewrite T, H, C. rewrite length_app.
    destruct (is_potentially_hazardous_asteroid obj);
      cbn [Neows.total_objects Neows.potentially_hazardous Neows.close_approaches List.length];
      repeat split; lia.
Qed.

(** X4. The counters of the risk summary: [total_objects] is the feed's
    [element_count], [potentially_hazardous] the number of objects flagged
    hazardous over all the dates of the feed, and [close_approaches] the
    number of their close approaches. *)
Theorem risk_summary_counts (parseFloat : string -> number) (f : feed) :
  Neows.total_objects (Neows.summarize parseFloat f) = element_count f
  /\ Neows.potentially_hazardous (Neows.summarize parseFloat f)
     = Z.of_nat (List.length (List.filter is_potentially_hazardous_asteroid
                                (Neows.all_objects f)))
  /\ Neows.close_approaches (Neows.summarize parseFloat f)
     = Z.of_nat (List.length (concat (map close_approach_data (Neows.all_objects f)))).
Proof.
  unfold Neows.summarize.
  destruct (track_object_counts parseFloat (Neows.all_objects f)
              (Neows.mkRiskSummary (element_count f) 0 0 None None)) as [T [H C]].
  rewrite T, H, C. repeat split.
Qed.

(** The largest object so far, after one more object. *)
Lemma track_object_largest (parseFloat : string -> number) (r : Neows.risk_summary)
    (obj : neo) :
  Neows.largest_object (Neows.track_object parseFloat r obj)
  = match Neows.largest_object r with
    | None =>
        Some (Neows.mkLargest (neo_name obj) (estimated_diameter_max obj)
                (is_potentially_hazardous_asteroid obj))
    | Some l =>
        if num_lt (Neows.diameter l) (estimated_diameter_max obj)
        then Some (Neows.mkLargest (neo_name obj) (estimated_diameter_max obj)
                     (is_potentially_hazardous_asteroid obj))
        else Some l
    end.
Proof.
  unfold Neows.track_object. cbn [Neows.largest_object].
  match goal with
  | |- context [fold_left _ _ ?r1] =>
      destruct (track_approach_counts parseFloat obj (close_approach_data obj) r1)
        as [_ [_ [_ L]]]
  end.
  rewrite L.
  replace (Neows.largest_object _) with (Neows.largest_object r)
    by (destruct (is_potentially_hazardous_asteroid obj); reflexivity).
  destruct (Neows.largest_object r) as [l|]; [|reflexivity].
  destruct (num_lt _ _); reflexivity.
Qed.

(** X5. When the diameters of the feed are finite numbers, the summary's
    [largest_object] is an object of the feed that no other is larger
    than; there is none only when the feed has no objects. *)
Theorem largest_object_is_largest (parseFloat : string -> number) (f : feed) :
  (forall o, In o (Neows.all_objects f) -> exists q, estimated_diameter_max o = Fin q) ->
  match Neows.largest_object (Neows.summarize parseFloat f) with
  | None => Neows.all_objects f = []
  | Some l =>
      exists o q,
        In o (Neows.all_objects f)
        /\ l = Neows.mkLargest (neo_name o) (Fin q) (is_potentially_hazardous_asteroid o)
        /\ estimated_diameter_max o = Fin q
        /\ forall o' q', In o' (Neows.all_objects f) -> estimated_diameter_max o' = Fin q' ->
             (q' <= q)%Q
  end.
Proof.
  unfold Neows.summarize. generalize (element_count f).
  induction (Neows.all_objects f) as [|x objs IH] using rev_ind; intros count Hfin.
  - reflexivity.
  - rewrite fold_left_app. cbn [fold_left]. rewrite track_object_largest.
    assert (Hfin' : forall o, In o objs -> exists q, estimated_diameter_max o = Fin q)
      by (intros o Ho; apply Hfin, in_or_app; now left).
    specialize (IH count Hfin').
    destruct (Hfin x) as [qx Hx]; [apply in_or_app; right; now left|].
    destruct (Neows.largest_object _) as [l|].
    + destruct IH as [o [q [Hin [-> [Ho Hmax]]]]]. cbn [Neows.diameter]. rewrite Hx.
      destruct (num_lt (Fin q) (Fin qx)) eqn:L.
      * apply num_lt_Fin in L. exists x, qx. rewrite Hx.
        split; [apply in_or_app; right; now left|]. split; [reflexivity|].
        split; [reflexivity|]. intros o' q' Hin' Ho'.
        apply in_app_or in Hin' as [Hin'|[<-|[]]].
        -- apply Qle_trans with q; [now apply (Hmax o')|now apply Qlt_le_weak].
        -- rewrite Hx in Ho'. injection Ho' as <-. apply Qle_refl.
      * apply num_lt_Fin_false in L. exists o, q.
        split; [apply in_or_app; now left|]. split; [reflexivity|].
        split; [assumption|]. intros o' q' Hin' Ho'.
        apply in_app_or in Hin' as [Hin'|[<-|[]]].
        -- now apply (Hmax o').
        -- rewrite Hx in Ho'. injection Ho' as <-. assumption.
    + subst objs. exists x, qx. rewrite Hx.
      split; [now left|]. split; [reflexivity|]. split; [reflexivity|].
      intros o' q' [<-|[]] Ho'. rewrite Hx in Ho'. injection Ho' as <-. apply Qle_refl.
Qed.

Lemma largest_object_is_largest_witness :
  exists o q,
    In o (Neows.all_objects Scenario.two_rocks)
    /\ Neows.mkLargest "(2024 AB)" (Int 2) true
       = Neows.mkLargest (neo_name o) (Fin q) (is_potentially_hazardous_asteroid o)
    /\ estimated_diameter_max o = Fin q
    /\ forall o' q', In o' (Neows.all_objects Scenario.two_rocks) ->
         estimated_diameter_max o' = Fin q' -> (q' <= q)%Q.
Proof.
  apply (largest_object_is_largest Scenario.no_float Scenario.two_rocks).
  intros o [<-|[<-|[]]]; eexists; reflexivity.
Defined.

(** The feed of two objects, summed up. *)
Example two_rocks_summary :
  Neows.potentially_hazardous (Neows.summarize Scenario.no_float Scenario.two_rocks) = 1
  /\ Neows.largest_object (Neows.summarize Scenario.no_float Scenario.two_rocks)
     = Some (Neows.mkLargest "(2024 AB)" (Int 2) true).
Proof. split; reflexivity. Qed.

(** ** Date ranges and future dates in the routes *)

Lemma validateDate_nonempty (tza : Z -> Z) (s : string) :
  validateDate tza (VStr s) = true -> s <> "".
Proof. intros H ->. discriminate H. Qed.

(** Between two midnights the day difference of the routes is the
    difference of the day numbers. *)
Lemma days_between_midnights (s e : string) (ts te : Z) :
  time_of s = Some ts ->
  time_of e = Some te ->
  days_between (Some ts) (Some te) = Some (Day te - Day ts).
Proof.
  intros Hs He. cbn [days_between]. f_equal. unfold ceil_div.
  change (1000 * 60 * 60 * 24) with msPerDay.
  rewrite (time_of_midnight s ts Hs), (time_of_midnight e te He) at 1.
  replace (- (Day te * msPerDay - Day ts * msPerDay))
    with ((Day ts - Day te) * msPerDay) by ring.
  rewrite Z.div_mul by discriminate. ring.
Qed.

Lemma later_midnights (s e : string) (ts te : Z) :
  time_of s = Some ts ->
  time_of e = Some te ->
  later (Some ts) (Some te) = (Day ts >? Day te).
Proof.
  intros Hs He. cbn [later].
  rewrite (time_of_midnight s ts Hs), (time_of_midnight e te He) at 1.
  unfold msPerDay.
  destruct (Z.gtb_spec (Day ts) (Day te)),
    (Z.gtb_spec (Day ts * 86400000) (Day te * 86400000)); try reflexivity; lia.
Qed.

(** A midnight of a later day than the day of [now] is after [now]. *)
Lemma later_day_is_later (s : string) (t now : Z) :
  time_of s = Some t ->
  Day now < Day t ->
  later (Some t) (Some now) = true.
Proof.
  intros Hs H. cbn [later]. apply Z.gtb_lt.
  rewrite (time_of_midnight s t Hs).
  pose proof (Z.mul_succ_div_gt now msPerDay eq_refl) as G.
  unfold Day in *. unfold msPerDay in *. lia.
Qed.

(** C1, the claim as stated fails: a feed request over ten days, two valid
    dates, is rejected without a request upstream, but what it is answered
    with carries the string 'Date range too large' under [error], and no
    code INVALID_REQUEST. *)
Lemma feed_over_limit_carries_no_error_code :
  validateDate utc (VStr "2024-01-01") = true
  /\ validateDate utc (VStr "2024-01-10") = true
  /\ Neows.get_feed Scenario.no_float Scenario.server Scenario.noon
       (Neows.mkFeedQuery (Some "2024-01-01") (Some "2024-01-10") None) Scenario.fresh
     = (failure 400 "Date range too large" "Date range cannot exceed 7 days" [], Scenario.fresh)
  /\ field "error" (answer (failure 400 "Date range too large"
                              "Date range cannot exceed 7 days" []))
     = VStr "Date range too large"
  /\ field "code" (field "error" (answer (failure 400 "Date range too large"
                                            "Date range cannot exceed 7 days" [])))
     <> VStr "INVALID_REQUEST".
Proof. repeat split. discriminate. Qed.

(** At the boundary: a feed request over eight days, 2024-01-01 to
    2024-01-08, is let through, requested upstream and answered with
    [days: 8]. *)
Lemma feed_eight_day_span_reaches_upstream :
  requests (snd (Neows.get_feed Scenario.no_float Scenario.server Scenario.noon
                   (Neows.mkFeedQuery (Some "2024-01-01") (Some "2024-01-08") None)
                   Scenario.fresh))
  = [("/neo/rest/v1/feed",
      [("detailed_destruction", PBool false); ("start_date", PStr "2024-01-01");
       ("end_date", PStr "2024-01-08")])]
  /\ field "days" (field "meta"
       (answer (fst (Neows.get_feed Scenario.no_float Scenario.server Scenario.noon
                       (Neows.mkFeedQuery (Some "2024-01-01") (Some "2024-01-08") None)
                       Scenario.fresh))))
     = VNum (Int 8).
Proof. split; reflexivity. Qed.

Example feed_seven_day_span_reaches_upstream :
  requests (snd (Neows.get_feed Scenario.no_float Scenario.server Scenario.noon
                   (Neows.mkFeedQuery (Some "2024-01-01") (Some "2024-01-07") None)
                   Scenario.fresh))
  = [("/neo/rest/v1/feed",
      [("detailed_destruction", PBool false); ("start_date", PStr "2024-01-01");
       ("end_date", PStr "2024-01-07")])].
Proof. reflexivity. Qed.

(** C1, amended. With two valid dates, a feed request whose inclusive span
    exceeds eight days and an APOD range request whose inclusive span exceeds
    a hundred and one days are answered 400 'Date range too large' and leave
    the service untouched: nothing is requested upstream. Requests whose
    inclusive span is within seven days, respectively a hundred, go on to the
    service layer. *)
Theorem date_range_limits (cfg : config) (now : Z) (st : service) :
  (forall (parseFloat : string -> number) (q : Neows.feed_query) (s e : Z),
     let startDate := Neows.or_today (Neows.start_date q) (toISODate now) in
     let endDate := Neows.or_today (Neows.end_date q) (toISODate now) in
     validateDate (tza cfg) (VStr startDate) = true ->
     validateDate (tza cfg) (VStr endDate) = true ->
     time_of startDate = Some s ->
     time_of endDate = Some e ->
     (Day e - Day s + 1 > 8 ->
      Neows.get_feed parseFloat cfg now q st
      = (failure 400 "Date range too large" "Date range cannot exceed 7 days" [], st))
     /\ (1 <= Day e - Day s + 1 <= 7 ->
         snd (Neows.get_feed parseFloat cfg now q st)
         = snd (getNearEarthObjects cfg now (Some startDate) (Some endDate)
                  (Neows.is_true (Neows.detailed q)) st)))
  /\ (forall (start_date end_date : string) (s e : Z),
        validateDate (tza cfg) (VStr start_date) = true ->
        validateDate (tza cfg) (VStr end_date) = true ->
        time_of start_date = Some s ->
        time_of end_date = Some e ->
        (Day e - Day s + 1 > 101 ->
         Apod.get_range cfg now (Apod.mkRangeQuery (Some start_date) (Some end_date)) st
         = (failure 400 "Date range too large" "Date range cannot exceed 100 days" [], st))
        /\ (1 <= Day e - Day s + 1 <= 100 ->
            snd (Apod.get_range cfg now (Apod.mkRangeQuery (Some start_date) (Some end_date)) st)
            = snd (getAPOD cfg now None None (Some start_date) (Some end_date) st))).
Proof.
  split.
  - intros parseFloat q s e startDate endDate Vs Ve Ts Te.
    unfold Neows.get_feed. fold startDate endDate. rewrite Vs, Ve, Ts, Te.
    cbn [negb]. rewrite (later_midnights _ _ _ _ Ts Te), (days_between_midnights _ _ _ _ Ts Te).
    cbn [exceeds]. split; intros H.
    + destruct (Z.gtb_spec (Day s) (Day e)); [lia|].
      destruct (Z.gtb_spec (Day e - Day s) 7); [reflexivity | lia].
    + destruct (Z.gtb_spec (Day s) (Day e)); [lia|].
      destruct (Z.gtb_spec (Day e - Day s) 7); [lia|].
      destruct (getNearEarthObjects _ _ _ _ _ _) as [[[]|] st']; reflexivity.
  - intros start_date end_date s e Vs Ve Ts Te.
    unfold Apod.get_range. cbn [Apod.range_start Apod.range_end given default from_option].
    unfold id.
    destruct (String.eqb_spec start_date "") as [->|_]; [discriminate Vs|].
    destruct (String.eqb_spec end_date "") as [->|_]; [discriminate Ve|].
    cbn [negb orb]. rewrite Vs, Ve, Ts, Te. cbn [negb orb].
    rewrite (later_midnights _ _ _ _ Ts Te), (days_between_midnights _ _ _ _ Ts Te).
    cbn [exceeds]. split; intros H.
    + destruct (Z.gtb_spec (Day s) (Day e)); [lia|].
      destruct (Z.gtb_spec (Day e - Day s) 100); [reflexivity | lia].
    + destruct (Z.gtb_spec (Day s) (Day e)); [lia|].
      destruct (Z.gtb_spec (Day e - Day s) 100); [lia|].
      destruct (getAPOD _ _ _ _ _ _ _) as [[] st']; reflexivity.
Qed.

(** C9, the claim as stated fails: with a type that is not valid, a request
    for a future date is answered 'Invalid type', not that the date cannot
    be in the future. *)
Lemma epic_future_date_with_invalid_type :
  validateDate utc (VStr "2999-01-01") = true
  /\ later (time_of "2999-01-01") (Some Scenario.noon) = true
  /\ fst (Epic.get_images Scenario.server Scenario.noon
            (Epic.mkImagesQuery (Some "2999-01-01") (Some "satellite")) Scenario.fresh)
     = failure 400 "Invalid type" "Type must be one of: natural, enhanced" []
  /\ fst (Epic.get_images Scenario.server Scenario.noon
            (Epic.mkImagesQuery (Some "2999-01-01") (Some "satellite")) Scenario.fresh)
     <> failure 400 "Invalid date" "Date cannot be in the future" [].
Proof. repeat split. discriminate. Qed.

(** C9, amended. A request to [GET /epic/images] whose type is absent or,
    in any letter case, natural or enhanced, and whose date is a valid date
    of a later day (UTC) than the current one, is answered 400 'Date cannot
    be in the future', and the service is left untouched: nothing is
    requested upstream. *)
Theorem epic_future_date_rejected (cfg : config) (now : Z) (q : Epic.images_query)
    (st : service) (date : string) (t : Z) :
  Mars.list_includes Epic.VALID_TYPES (toLowerCase (Epic.type_of (Epic.type q))) = true ->
  Epic.date q = Some date ->
  validateDate (tza cfg) (VStr date) = true ->
  time_of date = Some t ->
  Day now < Day t ->
  Epic.get_images cfg now q st
  = (failure 400 "Invalid date" "Date cannot be in the future" [], st).
Proof.
  intros Htype Hdate Hvalid Htime Hday. unfold Epic.get_images.
  rewrite Htype, Hdate. cbn [negb Neows.or_today].
  destruct (String.eqb_spec date "") as [->|_]; [discriminate Hvalid|].
  rewrite Hvalid, Htime. cbn [negb].
  now rewrite (later_day_is_later date t now Htime Hday).
Qed.

(** The theorem on a request for the first day of 2999, made in 2024. *)
Lemma epic_future_date_rejected_witness :
  Epic.get_images Scenario.server Scenario.noon
    (Epic.mkImagesQuery (Some "2999-01-01") (Some "Enhanced")) Scenario.fresh
  = (failure 400 "Invalid date" "Date cannot be in the future" [], Scenario.fresh).
Proof.
  apply (epic_future_date_rejected Scenario.server Scenario.noon
           (Epic.mkImagesQuery (Some "2999-01-01") (Some "Enhanced")) Scenario.fresh
           "2999-01-01" 32472144000000); reflexivity.
Defined.

(** ** The cache *)

Lemma get_after_flushAll {V : Type} (now : Z) (key : string) (c : NodeCache.cache V) :
  fst (NodeCache.get now key (NodeCache.flushAll c)) = None.
Proof.
  unfold NodeCache.get, NodeCache.flushAll. cbn [NodeCache.data].
  now rewrite lookup_empty.
Qed.

Lemma key_list_after_flushAll {V : Type} (c : NodeCache.cache V) :
  NodeCache.key_list (NodeCache.flushAll c) = [].
Proof.
  unfold NodeCache.key_list, NodeCache.flushAll. cbn [NodeCache.data].
  now rewrite map_to_list_empty.
Qed.

(** A value is read back until the instant it expires at, and counts as a
    hit. *)
Lemma get_after_set {V : Type} (t0 now ttl : Z) (key : string) (value : V)
    (c : NodeCache.cache V) :
  0 < ttl ->
  now <= t0 + ttl * 1000 ->
  fst (NodeCache.get now key (NodeCache.set t0 key value (Some ttl) c)) = Some value
  /\ NodeCache.hits (NodeCache.getStats
                       (snd (NodeCache.get now key (NodeCache.set t0 key value (Some ttl) c))))
     = NodeCache.hits (NodeCache.getStats c) + 1.
Proof.
  intros Httl Hnow. unfold NodeCache.get, NodeCache.set.
  cbn [NodeCache.data default from_option id]. unfold id.
  rewrite lookup_insert_eq.
  destruct (Z.eqb_spec ttl 0); [lia|].
  unfold NodeCache.expired. cbn [NodeCache.t NodeCache.v].
  destruct (Z.ltb_spec (t0 + ttl * 1000) now); [lia|].
  rewrite andb_false_r. split; reflexivity.
Qed.

(** After it expired the value is gone, and the read a miss. *)
Lemma get_after_expiry {V : Type} (t0 now ttl : Z) (key : string) (value : V)
    (c : NodeCache.cache V) :
  0 <= t0 ->
  0 < ttl ->
  t0 + ttl * 1000 < now ->
  fst (NodeCache.get now key (NodeCache.set t0 key value (Some ttl) c)) = None
  /\ NodeCache.misses (NodeCache.getStats
                         (snd (NodeCache.get now key (NodeCache.set t0 key value (Some ttl) c))))
     = NodeCache.misses (NodeCache.getStats c) + 1.
Proof.
  intros Ht0 Httl Hnow. unfold NodeCache.get, NodeCache.set.
  cbn [NodeCache.data default from_option id]. unfold id.
  rewrite lookup_insert_eq.
  destruct (Z.eqb_spec ttl 0); [lia|].
  unfold NodeCache.expired. cbn [NodeCache.t NodeCache.v].
  destruct (Z.ltb_spec (t0 + ttl * 1000) now); [|lia].
  destruct (Z.eqb_spec (t0 + ttl * 1000) 0); cbn [negb andb].
  - lia.
  - unfold NodeCache.del. cbn [NodeCache.data]. rewrite lookup_insert_eq.
    split; reflexivity.
Qed.

(** C8, the claim as stated fails: the proxy that counted one hit and one
    miss reports neither after the cache was cleared. *)
Lemma cache_clear_forgets_hits_and_misses :
  NodeCache.getStats (Proxy.imageCache Scenario.proxy_used) = NodeCache.mkStats 1 1 1
  /\ NodeCache.getStats (Proxy.imageCache Scenario.proxy_cleared) = NodeCache.mkStats 0 0 0
  /\ NodeCache.hits (NodeCache.getStats (Proxy.imageCache Scenario.proxy_cleared))
     <> NodeCache.hits (NodeCache.getStats (Proxy.imageCache Scenario.proxy_used))
  /\ field "stats" (field "data"
       (body_of (fst (Proxy.get_cache_stats (Scenario.noon + 2000) Scenario.proxy_cleared))))
     = VObj [("hits", VNum (Int 0)); ("misses", VNum (Int 0)); ("keys", VNum (Int 0))].
Proof. vm_compute. repeat split. discriminate. Qed.

(** C8, amended. [flushAll] clears every entry, so that afterwards every
    [get] misses and there is no key, and it sets the hit and miss counters
    back to zero; outside production, the statistics reported right after
    [POST /proxy/cache/clear] show no hit, no miss and no image. *)
Theorem cache_clear_resets_statistics (cfg : config) (now : Z) (st : Proxy.state) :
  (forall key, fst (NodeCache.get now key (NodeCache.flushAll (Proxy.imageCache st))) = None)
  /\ NodeCache.key_list (NodeCache.flushAll (Proxy.imageCache st)) = []
  /\ NodeCache.getStats (NodeCache.flushAll (Proxy.imageCache st)) = NodeCache.mkStats 0 0 0
  /\ (env_is cfg "production" = false ->
      Proxy.imageCache (snd (Proxy.post_cache_clear cfg st))
      = NodeCache.flushAll (Proxy.imageCache st)
      /\ fst (Proxy.get_cache_stats now (snd (Proxy.post_cache_clear cfg st)))
         = JsonResponse 200
             (VObj [("success", VBool true);
                    ("data",
                     VObj [("stats", VObj [("hits", VNum (Int 0)); ("misses", VNum (Int 0));
                                           ("keys", VNum (Int 0))]);
                           ("cached_images", VNum (Int 0));
                           ("cache_size_mb", VNum (Fin (0 # 100)))])])).
Proof.
  split; [|split; [|split]].
  - intros key. apply get_after_flushAll.
  - apply key_list_after_flushAll.
  - reflexivity.
  - intros Henv. unfold Proxy.post_cache_clear. rewrite Henv. cbn [snd Proxy.imageCache].
    split; [reflexivity|].
    unfold Proxy.get_cache_stats. cbn [Proxy.imageCache].
    rewrite key_list_after_flushAll. reflexivity.
Qed.

(** ** Requests served from the cache *)

(** [cacheTTL || CACHE_TTL] is never 0. *)
Lemma env_ttl_nonzero (cfg : config) : env_ttl cfg <> 0.
Proof.
  unfold env_ttl. destruct (CACHE_TTL_SECONDS cfg) as [s|]; [|discriminate].
  destruct (parseInt_string s) as [n|]; [|discriminate].
  destruct (Z.eqb_spec n 0); [discriminate | assumption].
Qed.

(** X6. A payload the service fetched is served from the cache until its
    time to live is over: the second request returns the same data and
    nothing is asked upstream again. *)
Theorem cached_request_is_not_repeated (cfg : config) (t0 t1 : Z) (endpoint : string)
    (params : list (string * param)) (cacheKey : string) (cacheTTL : option Z)
    (data : payload) :
  upstream cfg 0 endpoint params = Resolved data ->
  payload_truthy data = true ->
  t1 <= t0 + (match cacheTTL with
              | Some ttl => if ttl =? 0 then env_ttl cfg else ttl
              | None => env_ttl cfg
              end) * 1000 ->
  fst (makeRequest cfg t0 endpoint params cacheKey cacheTTL (start cfg)) = Ret data
  /\ fst (makeRequest cfg t1 endpoint params cacheKey cacheTTL
            (snd (makeRequest cfg t0 endpoint params cacheKey cacheTTL (start cfg))))
     = Ret data
  /\ requests (snd (makeRequest cfg t1 endpoint params cacheKey cacheTTL
                      (snd (makeRequest cfg t0 endpoint params cacheKey cacheTTL (start cfg)))))
     = [(endpoint, params)].
Proof.
  intros Hup Htruthy Ht1.
  set (ttl := match cacheTTL with
              | Some ttl => if ttl =? 0 then env_ttl cfg else ttl
              | None => env_ttl cfg
              end) in *.
  assert (Httl : ttl <> 0).
  { unfold ttl. pose proof (env_ttl_nonzero cfg).
    destruct cacheTTL as [x|]; [destruct (Z.eqb_spec x 0)|]; assumption. }
  set (key := if negb (String.eqb cacheKey "") then cacheKey
              else endpoint +:+ "_" +:+ JSON_stringify params).
  assert (E0 : makeRequest cfg t0 endpoint params cacheKey cacheTTL (start cfg)
               = (Ret data,
                  mkService
                    (NodeCache.set t0 key data (Some ttl)
                       (NodeCache.mkCache (env_ttl cfg) ∅ (NodeCache.mkStats 0 1 0)))
                    [(endpoint, params)])).
  { unfold makeRequest, NodeCache.get. fold key.
    cbn [start cache requests NodeCache.create NodeCache.data].
    rewrite lookup_empty. cbn [List.length app]. rewrite Hup. reflexivity. }
  rewrite E0. cbn [fst snd]. split; [reflexivity|].
  unfold makeRequest, NodeCache.get. fold key.
  cbn [cache requests NodeCache.set NodeCache.data default from_option]. unfold id.
  rewrite lookup_insert_eq.
  destruct (Z.eqb_spec ttl 0) as [|_]; [contradiction|].
  unfold NodeCache.expired. cbn [NodeCache.t NodeCache.v].
  destruct (Z.ltb_spec (t0 + ttl * 1000) t1); [lia|].
  rewrite andb_false_r, Htruthy. cbn [fst snd requests]. split; reflexivity.
Qed.

Lemma cached_request_is_not_repeated_witness :
  requests (snd (makeRequest Scenario.server (Scenario.noon + 1000) "/planetary/apod"
                   [("date", PStr "2024-01-01")] "" None
                   (snd (makeRequest Scenario.server Scenario.noon "/planetary/apod"
                           [("date", PStr "2024-01-01")] "" None (start Scenario.server)))))
  = [("/planetary/apod", [("date", PStr "2024-01-01")])].
Proof.
  apply (cached_request_is_not_repeated Scenario.server Scenario.noon (Scenario.noon + 1000)
           "/planetary/apod" [("date", PStr "2024-01-01")] "" None Scenario.picture);
    [reflexivity | reflexivity | vm_compute; discriminate].
Defined.

(** A request whose key is not in the cache goes upstream, and what
    comes back is stored under the key. *)
Lemma makeRequest_miss (cfg : config) (now : Z) (endpoint : string)
    (params : list (string * param)) (cacheKey : string) (cacheTTL : option Z)
    (st : service) (data : payload) :
  cacheKey <> "" ->
  NodeCache.data (cache st) !! cacheKey = None ->
  upstream cfg (List.length (requests st)) endpoint params = Resolved data ->
  exists c,
    makeRequest cfg now endpoint params cacheKey cacheTTL st
    = (Ret data, mkService c (requests st ++ [(endpoint, params)]))
    /\ forall k, k <> cacheKey -> NodeCache.data c !! k = NodeCache.data (cache st) !! k.
Proof.
  intros Hkey Hnone Hup. unfold makeRequest, NodeCache.get.
  destruct (String.eqb_spec cacheKey ""); [contradiction|]. cbn [negb].
  rewrite Hnone, Hup. eexists. split; [reflexivity|].
  intros k Hk. cbn [NodeCache.set NodeCache.data]. now rewrite lookup_insert_ne.
Qed.

(** ** The rover routes *)

Lemma VALID_ROVERS_cases (r : string) :
  Mars.list_includes Mars.VALID_ROVERS r = true ->
  r = "curiosity" \/ r = "opportunity" \/ r = "spirit" \/ r = "perseverance".
Proof.
  unfold Mars.list_includes, Mars.VALID_ROVERS. cbn [existsb].
  destruct (String.eqb_spec r "curiosity"); [auto|].
  destruct (String.eqb_spec r "opportunity"); [auto|].
  destruct (String.eqb_spec r "spirit"); [auto|].
  destruct (String.eqb_spec r "perseverance"); [auto|discriminate].
Qed.

(** X7. [GET /mars/:rover/latest] on a server that just started asks for
    the manifest, then for the photos of the manifest's [max_sol], and
    reports that sol as [meta.latest_sol]. *)
Theorem latest_photos_are_of_the_manifest_sol (cfg : config) (now : Z) (rover : string)
    (props : list (string * value)) (latestSol : Z) (data : payload) :
  Mars.list_includes Mars.VALID_ROVERS (toLowerCase rover) = true ->
  latestSol <> 0 ->
  upstream cfg 0 ("/mars-photos/api/v1/rovers/" +:+ toLowerCase rover) []
  = Resolved (Manifest props latestSol) ->
  upstream cfg 1 ("/mars-photos/api/v1/rovers/" +:+ toLowerCase rover +:+ "/photos")
    [("page", PNum 1); ("sol", PNum latestSol)]
  = Resolved data ->
  fst (Mars.get_latest cfg now rover None (start cfg))
  = success (json_of_payload data)
      [("endpoint", VStr ("mars/" +:+ rover +:+ "/latest"));
       ("rover", VStr (toLowerCase rover));
       ("latest_sol", VNum (Int latestSol));
       ("camera", VNull);
       ("cached", VBool true);
       ("timestamp", VStr (toISOString now))]
  /\ requests (snd (Mars.get_latest cfg now rover None (start cfg)))
     = [("/mars-photos/api/v1/rovers/" +:+ toLowerCase rover, []);
        ("/mars-photos/api/v1/rovers/" +:+ toLowerCase rover +:+ "/photos",
         [("page", PNum 1); ("sol", PNum latestSol)])].
Proof.
  intros Hrover Hsol Hmanifest Hphotos. unfold Mars.get_latest.
  rewrite Hrover. cbn [negb Mars.check_camera given].
  set (r := toLowerCase rover) in *.
  unfold getMarsRoverManifest.
  destruct (makeRequest_miss cfg now ("/mars-photos/api/v1/rovers/" +:+ r) []
              ("mars_manifest_" +:+ r) (Some 86400) (start cfg) (Manifest props latestSol))
    as [c1 [E1 K1]]; [discriminate | apply lookup_empty | exact Hmanifest |].
  rewrite E1. unfold getMarsRoverPhotos, Mars.upper, option_map, add_if, param_truthy.
  destruct (Z.eqb_spec latestSol 0); [contradiction|]. cbn [negb app].
  set (key := "mars_" +:+ r +:+ "_" +:+ JSON_stringify [("page", PNum 1); ("sol", PNum latestSol)]).
  assert (Hkey : key <> "mars_manifest_" +:+ r).
  { unfold key. destruct (VALID_ROVERS_cases r Hrover) as [-> | [-> | [-> | ->]]]; discriminate. }
  destruct (makeRequest_miss cfg now ("/mars-photos/api/v1/rovers/" +:+ r +:+ "/photos")
              [("page", PNum 1); ("sol", PNum latestSol)] key None
              (mkService c1 (requests (start cfg) ++ [("/mars-photos/api/v1/rovers/" +:+ r, [])]))
              data)
    as [c2 [E2 _]]; [discriminate | | exact Hphotos |].
  { cbn [cache]. rewrite (K1 key Hkey). apply lookup_empty. }
  rewrite E2. split; reflexivity.
Qed.

Lemma latest_photos_are_of_the_manifest_sol_witness :
  field "latest_sol" (field "meta"
    (answer (fst (Mars.get_latest Scenario.mission_control Scenario.noon "Curiosity" None
                    (start Scenario.mission_control)))))
  = VNum (Int 4000).
Proof.
  rewrite (proj1 (latest_photos_are_of_the_manifest_sol Scenario.mission_control Scenario.noon
                    "Curiosity"
                    [("photo_manifest",
                      VObj [("name", VStr "Curiosity"); ("max_sol", VNum (Int 4000))])]
                    4000 (Opaque (VObj [("photos", VArr [])]))
                    eq_refl ltac:(discriminate) eq_refl eq_refl)).
  reflexivity.
Defined.

(** ** The image proxy *)

(** The allow-list test is a substring test. *)
Lemma isAllowedDomain_substring (hostname : string) :
  Proxy.isAllowedDomain hostname = true
  <-> exists domain before rest,
        In domain Proxy.allowedDomains /\ hostname = before +:+ domain +:+ rest.
Proof.
  unfold Proxy.isAllowedDomain. rewrite existsb_exists. split.
  - intros [domain [Hin H]]. apply orb_true_iff in H as [H|H].
    + apply includes_spec in H as [before [rest H]]. eauto.
    + apply endsWith_includes, includes_spec in H as [before [rest H]]. eauto.
  - intros [domain [before [rest [Hin H]]]]. exists domain. split; [exact Hin|].
    apply orb_true_iff. left. apply includes_spec. eauto.
Qed.

Example proxy_rejects_foreign_host :
  Proxy.get_image Proxy.simple_hostname Scenario.jpeg Scenario.noon
    (Some "https://evil.example.com/x.jpg") Proxy.start
  = (failure 403 "Forbidden domain" "Only NASA domains are allowed" [], Proxy.start).
Proof. reflexivity. Qed.

Example proxy_fetches_from_allowed_host :
  Proxy.fetched (snd (Proxy.get_image Proxy.simple_hostname Scenario.jpeg Scenario.noon
                        (Some "https://apod.nasa.gov/x.jpg") Proxy.start))
  = ["https://apod.nasa.gov/x.jpg"].
Proof. reflexivity. Qed.

(** C3. The host apod.nasa.gov.evil.example.com neither is nor ends with an
    allowed domain, and yet a request for an image on it is not rejected:
    the image is fetched and served. *)
Theorem proxy_fetches_from_lookalike_host :
  Proxy.simple_hostname Scenario.lookalike_url = Some "apod.nasa.gov.evil.example.com"
  /\ forallb (fun domain =>
                negb (String.eqb "apod.nasa.gov.evil.example.com" domain)
                && negb (endsWith domain "apod.nasa.gov.evil.example.com"))
       Proxy.allowedDomains = true
  /\ fst (Proxy.get_image Proxy.simple_hostname Scenario.jpeg Scenario.noon
            (Some Scenario.lookalike_url) Proxy.start)
     = Respond (SendResponse (Proxy.image_headers "image/jpeg" "JFIF" "MISS") "JFIF")
  /\ Proxy.fetched (snd (Proxy.get_image Proxy.simple_hostname Scenario.jpeg Scenario.noon
                           (Some Scenario.lookalike_url) Proxy.start))
     = [Scenario.lookalike_url].
Proof. repeat split. Qed.

(** Whatever the URL parser, a host that contains an allowed domain gets
    past the allow-list. *)
Lemma proxy_lets_substring_hosts_through (URL_hostname : string -> option string)
    (fetch : nat -> string -> Proxy.fetch_result) (now : Z) (url hostname domain before rest : string)
    (st : Proxy.state) :
  url <> "" ->
  URL_hostname url = Some hostname ->
  In domain Proxy.allowedDomains ->
  hostname = before +:+ domain +:+ rest ->
  fst (Proxy.get_image URL_hostname fetch now (Some url) st)
  <> failure 403 "Forbidden domain" "Only NASA domains are allowed" [].
Proof.
  intros Hurl Hhost Hin Hsub. unfold Proxy.get_image. cbn [given default from_option].
  unfold id. destruct (String.eqb_spec url ""); [contradiction|]. cbn [negb].
  rewrite Hhost.
  assert (A : Proxy.isAllowedDomain hostname = true)
    by (apply isAllowedDomain_substring; eauto 6).
  rewrite A. cbn [negb].
  destruct (NodeCache.get _ _ _) as [[img|] c1]; [discriminate|].
  destruct (fetch _ url) as [ct bytes|e]; [discriminate|].
  unfold Proxy.image_error.
  destruct (_ || _); [discriminate|].
  destruct (option_map _ _) as [status|]; [|discriminate].
  destruct (status =? 404); discriminate.
Qed.

(** X8. A URL whose host does not contain an allowed domain is answered
    with 403, and neither fetched nor looked up in the cache. *)
Theorem proxy_rejects_hosts_off_the_list (URL_hostname : string -> option string)
    (fetch : nat -> string -> Proxy.fetch_result) (now : Z) (url hostname : string)
    (st : Proxy.state) :
  url <> "" ->
  URL_hostname url = Some hostname ->
  Proxy.isAllowedDomain hostname = false ->
  Proxy.get_image URL_hostname fetch now (Some url) st
  = (failure 403 "Forbidden domain" "Only NASA domains are allowed" [], st).
Proof.
  intros Hurl Hhost Hoff. unfold Proxy.get_image. cbn [given default from_option].
  unfold id. destruct (String.eqb_spec url ""); [contradiction|]. cbn [negb].
  now rewrite Hhost, Hoff.
Qed.

Lemma proxy_rejects_hosts_off_the_list_witness :
  Proxy.get_image Proxy.simple_hostname Scenario.jpeg Scenario.noon
    (Some "https://evil.example.com/x.jpg") Proxy.start
  = (failure 403 "Forbidden domain" "Only NASA domains are allowed" [], Proxy.start).
Proof.
  apply (proxy_rejects_hosts_off_the_list Proxy.simple_hostname Scenario.jpeg Scenario.noon
           "https://evil.example.com/x.jpg" "evil.example.com" Proxy.start);
    [discriminate | reflexivity | reflexivity].
Defined.

(** ** The [cached] flag *)

(** C4. [GET /apod?date=2024-01-01] on a server that just started: the
    cache misses, the payload is requested upstream, and the response says
    [cached: true] all the same. *)
Theorem first_call_is_labelled_cached :
  NodeCache.getStats (cache (snd (Apod.get_root Scenario.server Scenario.noon
                                    Scenario.apod_query Scenario.fresh)))
  = NodeCache.mkStats 0 1 1
  /\ requests (snd (Apod.get_root Scenario.server Scenario.noon
                      Scenario.apod_query Scenario.fresh))
     = [("/planetary/apod", [("date", PStr "2024-01-01")])]
  /\ field "cached" (field "meta"
       (answer (fst (Apod.get_root Scenario.server Scenario.noon
                       Scenario.apod_query Scenario.fresh))))
     = VBool true.
Proof. repeat split. Qed.

(** The same request a second later is served from the cache, with the
    same data and, again, [cached: true]: the two responses differ in their
    timestamp only. *)
Example second_call_differs_in_timestamp_only :
  requests (snd (Apod.get_root Scenario.server (Scenario.noon + 1000) Scenario.apod_query
                   (snd (Apod.get_root Scenario.server Scenario.noon
                           Scenario.apod_query Scenario.fresh))))
  = [("/planetary/apod", [("date", PStr "2024-01-01")])]
  /\ fst (Apod.get_root Scenario.server Scenario.noon Scenario.apod_query Scenario.fresh)
     = success (json_of_payload Scenario.picture)
         [("endpoint", VStr "apod"); ("cached", VBool true);
          ("timestamp", VStr "2024-01-01T12:00:00.000Z")]
  /\ fst (Apod.get_root Scenario.server (Scenario.noon + 1000) Scenario.apod_query
            (snd (Apod.get_root Scenario.server Scenario.noon
                    Scenario.apod_query Scenario.fresh)))
     = success (json_of_payload Scenario.picture)
         [("endpoint", VStr "apod"); ("cached", VBool true);
          ("timestamp", VStr "2024-01-01T12:00:01.000Z")].
Proof. repeat split. Qed.

(** ** The envelope of the gateway's responses *)

(** C2, the claim as stated fails: [GET /apod?date=tomorrow] is answered
    with the string 'Invalid date format' under [error]; [error] is no
    object and there is no error code. *)
Lemma failure_envelope_has_no_error_code :
  fst (Apod.get_root Scenario.server Scenario.noon
         (Apod.mkQuery (Some "tomorrow") None None None) Scenario.fresh)
  = Respond (JsonResponse 400
      (VObj [("success", VBool false); ("error", VStr "Invalid date format");
             ("message", VStr "Date must be in YYYY-MM-DD format")]))
  /\ field "error" (answer (fst (Apod.get_root Scenario.server Scenario.noon
                                   (Apod.mkQuery (Some "tomorrow") None None None)
                                   Scenario.fresh)))
     = VStr "Invalid date format"
  /\ field "code" (field "error"
       (answer (fst (Apod.get_root Scenario.server Scenario.noon
                       (Apod.mkQuery (Some "tomorrow") None None None) Scenario.fresh))))
     = VUndef.
Proof. repeat split. Qed.

(** The one response without the envelope is the rate limiter's. *)
Example rate_limiter_answers_without_envelope :
  field "success" (body_of (App.rate_limited Scenario.server)) = VUndef
  /\ field "retryAfter" (body_of (App.rate_limited Scenario.server)) = VNum (Int 900).
Proof. split; reflexivity. Qed.

Lemma failure_well_behaved (status : Z) (label text : string) :
  400 <= status < 600 -> well_behaved (failure status label text []).
Proof.
  intros H. right. repeat split; first [apply H | reflexivity | eexists; reflexivity].
Qed.

Lemma success_well_behaved (data : value) (meta : list (string * value)) :
  well_behaved (success data meta).
Proof. left. repeat split. Qed.

Lemma TypeError_raised (msg : string) : raised (TypeError msg).
Proof. split; [reflexivity | discriminate]. Qed.

Lemma request_error_raised (e : error) : raised (request_error e).
Proof.
  unfold request_error. destruct (option_map resp_status (err_response e)) as [s|].
  - destruct (s =? 429); [|destruct (s =? 403); [|destruct (s >=? 500)]];
      (split; [reflexivity | discriminate]).
  - split; [reflexivity | discriminate].
Qed.

(** What the service layer throws is one of its own errors. *)
Lemma makeRequest_raised (cfg : config) (now : Z) (endpoint : string)
    (params : list (string * param)) (cacheKey : string) (cacheTTL : option Z)
    (st st' : service) (e : error) :
  makeRequest cfg now endpoint params cacheKey cacheTTL st = (Throw e, st') -> raised e.
Proof.
  unfold makeRequest.
  destruct (NodeCache.get _ _ _) as [[data|] c1];
    [destruct (payload_truthy data); [discriminate|]|];
    (destruct (upstream cfg _ endpoint params) as [d|e0]; [discriminate|];
     intros [= <- _]; apply request_error_raised).
Qed.

(** The error middleware answers a raised error with a failure envelope. *)
Lemma errorHandler_envelope (cfg : config) (e : error) :
  raised e ->
  exists status body,
    errorHandler cfg e = Ret (JsonResponse status body) /\ failure_envelope status body.
Proof.
  intros [Hresp Hname]. unfold errorHandler. cbv beta zeta. rewrite Hresp.
  destruct (String.eqb_spec (err_name e) "ValidationError") as [|_]; [contradiction|].
  repeat match goal with
         | |- context [if ?c then _ else _] => destruct c
         end;
    do 2 eexists; (split; [reflexivity|]);
    repeat split; first [lia | reflexivity | eexists; reflexivity].
Qed.

Lemma validateCamera_raised (camera rover : value) (catalog : list (string * value))
    (e : error) :
  validateCamera camera rover catalog = Throw e -> raised e.
Proof.
  unfold validateCamera, call_toLowerCase, call_includes.
  destruct (_ || _); [discriminate|].
  destruct rover; cbn [bind]; try (intros [= <-]; apply TypeError_raised).
  destruct (negb _); [discriminate|].
  destruct camera; try discriminate.
  destruct (get_property catalog _); try discriminate;
    intros [= <-]; apply TypeError_raised.
Qed.

Lemma check_camera_well_behaved (rover : string) (camera : option string) (o : outcome) :
  Mars.check_camera rover camera = Some o -> well_behaved o.
Proof.
  unfold Mars.check_camera. destruct (given camera); [|discriminate].
  destruct (validateCamera _ _ _) as [[|]|e] eqn:V; [discriminate| |].
  - unfold Mars.cameras_of. destruct (get_property _ _);
      intros [= <-];
      first [apply failure_well_behaved; lia | apply TypeError_raised].
  - intros [= <-]. eapply validateCamera_raised, V.
Qed.

(** Each step of a handler: a test, a call of the service layer, a look at
    the payload. *)
Ltac handler_step :=
  match goal with
  | |- well_behaved (fst (failure _ _ _ _, _)) => apply failure_well_behaved; lia
  | |- well_behaved (fst (success _ _, _)) => apply success_well_behaved
  | |- well_behaved (fst (Next (TypeError _), _)) => apply TypeError_raised
  | H : _ = (Throw ?e, _) |- well_behaved (fst (Next ?e, _)) =>
      unfold getAPOD, getMarsRoverPhotos, getMarsRoverManifest, getNearEarthObjects,
        getNearEarthObjectById, getEPICImages, getEPICAvailableDates in H;
      exact (makeRequest_raised _ _ _ _ _ _ _ _ _ H)
  | H : Mars.check_camera _ _ = Some ?o |- well_behaved (fst (?o, _)) =>
      exact (check_camera_well_behaved _ _ _ H)
  | |- well_behaved (fst (if ?c then _ else _)) => destruct c
  | |- well_behaved (fst (match ?x with _ => _ end)) =>
      first [is_var x; destruct x | destruct x eqn:?]
  end.

Ltac handler := repeat handler_step.

Lemma apod_well_behaved (cfg : config) (now : Z) (st : service) :
  (forall q, well_behaved (fst (Apod.get_root cfg now q st)))
  /\ well_behaved (fst (Apod.get_today cfg now st))
  /\ (forall count, well_behaved (fst (Apod.get_random cfg now count st)))
  /\ (forall q, well_behaved (fst (Apod.get_range cfg now q st))).
Proof.
  split; [|split; [|split]]; intros;
    unfold Apod.get_root, Apod.get_today, Apod.get_random, Apod.get_range; cbv zeta; handler.
Qed.

Lemma mars_well_behaved (cfg : config) (now : Z) (st : service) (rover : string) :
  well_behaved (Mars.get_rovers now)
  /\ well_behaved (fst (Mars.get_manifest cfg now rover st))
  /\ (forall q, well_behaved (fst (Mars.get_photos cfg now rover q st)))
  /\ (forall camera, well_behaved (fst (Mars.get_latest cfg now rover camera st))).
Proof.
  split; [|split; [|split]]; intros;
    unfold Mars.get_manifest, Mars.get_photos, Mars.get_latest, Mars.invalid_rover;
    cbv zeta; handler.
  left. repeat split.
Qed.

Lemma neows_well_behaved (parseFloat : string -> number) (Date_parse : string -> option Z)
    (float_add float_div : number -> number -> number)
    (cfg : config) (now : Z) (st : service) :
  (forall q, well_behaved (fst (Neows.get_feed parseFloat cfg now q st)))
  /\ well_behaved (fst (Neows.get_today float_add float_div cfg now st))
  /\ (forall id, well_behaved (fst (Neows.get_object parseFloat Date_parse cfg now id st)))
  /\ well_behaved (fst (Neows.get_hazardous parseFloat cfg now st)).
Proof.
  split; [|split; [|split]]; intros;
    unfold Neows.get_feed, Neows.get_today, Neows.get_object, Neows.get_hazardous;
    cbv zeta; handler.
Qed.

Lemma epic_well_behaved (Date_parse : string -> option Z)
    (cfg : config) (now : Z) (st : service) :
  (forall q, well_behaved (fst (Epic.get_images cfg now q st)))
  /\ (forall type, well_behaved (fst (Epic.get_latest cfg now type st)))
  /\ (forall type, well_behaved (fst (Epic.get_dates Date_parse cfg now type st)))
  /\ well_behaved (fst (Epic.get_natural cfg now st))
  /\ well_behaved (fst (Epic.get_enhanced cfg now st)).
Proof.
  split; [|split; [|split; [|split]]]; intros;
    unfold Epic.get_images, Epic.get_latest, Epic.get_dates, Epic.get_natural,
      Epic.get_enhanced, Epic.get_today_of, Epic.invalid_type, Epic.not_an_array;
    cbv zeta; handler.
Qed.

(** C2, amended. Whatever the request, the upstream and the state of the
    service, the gateway answers with a JSON envelope: either status 200
    with [success: true] and no [error], or an error status with
    [success: false], a string [error] naming the failure and a string
    [message]. The error is never an object and there is no error code. *)
Theorem gateway_envelopes (parseFloat : string -> number) (Date_parse : string -> option Z)
    (float_add float_div : number -> number -> number)
    (cfg : config) (now : Z) (req : App.request) (st : service) :
  exists status body,
    fst (App.gateway parseFloat Date_parse float_add float_div cfg now req st)
    = Ret (JsonResponse status body)
    /\ ((status = 200 /\ field "success" body = VBool true /\ field "error" body = VUndef)
        \/ (400 <= status < 600
            /\ field "success" body = VBool false
            /\ (exists label, field "error" body = VStr label)
            /\ (exists text, field "message" body = VStr text))).
Proof.
  assert (W : well_behaved
                (fst (App.handle parseFloat Date_parse float_add float_div cfg now req st))).
  { destruct (apod_well_behaved cfg now st) as (A1 & A2 & A3 & A4).
    destruct (neows_well_behaved parseFloat Date_parse float_add float_div cfg now st)
      as (N1 & N2 & N3 & N4).
    destruct (epic_well_behaved Date_parse cfg now st) as (E1 & E2 & E3 & E4 & E5).
    destruct req as [q| |count|q| |rover|rover q|rover camera|q| |id| |q|type|type| | |url];
      cbn [App.handle].
    - exact (A1 q).
    - exact A2.
    - exact (A3 count).
    - exact (A4 q).
    - exact (proj1 (mars_well_behaved cfg now st "")).
    - exact (proj1 (proj2 (mars_well_behaved cfg now st rover))).
    - exact (proj1 (proj2 (proj2 (mars_well_behaved cfg now st rover))) q).
    - exact (proj2 (proj2 (proj2 (mars_well_behaved cfg now st rover))) camera).
    - exact (N1 q).
    - exact N2.
    - exact (N3 id).
    - exact N4.
    - exact (E1 q).
    - exact (E2 type).
    - exact (E3 type).
    - exact E4.
    - exact E5.
    - right. unfold failure_envelope. cbn [notFound].
      split; [lia|]. split; [reflexivity|]. split; eexists; reflexivity. }
  unfold App.gateway. cbn [fst].
  destruct (fst (App.handle _ _ _ _ cfg now req st)) as [[status body|headers bytes]|e].
  - exists status, body. split; [reflexivity | exact W].
  - destruct W.
  - destruct (errorHandler_envelope cfg e W) as (status & body & H & F).
    exists status, body. split; [exact H | right; exact F].
Qed.

(** ** [sanitizeString] and [validateApiKey] *)

Lemma includes_char (c : ascii) (s : string) :
  includes (String c "") s = negb (all_chars (fun c' => negb (Ascii.eqb c c')) s).
Proof.
  induction s as [|c' s IH]; [reflexivity|].
  cbn [includes all_chars]. rewrite IH. unfold startsWith. cbn [String.prefix].
  destruct (ascii_dec c c') as [->|N].
  - rewrite Ascii.eqb_refl. destruct s; reflexivity.
  - apply Ascii.eqb_neq in N. rewrite N. reflexivity.
Qed.

Lemma strip_angles_chars (s : string) :
  all_chars (fun c => negb (Ascii.eqb "<" c)) (strip_angles s) = true
  /\ all_chars (fun c => negb (Ascii.eqb ">" c)) (strip_angles s) = true.
Proof.
  induction s as [|c s [IH1 IH2]]; [split; reflexivity|].
  cbn [strip_angles].
  destruct (Ascii.eqb_spec c "<") as [->|N1]; [now split|].
  destruct (Ascii.eqb_spec c ">") as [->|N2]; [now split|].
  cbn [orb all_chars]. rewrite IH1, IH2.
  destruct (Ascii.eqb_spec "<" c) as [<-|_]; [contradiction|].
  destruct (Ascii.eqb_spec ">" c) as [<-|_]; [contradiction|].
  split; reflexivity.
Qed.

Lemma strip_angles_length (s : string) :
  (String.length (strip_angles s) <= String.length s)%nat.
Proof.
  induction s as [|c s IH]; [reflexivity|].
  cbn [strip_angles]. destruct (_ || _); cbn [String.length]; lia.
Qed.

Lemma substring_length_le (n : nat) (s : string) :
  (String.length (String.substring 0 n s) <= n)%nat.
Proof.
  revert s. induction n as [|n IH]; intros [|c s]; cbn; try lia.
  specialize (IH s). lia.
Qed.

(** X9. Whatever it is given, [sanitizeString] returns a string without
    [<] and [>], of at most [maxLength] characters when [maxLength] is not
    negative. *)
Theorem sanitizeString_clean (input : value) (maxLength : Z) :
  0 <= maxLength ->
  includes "<" (sanitizeString input maxLength) = false
  /\ includes ">" (sanitizeString input maxLength) = false
  /\ Z.of_nat (String.length (sanitizeString input maxLength)) <= maxLength.
Proof.
  intros Hmax. unfold sanitizeString.
  destruct (negb (truthy input) || negb (String.eqb (typeof input) "string"));
    [cbn; repeat split; lia|].
  destruct input; try (cbn; repeat split; lia).
  rewrite !includes_char.
  destruct (strip_angles_chars (slice_to maxLength (trim s))) as [-> ->].
  repeat split.
  pose proof (strip_angles_length (slice_to maxLength (trim s))) as L.
  unfold slice_to in *. destruct (Z.ltb_spec maxLength 0); [lia|].
  pose proof (substring_length_le
                (Z.to_nat (Z.min maxLength (Z.of_nat (String.length (trim s))))) (trim s)).
  lia.
Qed.

Lemma sanitizeString_clean_witness :
  includes "<" (sanitizeString (VStr "  <b>Mars</b> rover ") 10) = false
  /\ includes ">" (sanitizeString (VStr "  <b>Mars</b> rover ") 10) = false
  /\ Z.of_nat (String.length (sanitizeString (VStr "  <b>Mars</b> rover ") 10)) <= 10.
Proof. apply (sanitizeString_clean (VStr "  <b>Mars</b> rover ") 10). lia. Defined.

(** The string is trimmed before it is cut and stripped, so that the result
    may begin or end with white space again. *)
Example sanitizeString_examples :
  sanitizeString (VStr "  <b>Mars</b> rover ") 10 = "bMars/b"
  /\ sanitizeString (VStr "<  Mars") 100 = "  Mars"
  /\ sanitizeString (VStr "Mars rover") 5 = "Mars "
  /\ sanitizeString (VNum (Int 5)) 100 = "".
Proof. repeat split. Qed.

Lemma trimStart_id (s : string) :
  all_chars (fun c => negb (is_white c)) s = true -> trimStart s = s.
Proof.
  destruct s as [|c s]; [reflexivity|]. cbn [all_chars trimStart].
  intros H. apply andb_true_iff in H as [H _]. apply negb_true_iff in H. now rewrite H.
Qed.

Lemma trimEnd_id (s : string) :
  all_chars (fun c => negb (is_white c)) s = true -> trimEnd s = s.
Proof.
  induction s as [|c s IH]; [reflexivity|]. cbn [all_chars trimEnd].
  intros H. apply andb_true_iff in H as [H1 H2]. rewrite (IH H2).
  apply negb_true_iff in H1. rewrite H1. destruct s; reflexivity.
Qed.

Lemma substring_all (s : string) : String.substring 0 (String.length s) s = s.
Proof. induction s as [|c s IH]; cbn; [reflexivity|now rewrite IH]. Qed.

Lemma strip_angles_id (s : string) :
  all_chars (fun c => negb (Ascii.eqb c "<" || Ascii.eqb c ">")) s = true ->
  strip_angles s = s.
Proof.
  induction s as [|c s IH]; [reflexivity|]. cbn [all_chars strip_angles].
  intros H. apply andb_true_iff in H as [H1 H2]. apply negb_true_iff in H1.
  now rewrite H1, (IH H2).
Qed.

Lemma all_chars_impl (p q : ascii -> bool) (s : string) :
  (forall c, p c = true -> q c = true) -> all_chars p s = true -> all_chars q s = true.
Proof.
  intros Hpq. induction s as [|c s IH]; [reflexivity|]. cbn [all_chars].
  intros H. apply andb_true_iff in H as [H1 H2]. now rewrite (Hpq c H1), (IH H2).
Qed.

Lemma alnum_cases (c : ascii) :
  is_lower c || is_upper c || is_digit c = true ->
  is_white c = false /\ Ascii.eqb c "<" || Ascii.eqb c ">" = false.
Proof.
  unfold is_lower, is_upper, is_digit, is_white. intros H.
  assert (B : (48 <= N_of_ascii c <= 57 \/ 65 <= N_of_ascii c <= 90
               \/ 97 <= N_of_ascii c <= 122)%N).
  { apply orb_true_iff in H as [H|H]; [apply orb_true_iff in H as [H|H]|];
      apply andb_true_iff in H as [H1 H2]; apply N.leb_le in H1, H2; lia. }
  split.
  - apply not_true_iff_false. intros W.
    apply orb_true_iff in W as [W|W]; [apply orb_true_iff in W as [W|W]|].
    + apply andb_true_iff in W as [W1 W2]. apply N.leb_le in W1, W2. lia.
    + apply N.eqb_eq in W. lia.
    + apply N.eqb_eq in W. lia.
  - destruct (Ascii.eqb_spec c "<") as [->|_]; [cbn in B; lia|].
    destruct (Ascii.eqb_spec c ">") as [->|_]; [cbn in B; lia|]. reflexivity.
Qed.

(** X10. A key [validateApiKey] accepts comes out of [sanitizeString], with
    its default [maxLength] of 100, unchanged. *)
Theorem valid_api_key_is_sanitized_unchanged (key : string) :
  validateApiKey (VStr key) = true -> sanitizeString (VStr key) 100 = key.
Proof.
  unfold validateApiKey, sanitizeString, alphanumeric. cbn [truthy typeof].
  change (("string" =? "string")%string) with true.
  destruct (negb (String.eqb key "")); cbn [negb orb andb]; [|discriminate].
  intros H. apply andb_true_iff in H as [H A]. apply andb_true_iff in H as [_ L].
  apply Z.leb_le in L.
  assert (W : all_chars (fun c => negb (is_white c)) key = true).
  { revert A. apply all_chars_impl. intros c Hc.
    destruct (alnum_cases c Hc) as [-> _]. reflexivity. }
  assert (G : all_chars (fun c => negb (Ascii.eqb c "<" || Ascii.eqb c ">")) key = true).
  { revert A. apply all_chars_impl. intros c Hc.
    destruct (alnum_cases c Hc) as [_ ->]. reflexivity. }
  unfold trim. rewrite (trimStart_id key W), (trimEnd_id key W).
  unfold slice_to. cbn [Z.ltb Z.compare].
  rewrite Z.min_r, Nat2Z.id, substring_all by lia.
  now apply strip_angles_id.
Qed.

Lemma valid_api_key_is_sanitized_unchanged_witness :
  sanitizeString (VStr "abcdefghijklmnopqrstuvwxyz0123456789ABCD") 100
  = "abcdefghijklmnopqrstuvwxyz0123456789ABCD".
Proof.
  apply (valid_api_key_is_sanitized_unchanged "abcdefghijklmnopqrstuvwxyz0123456789ABCD").
  reflexivity.
Defined.

(** ** [parseInt] reads back what [String] prints *)

Lemma pretty_N_char_digit (r : N) :
  (r < 10)%N ->
  digit_of 10 (pretty_N_char r) = Some (Z.of_N r)
  /\ is_digit (pretty_N_char r) = true.
Proof.
  intros H.
  assert (C : (r = 0 \/ r = 1 \/ r = 2 \/ r = 3 \/ r = 4 \/ r = 5 \/ r = 6 \/ r = 7
               \/ r = 8 \/ r = 9)%N) by lia.
  destruct C as [-> | [-> | [-> | [-> | [-> | [-> | [-> | [-> | [-> | ->]]]]]]]]];
    split; reflexivity.
Qed.

(** The digits of a positive number, read from the left. *)
Lemma digits_prefix_pretty (x : N) (s : string) (acc : option Z) :
  (0 < x)%N ->
  default 0 acc = 0 ->
  digits_prefix 10 (pretty_N_go x s) acc = digits_prefix 10 s (Some (Z.of_N x)).
Proof.
  intros Hx Hacc. revert s Hx.
  induction (N.lt_wf_0 x) as [x _ IH]. intros s Hx.
  rewrite pretty_N_go_step by exact Hx.
  destruct (pretty_N_char_digit (x mod 10)%N) as [D _]; [apply N.mod_lt; lia|].
  destruct (N.eq_dec (x / 10)%N 0%N) as [E|E].
  - rewrite E, pretty_N_go_0. cbn [digits_prefix]. rewrite D, Hacc. f_equal. f_equal.
    pose proof (N.div_mod' x 10%N) as M. rewrite E in M.
    set (r := (x mod 10)%N) in *. clearbody r. lia.
  - rewrite IH; [|apply N.div_lt; lia|now apply N.neq_0_lt_0].
    cbn [digits_prefix]. rewrite D. cbn [default from_option]. unfold id. f_equal. f_equal.
    pose proof (N.div_mod' x 10%N) as M.
    set (r := (x mod 10)%N) in *. set (q := (x / 10)%N) in *. clearbody q r. lia.
Qed.

(** They begin with a digit that is not [0], or with two digits. *)
Lemma pretty_N_go_head (x : N) (s : string) :
  (0 < x)%N ->
  exists c t,
    pretty_N_go x s = String c t
    /\ is_digit c = true
    /\ (c <> "0"%char \/ exists c' t', t = String c' t' /\ is_digit c' = true).
Proof.
  intros Hx.
  assert (G : forall y c1 s1, is_digit c1 = true ->
            exists c c' t', pretty_N_go y (String c1 s1) = String c (String c' t')
                            /\ is_digit c = true /\ is_digit c' = true
                            \/ y = 0%N).
  { intros y. induction (N.lt_wf_0 y) as [y _ IH]. intros c1 s1 H1.
    destruct (N.eq_dec y 0%N) as [->|Hy]; [exists c1, c1, ""; now right|].
    rewrite pretty_N_go_step by lia.
    destruct (pretty_N_char_digit (y mod 10)%N) as [_ D]; [apply N.mod_lt; lia|].
    destruct (IH (y / 10)%N (N.div_lt y 10%N ltac:(lia) ltac:(lia))
                (pretty_N_char (y mod 10)%N) (String c1 s1) D)
      as (c & c' & t' & [H|H]).
    - exists c, c', t'. now left.
    - rewrite H, pretty_N_go_0. exists (pretty_N_char (y mod 10)%N), c1, s1. now left. }
  rewrite pretty_N_go_step by exact Hx.
  destruct (pretty_N_char_digit (x mod 10)%N) as [_ D]; [apply N.mod_lt; lia|].
  destruct (G (x / 10)%N (pretty_N_char (x mod 10)%N) s D) as (c & c' & t' & [(E & Hc & Hc')|E]).
  - exists c, (String c' t'). split; [exact E|]. split; [exact Hc|]. right. eauto.
  - rewrite E, pretty_N_go_0. exists (pretty_N_char (x mod 10)%N), s.
    split; [reflexivity|]. split; [exact D|]. left.
    assert (x < 10)%N.
    { pose proof (N.div_mod' x 10%N) as M. pose proof (N.mod_lt x 10%N ltac:(lia)).
      rewrite E in M. set (r := (x mod 10)%N) in *. clearbody r. lia. }
    rewrite N.mod_small by assumption.
    assert (C : (x = 1 \/ x = 2 \/ x = 3 \/ x = 4 \/ x = 5 \/ x = 6 \/ x = 7
                 \/ x = 8 \/ x = 9)%N) by lia.
    destruct C as [-> | [-> | [-> | [-> | [-> | [-> | [-> | [-> | ->]]]]]]]]; discriminate.
Qed.

(** No [0x] in front of decimal digits. *)
Lemma radix_of_digits (c : ascii) (t : string) :
  is_digit c = true ->
  (c <> "0"%char \/ exists c' t', t = String c' t' /\ is_digit c' = true) ->
  match String c t with
  | String "0" (String "x" s') => (16, s')
  | String "0" (String "X" s') => (16, s')
  | _ => (10, String c t)
  end = (10, String c t).
Proof.
  intros Hc Hhead.
  destruct (ascii_dec c "0") as [->|H0].
  - destruct Hhead as [H|(c' & t' & -> & Hc')]; [contradiction|].
    destruct c' as [[] [] [] [] [] [] [] []]; try discriminate Hc'; reflexivity.
  - destruct c as [[] [] [] [] [] [] [] []]; try discriminate Hc; try contradiction;
      reflexivity.
Qed.

Lemma sign_of_digits (c : ascii) (t : string) :
  is_digit c = true ->
  match String c t with
  | String "-" s' => (-1, s')
  | String "+" s' => (1, s')
  | _ => (1, String c t)
  end = (1, String c t).
Proof.
  intros Hc. destruct c as [[] [] [] [] [] [] [] []]; try discriminate Hc; reflexivity.
Qed.

Lemma is_digit_not_space (c : ascii) : is_digit c = true -> is_space c = false.
Proof.
  unfold is_space, is_digit. intros Hc. apply andb_true_iff in Hc as [H1 H2].
  apply N.leb_le in H1, H2.
  destruct (N.leb_spec 9 (N_of_ascii c)), (N.leb_spec (N_of_ascii c) 13),
    (N.eqb_spec (N_of_ascii c) 32), (N.eqb_spec (N_of_ascii c) 160);
    cbn; try reflexivity; lia.
Qed.

(** What [parseInt] makes of a string that begins with decimal digits. *)
Lemma parseInt_string_digits (c : ascii) (t : string) :
  is_digit c = true ->
  (c <> "0"%char \/ exists c' t', t = String c' t' /\ is_digit c' = true) ->
  parseInt_string (String c t) = digits_prefix 10 (String c t) None.
Proof.
  intros Hc Hhead. unfold parseInt_string. cbn [skip_spaces].
  rewrite (is_digit_not_space c Hc), (sign_of_digits c t Hc),
    (radix_of_digits c t Hc Hhead).
  destruct (digits_prefix 10 (String c t) None) as [a|]; cbn [option_map];
    [f_equal; lia | reflexivity].
Qed.

Lemma pretty_N_go_app (x : N) (s rest : string) :
  pretty_N_go x s +:+ rest = pretty_N_go x (s +:+ rest).
Proof.
  revert s. induction (N.lt_wf_0 x) as [x _ IH]. intros s.
  destruct (N.eq_dec x 0%N) as [->|Hx]; [now rewrite !pretty_N_go_0|].
  rewrite (pretty_N_go_step x s), (pretty_N_go_step x (s +:+ rest)) by lia.
  rewrite IH by (apply N.div_lt; lia). reflexivity.
Qed.

Lemma digits_prefix_stop (rest : string) (v : Z) :
  (forall c t, rest = String c t -> is_digit c = false) ->
  digits_prefix 10 rest (Some v) = Some v.
Proof.
  intros Hrest. destruct rest as [|c t]; [reflexivity|]. cbn [digits_prefix].
  specialize (Hrest c t eq_refl). unfold digit_of. rewrite Hrest.
  set (d := if is_lower c then Z.of_N (N_of_ascii c) - 87
            else if is_upper c then Z.of_N (N_of_ascii c) - 55 else 10).
  assert (Hd : 10 <= d).
  { unfold d, is_lower, is_upper.
    destruct (N.leb_spec 97 (N_of_ascii c)), (N.leb_spec (N_of_ascii c) 122),
      (N.leb_spec 65 (N_of_ascii c)), (N.leb_spec (N_of_ascii c) 90); cbn [andb]; lia. }
  destruct (Z.ltb_spec d 10); [lia | reflexivity].
Qed.

(** [parseInt] reads the decimal digits of [n], as [String(n)] prints them,
    up to the first character that is no digit. *)
Lemma parseInt_show_prefix (n : Z) (rest : string) :
  (forall c t, rest = String c t -> is_digit c = false) ->
  (n = 0 -> forall t, rest <> String "x" t /\ rest <> String "X" t) ->
  parseInt_string (show n +:+ rest) = Some n.
Proof.
  intros Hrest Hzero. unfold show, pretty, pretty_Z.
  destruct n as [|p|p].
  - specialize (Hzero eq_refl). change ("0" +:+ rest) with (String "0" rest).
    unfold parseInt_string. cbn [skip_spaces].
    change (is_space "0") with false. cbv iota.
    destruct rest as [|c t]; [reflexivity|].
    specialize (Hrest c t eq_refl). destruct (Hzero t) as [Hx HX].
    destruct c as [[] [] [] [] [] [] [] []]; try discriminate Hrest;
      try (now contradiction Hx); try (now contradiction HX); reflexivity.
  - unfold pretty_positive, pretty, pretty_N. cbn [decide]. 
    destruct (decide (N.pos p = 0%N)) as [E|_]; [discriminate E|].
    rewrite pretty_N_go_app. change ("" +:+ rest) with rest.
    destruct (pretty_N_go_head (N.pos p) rest) as (c & t & E & Hc & Hhead); [lia|].
    rewrite E, (parseInt_string_digits c t Hc Hhead), <- E.
    rewrite digits_prefix_pretty by (reflexivity || lia).
    now rewrite digits_prefix_stop.
  - unfold pretty_positive, pretty, pretty_N.
    destruct (decide (N.pos p = 0%N)) as [E|_]; [discriminate E|].
    change (("-" +:+ pretty_N_go (N.pos p) "") +:+ rest)
      with (String "-" (pretty_N_go (N.pos p) "" +:+ rest)).
    rewrite pretty_N_go_app. change ("" +:+ rest) with rest.
    destruct (pretty_N_go_head (N.pos p) rest) as (c & t & E & Hc & Hhead); [lia|].
    unfold parseInt_string. cbn [skip_spaces]. change (is_space "-") with false.
    cbv iota. rewrite E, (radix_of_digits c t Hc Hhead), <- E.
    rewrite digits_prefix_pretty by (reflexivity || lia).
    rewrite digits_prefix_stop by assumption. reflexivity.
Qed.

Lemma parseInt_show (n : Z) : parseInt_string (show n) = Some n.
Proof.
  rewrite <- (append_empty_r (show n)). apply parseInt_show_prefix.
  - intros c t [=].
  - intros _ t. split; discriminate.
Qed.

(** ** The validators of integers *)

(** White space before the digits is skipped, the no-break space too. *)
Example parseInt_skips_white_space :
  parseInt_string (String "160" "5") = Some 5
  /\ parseInt_string (String "009" (String "032" "-12px")) = Some (-12)
  /\ validateSol (String "160" "5") = true
  /\ parseInt_string (String "133" "5") = None.
Proof. repeat split. Qed.

(** X11. [validateCount], [validateSol] and [validatePage] judge a string by
    the integer it begins with: after the decimal digits of [n], any text
    that does not go on with a digit is ignored. (An integer beyond [2 ^ 53]
    is rounded by [parseInt] and is left out here.) *)
Theorem integer_validators_read_a_prefix (n min max : Z) (rest : string) :
  Z.abs n <= 2 ^ 53 ->
  (forall c t, rest = String c t -> is_digit c = false) ->
  (n = 0 -> forall t, rest <> String "x" t /\ rest <> String "X" t) ->
  validateCount (show n +:+ rest) min max = (min <=? n) && (n <=? max)
  /\ validateSol (show n +:+ rest) = (0 <=? n) && (n <=? 10000)
  /\ validatePage (show n +:+ rest) = (1 <=? n) && (n <=? 1000).
Proof.
  intros _ Hrest Hzero. unfold validateCount, validateSol, validatePage.
  rewrite (parseInt_show_prefix n rest Hrest Hzero). repeat split.
Qed.

Lemma integer_validators_read_a_prefix_witness :
  validateCount "12 pictures" 1 100 = true
  /\ validateSol "12 pictures" = true
  /\ validatePage "12 pictures" = true.
Proof.
  apply (integer_validators_read_a_prefix 12 1 100 " pictures").
  - cbn. lia.
  - intros c t [= <- _]. reflexivity.
  - discriminate.
Defined.

(** ** The count of [GET /apod/random] *)

(** X12. [GET /apod/random] does not turn down a count that is absent, 0 or
    no number: it asks for one picture. Otherwise the integer [parseInt]
    reads off the parameter, after any white space, is the count asked for,
    when it is between 1 and 100; when it is not, the answer is 400 and the
    service is not called. (An integer beyond [2 ^ 53] is rounded by
    [parseInt], and printed with an exponent from [10 ^ 21] on, before it
    is validated: it is left out here.) *)
Theorem random_count (cfg : config) (now : Z) (count_param : option string)
    (st : service) (n : Z) :
  n = match count_param with
      | Some s =>
          match parseInt_string s with
          | Some k => if k =? 0 then 1 else k
          | None => 1
          end
      | None => 1
      end ->
  Z.abs n <= 2 ^ 53 ->
  Apod.get_random cfg now count_param st
  = if (1 <=? n) && (n <=? 100)
    then
      match getAPOD cfg now None (Some (PNum n)) None None st with
      | (Ret data, st') =>
          (success (json_of_payload data)
             ([("endpoint", VStr "apod/random"); ("count", VNum (Int n))] ++ stamp now),
           st')
      | (Throw error, st') => (Next error, st')
      end
    else (failure 400 "Invalid count" "Count must be between 1 and 100" [], st).
Proof.
  intros Hn _. unfold Apod.get_random. cbv zeta. rewrite <- Hn.
  unfold validateCount. rewrite parseInt_show.
  destruct ((1 <=? n) && (n <=? 100)); reflexivity.
Qed.

(** A count after a no-break space and before other text. *)
Lemma random_count_witness :
  requests (snd (Apod.get_random Scenario.server Scenario.noon
                   (Some (String "160" "5 pictures")) Scenario.fresh))
  = [("/planetary/apod", [("count", PNum 5)])].
Proof.
  rewrite (random_count Scenario.server Scenario.noon (Some (String "160" "5 pictures"))
             Scenario.fresh 5 eq_refl ltac:(vm_compute; discriminate)).
  reflexivity.
Defined.

Example random_count_examples :
  requests (snd (Apod.get_random Scenario.server Scenario.noon (Some "0") Scenario.fresh))
  = [("/planetary/apod", [("count", PNum 1)])]
  /\ requests (snd (Apod.get_random Scenario.server Scenario.noon None Scenario.fresh))
     = [("/planetary/apod", [("count", PNum 1)])]
  /\ requests (snd (Apod.get_random Scenario.server Scenario.noon (Some "many")
                      Scenario.fresh))
     = [("/planetary/apod", [("count", PNum 1)])]
  /\ Apod.get_random Scenario.server Scenario.noon (Some "101") Scenario.fresh
     = (failure 400 "Invalid count" "Count must be between 1 and 100" [], Scenario.fresh)
  /\ Apod.get_random Scenario.server Scenario.noon (Some "-3") Scenario.fresh
     = (failure 400 "Invalid count" "Count must be between 1 and 100" [], Scenario.fresh).
Proof. repeat split. Qed.

(** ** [validateCamera] on the rovers *)

(** X13. For a rover of the fixed list, named in any letter case,
    [validateCamera] does not throw, and it accepts a camera exactly when
    its name, in upper case, is among the cameras of that rover. *)
Theorem validateCamera_on_rovers (camera rover : string) :
  Mars.list_includes Mars.VALID_ROVERS (toLowerCase rover) = true ->
  exists cameras,
    get_property Mars.VALID_CAMERAS (toLowerCase rover) = VArr (map VStr cameras)
    /\ validateCamera (VStr camera) (VStr rover) Mars.VALID_CAMERAS
       = Ret (existsb (fun name => String.eqb name (toUpperCase camera)) cameras).
Proof.
  intros Hrover. unfold validateCamera. cbn [truthy typeof call_toLowerCase bind].
  change (("string" =? "string")%string) with true.
  destruct (VALID_ROVERS_cases _ Hrover) as [-> | [-> | [-> | ->]]];
    (eexists; split; [reflexivity|]);
    destruct (String.eqb_spec camera "") as [->|_]; reflexivity.
Qed.

Lemma validateCamera_on_rovers_witness :
  exists cameras,
    get_property Mars.VALID_CAMERAS (toLowerCase "Spirit") = VArr (map VStr cameras)
    /\ validateCamera (VStr "pancam") (VStr "Spirit") Mars.VALID_CAMERAS
       = Ret (existsb (fun name => String.eqb name (toUpperCase "pancam")) cameras).
Proof. apply (validateCamera_on_rovers "pancam" "Spirit"). reflexivity. Defined.

(** ** The error middleware *)

(** X14. What the middleware answers to a failed upstream request, which
    reaches it as the error [makeRequest] throws: 429 for an upstream 429,
    403 for a 403, 503 for a status of 500 or more; any other failure is
    answered 408 or 500 (or one of the former, should the upstream's message
    quote them): the upstream's own status is not passed on. *)
Theorem upstream_failure_answers (cfg : config) (e : error) :
  exists status body,
    errorHandler cfg (request_error e) = Ret (JsonResponse status body)
    /\ field "success" body = VBool false
    /\ (forall r, err_response e = Some r -> resp_status r = 429 -> status = 429)
    /\ (forall r, err_response e = Some r -> resp_status r = 403 -> status = 403)
    /\ (forall r, err_response e = Some r -> 500 <= resp_status r -> status = 503)
    /\ (status = 429 \/ status = 403 \/ status = 503 \/ status = 408 \/ status = 500).
Proof.
  assert (G : forall m, exists status body,
              errorHandler cfg (Error ("NASA API request failed: " +:+ m))
              = Ret (JsonResponse status body)
              /\ field "success" body = VBool false
              /\ (status = 429 \/ status = 403 \/ status = 503 \/ status = 408
                  \/ status = 500)).
  { intros m. unfold errorHandler, Error, has_code.
    cbn [err_message err_response err_name err_code err_errors err_stack].
    destruct (includes "NASA API rate limit exceeded" _);
      [eexists _, _; split; [reflexivity|]; split; [reflexivity|]; lia|].
    destruct (includes "Invalid NASA API key" _);
      [eexists _, _; split; [reflexivity|]; split; [reflexivity|]; lia|].
    destruct (includes "NASA API is currently unavailable" _);
      [eexists _, _; split; [reflexivity|]; split; [reflexivity|]; lia|].
    change (("Error" =? "ValidationError")%string) with false.
    change (("Error" =? "CastError")%string) with false.
    cbn [orb].
    destruct (includes "timeout" _);
      eexists _, _; (split; [reflexivity|]); (split; [reflexivity|]); lia. }
  unfold request_error.
  destruct (err_response e) as [r|]; cbn [option_map].
  - destruct (Z.eqb_spec (resp_status r) 429) as [E1|N1].
    { eexists _, _. split; [reflexivity|]. split; [reflexivity|].
      repeat split; try (intros r' [= <-]); lia. }
    destruct (Z.eqb_spec (resp_status r) 403) as [E2|N2].
    { eexists _, _. split; [reflexivity|]. split; [reflexivity|].
      repeat split; try (intros r' [= <-]); lia. }
    destruct (Z.geb_spec (resp_status r) 500) as [E3|N3].
    { eexists _, _. split; [reflexivity|]. split; [reflexivity|].
      repeat split; try (intros r' [= <-]); lia. }
    destruct (G (err_message e)) as (status & body & -> & S & C).
    exists status, body. split; [reflexivity|]. split; [exact S|].
    repeat split; try exact C; intros r' [= <-]; lia.
  - destruct (G (err_message e)) as (status & body & -> & S & C).
    exists status, body. split; [reflexivity|]. split; [exact S|].
    repeat split; try exact C; intros r' [=].
Qed.

(** An upstream 404, with the message axios gives it, is answered 500. *)
Example upstream_404_is_answered_500 :
  errorHandler Scenario.server
    (request_error
       (mkError "AxiosError" "Request failed with status code 404" (Some "ERR_BAD_REQUEST")
          (Some (mkResponseInfo 404 None "Not Found")) None ""))
  = Ret (JsonResponse 500
      (VObj [("success", VBool false); ("error", VStr "Internal server error");
             ("message",
              VStr "NASA API request failed: Request failed with status code 404")])).
Proof. reflexivity. Qed.

(** X15. The stack trace of an error is sent only when [NODE_ENV] is
    [development], and only with the answer 500. *)
Theorem stack_only_in_development (cfg : config) (err : error) (r : response) :
  errorHandler cfg err = Ret r ->
  field "stack" (body_of r) <> VUndef ->
  env_is cfg "development" = true /\ status_of r = 500.
Proof.
  unfold errorHandler.
  destruct (includes "NASA API rate limit exceeded" _);
    [intros [= <-] H; now contradiction H|].
  destruct (includes "Invalid NASA API key" _);
    [intros [= <-] H; now contradiction H|].
  destruct (includes "NASA API is currently unavailable" _);
    [intros [= <-] H; now contradiction H|].
  destruct (err_response err); [intros [= <-] H; now contradiction H|].
  destruct (String.eqb (err_name err) "ValidationError").
  { destruct (err_errors err); [intros [= <-] H; now contradiction H|discriminate]. }
  destruct (String.eqb (err_name err) "CastError");
    [intros [= <-] H; now contradiction H|].
  destruct (_ || _); [intros [= <-] H; now contradiction H|].
  destruct (_ || _); [intros [= <-] H; now contradiction H|].
  destruct (env_is cfg "development"); intros [= <-] H;
    [split; reflexivity | now contradiction H].
Qed.

Lemma stack_only_in_development_witness :
  env_is (mkConfig Scenario.answering (Some "development") None None None utc) "development"
  = true
  /\ status_of (JsonResponse 500
       (VObj [("success", VBool false); ("error", VStr "Internal server error");
              ("message", VStr "boom"); ("stack", VStr "")])) = 500.
Proof.
  apply (stack_only_in_development
           (mkConfig Scenario.answering (Some "development") None None None utc)
           (Error "boom")); [reflexivity | discriminate].
Defined.

(** ** What a handler leaves of the service *)

Ltac unfold_service H :=
  unfold getAPOD, getMarsRoverPhotos, getMarsRoverManifest, getNearEarthObjects,
    getNearEarthObjectById, getEPICImages, getEPICAvailableDates in H.

Ltac unfold_handlers :=
  unfold App.handle, Apod.get_root, Apod.get_today, Apod.get_random, Apod.get_range,
    Mars.get_manifest, Mars.get_photos, Mars.get_latest, Mars.invalid_rover,
    Neows.get_feed, Neows.get_today, Neows.get_object, Neows.get_hazardous,
    Epic.get_images, Epic.get_latest, Epic.get_dates, Epic.get_natural,
    Epic.get_enhanced, Epic.get_today_of, Epic.invalid_type, Epic.not_an_array.

(** A handler that turns the request down has not called the service. *)
Ltac rejection_step :=
  match goal with
  | |- rejected (fst (_, ?st)) -> snd (_, ?st) = ?st => reflexivity
  | |- rejected (fst (?o, _)) -> _ =>
      let H := fresh in
      intros [? H]; cbn [fst] in H; unfold success, failure in H; discriminate H
  | |- rejected (fst (if ?c then _ else _)) -> _ => destruct c
  | |- rejected (fst (match ?x with _ => _ end)) -> _ =>
      first [is_var x; destruct x | destruct x eqn:?]
  end.

(** X16. A request the gateway answers with status 400 has not touched the
    service: the cache was not read and nothing was asked upstream. *)
Theorem rejected_requests_leave_the_service (parseFloat : string -> number)
    (Date_parse : string -> option Z) (float_add float_div : number -> number -> number)
    (cfg : config) (now : Z) (req : App.request) (st : service) :
  rejected (fst (App.handle parseFloat Date_parse float_add float_div cfg now req st)) ->
  snd (App.handle parseFloat Date_parse float_add float_div cfg now req st) = st.
Proof.
  destruct req; unfold_handlers; cbv zeta; repeat rejection_step.
Qed.

Lemma rejected_requests_leave_the_service_witness :
  snd (App.handle Scenario.no_float Date_parse_date_only Scenario.no_arith Scenario.no_arith
         Scenario.server Scenario.noon
         (App.GetApod (Apod.mkQuery (Some "tomorrow") None None None)) Scenario.fresh)
  = Scenario.fresh.
Proof.
  apply (rejected_requests_leave_the_service Scenario.no_float Date_parse_date_only
           Scenario.no_arith Scenario.no_arith Scenario.server Scenario.noon
           (App.GetApod (Apod.mkQuery (Some "tomorrow") None None None)) Scenario.fresh).
  eexists. reflexivity.
Defined.

(** ** The log of upstream requests *)

Lemma appended_refl (n : nat) (st : service) : appended n st st.
Proof. exists []. split; [symmetry; apply app_nil_r | cbn; lia]. Qed.

Lemma appended_trans (a b : nat) (st0 st1 st2 : service) :
  appended a st0 st1 -> appended b st1 st2 -> appended (a + b) st0 st2.
Proof.
  intros (n1 & E1 & L1) (n2 & E2 & L2). exists (n1 ++ n2).
  rewrite E2, E1, <- app_assoc, length_app. split; [reflexivity | lia].
Qed.

Lemma appended_weaken (a b : nat) (st0 st1 : service) :
  (a <= b)%nat -> appended a st0 st1 -> appended b st0 st1.
Proof. intros H (n & E & L). exists n. split; [exact E | lia]. Qed.

(** A call of the service layer adds at most its own request. *)
Lemma makeRequest_log (cfg : config) (now : Z) (endpoint : string)
    (params : list (string * param)) (cacheKey : string) (cacheTTL : option Z)
    (st st' : service) (res : jsres payload) :
  makeRequest cfg now endpoint params cacheKey cacheTTL st = (res, st') ->
  requests st' = requests st \/ requests st' = requests st ++ [(endpoint, params)].
Proof.
  unfold makeRequest.
  destruct (NodeCache.get _ _ _) as [[data|] c1];
    [destruct (payload_truthy data); [intros [= _ <-]; now left|]|];
    (destruct (upstream cfg _ endpoint params); intros [= _ <-]; now right).
Qed.

Lemma makeRequest_appended (cfg : config) (now : Z) (endpoint : string)
    (params : list (string * param)) (cacheKey : string) (cacheTTL : option Z)
    (st st' : service) (res : jsres payload) :
  makeRequest cfg now endpoint params cacheKey cacheTTL st = (res, st') ->
  appended 1 st st'.
Proof.
  intros H. apply makeRequest_log in H as [E|E].
  - exists []. rewrite E, app_nil_r. split; [reflexivity | cbn; lia].
  - eexists. split; [exact E | cbn; lia].
Qed.

Ltac log_step :=
  match goal with
  | |- appended _ ?st (snd (_, ?st)) => apply appended_refl
  | H : appended 1 ?st ?st1 |- appended 2 ?st (snd (_, ?st1)) =>
      exact (appended_weaken 1 2 st st1 ltac:(lia) H)
  | H1 : appended 1 ?st ?st1, H2 : appended 1 ?st1 ?st2
    |- appended 2 ?st (snd (_, ?st2)) =>
      exact (appended_trans 1 1 st st1 st2 H1 H2)
  | |- appended _ _ (snd (if ?c then _ else _)) => destruct c
  | |- appended _ _ (snd (match ?x with _ => _ end)) =>
      lazymatch type of x with
      | prod (jsres payload) service =>
          let E := fresh "E" in
          destruct x as [? ?] eqn:E; unfold_service E; apply makeRequest_appended in E
      | _ => first [is_var x; destruct x | destruct x eqn:?]
      end
  end.

(** X17. Serving a request, the gateway asks the upstream at most twice, and
    what it asks is added at the end of the log: earlier requests stay. *)
Theorem at_most_two_upstream_requests (parseFloat : string -> number)
    (Date_parse : string -> option Z) (float_add float_div : number -> number -> number)
    (cfg : config) (now : Z) (req : App.request) (st : service) :
  appended 2 st (snd (App.handle parseFloat Date_parse float_add float_div cfg now req st)).
Proof.
  destruct req; unfold_handlers; cbv zeta; repeat log_step.
Qed.

(** ** What the photo route sends upstream *)

Lemma In_add_if (k k' : string) (v : param) (o : option param)
    (params : list (string * param)) :
  In (k, v) (add_if k' o params) ->
  In (k, v) params \/ (k = k' /\ o = Some v /\ param_truthy v = true).
Proof.
  unfold add_if. destruct o as [p|]; [|now left].
  destruct (param_truthy p) eqn:T; [|now left].
  intros H. apply in_app_or in H as [H|[[= <- <-]|[]]]; [now left | now right].
Qed.

Lemma call_includes_array (elems : list value) (x : string) :
  call_includes (VArr elems) x = Ret true -> In (VStr x) elems.
Proof.
  cbn [call_includes]. intros [= H]. apply existsb_exists in H as [e [Hin He]].
  destruct e; try discriminate. apply String.eqb_eq in He. now subst.
Qed.

(** The camera the photo routes let through is one of the rover's. *)
Lemma check_camera_passed (rover cam : string) :
  Mars.list_includes Mars.VALID_ROVERS (toLowerCase rover) = true ->
  cam <> "" ->
  Mars.check_camera rover (Some cam) = None ->
  exists cameras,
    get_property Mars.VALID_CAMERAS (toLowerCase rover) = VArr cameras
    /\ In (VStr (toUpperCase cam)) cameras.
Proof.
  intros Hrover Hcam. unfold Mars.check_camera. cbn [given arg].
  destruct (String.eqb_spec cam ""); [contradiction|]. cbn [negb].
  unfold validateCamera. cbn [truthy typeof].
  destruct (String.eqb_spec cam ""); [contradiction|].
  change (("string" =? "string")%string) with true. cbn [negb orb call_toLowerCase bind].
  destruct (VALID_ROVERS_cases _ Hrover) as [-> | [-> | [-> | ->]]];
    match goal with
    | |- context [get_property Mars.VALID_CAMERAS (toLowerCase ?r)] =>
        let v := eval vm_compute in (get_property Mars.VALID_CAMERAS (toLowerCase r)) in
        change (get_property Mars.VALID_CAMERAS (toLowerCase r)) with v;
        let w := eval vm_compute in (get_property Mars.VALID_CAMERAS r) in
        change (get_property Mars.VALID_CAMERAS r) with w
    end;
    cbn [truthy negb];
    (destruct (call_includes _ _) as [[|]|e] eqn:C;
     [intros _; eexists; split; [reflexivity | exact (call_includes_array _ _ C)]
     | destruct (Mars.cameras_of _); discriminate
     | discriminate]).
Qed.

(** X18. Whatever [GET /mars/:rover/photos] asks upstream has passed its
    validation: the request goes to the photos of a rover of the fixed list,
    a camera it names is one of that rover's cameras, a sol it names was
    accepted by [validateSol] and an earth date by [validateDate]. *)
Theorem photo_requests_are_validated (cfg : config) (now : Z) (rover : string)
    (q : Mars.photos_query) (st : service) :
  exists new,
    requests (snd (Mars.get_photos cfg now rover q st)) = requests st ++ new
    /\ forall endpoint params, In (endpoint, params) new ->
         In (toLowerCase rover) Mars.VALID_ROVERS
         /\ endpoint = "/mars-photos/api/v1/rovers/" +:+ toLowerCase rover +:+ "/photos"
         /\ (forall c, In ("camera", PStr c) params ->
               exists cameras,
                 get_property Mars.VALID_CAMERAS (toLowerCase rover) = VArr cameras
                 /\ In (VStr c) cameras)
         /\ (forall s, In ("sol", PStr s) params -> validateSol s = true)
         /\ (forall d, In ("earth_date", PStr d) params ->
               validateDate (tza cfg) (VStr d) = true).
Proof.
  assert (Nothing : exists new : list (string * list (string * param)),
            requests st = requests st ++ new
            /\ forall endpoint params, In (endpoint, params) new ->
                 In (toLowerCase rover) Mars.VALID_ROVERS
                 /\ endpoint
                    = "/mars-photos/api/v1/rovers/" +:+ toLowerCase rover +:+ "/photos"
                 /\ (forall c, In ("camera", PStr c) params ->
                       exists cameras,
                         get_property Mars.VALID_CAMERAS (toLowerCase rover) = VArr cameras
                         /\ In (VStr c) cameras)
                 /\ (forall s, In ("sol", PStr s) params -> validateSol s = true)
                 /\ (forall d, In ("earth_date", PStr d) params ->
                       validateDate (tza cfg) (VStr d) = true))
    by (exists []; split; [symmetry; apply app_nil_r | intros ? ? []]).
  unfold Mars.get_photos.
  destruct (Mars.list_includes Mars.VALID_ROVERS (toLowerCase rover)) eqn:Hrover;
    cbn [negb]; [|exact Nothing].
  destruct (negb (given (Mars.sol q)) && negb (given (Mars.earth_date q)));
    [exact Nothing|].
  destruct (given (Mars.sol q) && negb (validateSol (default "" (Mars.sol q)))) eqn:Hsol;
    [exact Nothing|].
  destruct (given (Mars.earth_date q)
            && negb (validateDate (tza cfg) (arg (Mars.earth_date q)))) eqn:Hdate;
    [exact Nothing|].
  destruct (Mars.check_camera rover (Mars.camera q)) as [o|] eqn:Hcamera;
    [exact Nothing|].
  destruct (parseInt_string _) as [n|]; [|exact Nothing].
  destruct (n <? 1); [exact Nothing|].
  destruct (getMarsRoverPhotos _ _ _ _ _ _ _ _) as [res st'] eqn:E.
  unfold getMarsRoverPhotos in E. apply makeRequest_log in E.
  assert (R : requests (snd (match res with
                             | Ret data =>
                                 (success (json_of_payload data)
                                    ([("endpoint", VStr ("mars/" +:+ rover +:+ "/photos"));
                                      ("rover", VStr (toLowerCase rover));
                                      ("sol", or_null (Mars.sol q));
                                      ("earth_date", or_null (Mars.earth_date q));
                                      ("camera", or_null (Mars.upper (Mars.camera q)));
                                      ("page", VNum (Int n))] ++ stamp now), st')
                             | Throw error => (Next error, st')
                             end)) = requests st') by (destruct res; reflexivity).
  rewrite R. destruct E as [E|E]; rewrite E; [exact Nothing|].
  eexists. split; [reflexivity|].
  intros endpoint params [[= <- <-]|[]].
  split; [apply existsb_exists in Hrover as [r [Hin Hr]];
          apply String.eqb_eq in Hr; now subst|].
  split; [reflexivity|].
  split; [|split].
  - intros c Hc.
    apply In_add_if in Hc as [Hc|(_ & Hc & T)].
    { apply In_add_if in Hc as [Hc|([=] & _)].
      apply In_add_if in Hc as [Hc|([=] & _)].
      destruct Hc as [[=]|[]]. }
    destruct (Mars.camera q) as [cam|]; [|discriminate]. cbn in Hc.
    injection Hc as <-.
    apply (check_camera_passed rover cam Hrover); [|exact Hcamera].
    intros ->. discriminate T.
  - intros s Hs.
    apply In_add_if in Hs as [Hs|([=] & _)].
    apply In_add_if in Hs as [Hs|([=] & _)].
    apply In_add_if in Hs as [Hs|(_ & Hs & T)]; [destruct Hs as [[=]|[]]|].
    destruct (Mars.sol q) as [sol|]; [|discriminate]. cbn in Hs. injection Hs as <-.
    cbn [given default from_option param_truthy] in *. unfold id in Hsol.
    rewrite T in Hsol. now destruct (validateSol sol).
  - intros d Hd.
    apply In_add_if in Hd as [Hd|([=] & _)].
    apply In_add_if in Hd as [Hd|(_ & Hd & T)].
    { apply In_add_if in Hd as [Hd|([=] & _)]. destruct Hd as [[=]|[]]. }
    destruct (Mars.earth_date q) as [date|]; [|discriminate]. cbn in Hd.
    injection Hd as <-.
    cbn [given arg param_truthy] in *.
    rewrite T in Hdate. now destruct (validateDate (tza cfg) (VStr date)).
Qed.

(** ** Payloads that are not cached *)

(** X19. A payload that is falsy ([null], [false], [0], the empty string) is
    stored but never served from the cache: the same request asks the
    upstream again, whenever it is made. *)
Theorem falsy_payload_is_asked_again (cfg : config) (t0 t1 : Z) (endpoint : string)
    (params : list (string * param)) (cacheKey : string) (cacheTTL : option Z)
    (json : value) :
  upstream cfg 0 endpoint params = Resolved (Opaque json) ->
  truthy json = false ->
  fst (makeRequest cfg t0 endpoint params cacheKey cacheTTL (start cfg)) = Ret (Opaque json)
  /\ requests (snd (makeRequest cfg t1 endpoint params cacheKey cacheTTL
                      (snd (makeRequest cfg t0 endpoint params cacheKey cacheTTL
                              (start cfg)))))
     = [(endpoint, params); (endpoint, params)].
Proof.
  intros Hup Hfalsy.
  set (key := if negb (String.eqb cacheKey "") then cacheKey
              else endpoint +:+ "_" +:+ JSON_stringify params).
  assert (E0 : exists c,
             makeRequest cfg t0 endpoint params cacheKey cacheTTL (start cfg)
             = (Ret (Opaque json), mkService c [(endpoint, params)])
             /\ exists e, NodeCache.data c !! key = Some e
                          /\ NodeCache.v e = Opaque json).
  { unfold makeRequest, NodeCache.get. fold key.
    cbn [start cache requests NodeCache.create NodeCache.data].
    rewrite lookup_empty. cbn [List.length app]. rewrite Hup.
    eexists. split; [reflexivity|].
    cbn [NodeCache.set NodeCache.data]. rewrite lookup_insert_eq. eauto. }
  destruct E0 as (c & -> & e & He & Hv). cbn [fst snd]. split; [reflexivity|].
  unfold makeRequest, NodeCache.get. fold key. cbn [cache requests]. rewrite He.
  destruct (NodeCache.expired t1 e).
  - destruct (upstream cfg (List.length [(endpoint, params)]) endpoint params);
      reflexivity.
  - rewrite Hv. cbn [payload_truthy]. rewrite Hfalsy.
    destruct (upstream cfg (List.length [(endpoint, params)]) endpoint params);
      reflexivity.
Qed.

Lemma falsy_payload_is_asked_again_witness :
  requests
    (snd (makeRequest (mkConfig (fun _ _ _ => Resolved (Opaque VNull)) None None None None utc)
            (Scenario.noon + 1000) "/planetary/apod" [] "" None
            (snd (makeRequest
                    (mkConfig (fun _ _ _ => Resolved (Opaque VNull)) None None None None utc)
                    Scenario.noon "/planetary/apod" [] "" None
                    (start (mkConfig (fun _ _ _ => Resolved (Opaque VNull))
                              None None None None utc))))))
  = [("/planetary/apod", []); ("/planetary/apod", [])].
Proof.
  apply (falsy_payload_is_asked_again
           (mkConfig (fun _ _ _ => Resolved (Opaque VNull)) None None None None utc)
           Scenario.noon (Scenario.noon + 1000) "/planetary/apod" [] "" None VNull);
    reflexivity.
Defined.

(** ** The health check *)

(** X20. [GET /health] always answers 200 with [success: true]: a failing
    upstream shows as [services.nasa_api] being [degraded], with a warning,
    never as a failure of the check. Its probe is a request for the picture
    of the day like any other, and the hit rate it reports is a number,
    never [NaN]. *)
Theorem health_check_answers (float_div : number -> number -> number) (cfg : config)
    (now : Z) (uptime : number) (st : service) :
  status_of (fst (Health.get_health float_div cfg now uptime st)) = 200
  /\ field "success" (body_of (fst (Health.get_health float_div cfg now uptime st)))
     = VBool true
  /\ snd (Health.get_health float_div cfg now uptime st)
     = snd (getAPOD cfg now None None None None st)
  /\ (let data := field "data" (body_of (fst (Health.get_health float_div cfg now uptime st))) in
      match fst (getAPOD cfg now None None None None st) with
      | Ret _ =>
          field "nasa_api" (field "services" data) = VStr "operational"
          /\ field "warnings" data = VUndef
      | Throw _ =>
          field "nasa_api" (field "services" data) = VStr "degraded"
          /\ field "warnings" data = VArr [VStr "NASA API connectivity issues detected"]
      end
      /\ exists rate, field "hitRate" (field "cache" data) = VNum rate /\ rate <> NaN).
Proof.
  unfold Health.get_health.
  destruct (getAPOD cfg now None None None None st) as [probe st1].
  destruct (getCacheStats st1) as [keys stats].
  assert (R : Health.hitRate float_div stats <> NaN).
  { unfold Health.hitRate. cbv zeta.
    destruct (float_div _ _) as [| |q|]; cbn [truthy]; try discriminate.
    destruct (negb _); discriminate. }
  destruct probe; cbn [fst snd status_of body_of]; repeat split; eauto.
Qed.

(** X21. Outside production, [POST /health/cache/clear] empties the cache of
    the service: whatever was cached, the next request asks the upstream. *)
Theorem cleared_service_cache_asks_again (cfg : config) (now : Z) (endpoint : string)
    (params : list (string * param)) (cacheKey : string) (cacheTTL : option Z)
    (st : service) :
  env_is cfg "production" = false ->
  status_of (fst (Health.post_cache_clear cfg st)) = 200
  /\ requests (snd (makeRequest cfg now endpoint params cacheKey cacheTTL
                      (snd (Health.post_cache_clear cfg st))))
     = requests st ++ [(endpoint, params)].
Proof.
  intros Henv. unfold Health.post_cache_clear. rewrite Henv. cbn [fst snd status_of].
  split; [reflexivity|].
  unfold makeRequest, clearCache, NodeCache.get, NodeCache.flushAll.
  cbn [cache requests NodeCache.data]. rewrite lookup_empty.
  destruct (upstream cfg _ endpoint params); reflexivity.
Qed.

Lemma cleared_service_cache_asks_again_witness :
  requests
    (snd (makeRequest Scenario.server (Scenario.noon + 2000) "/planetary/apod"
            [("date", PStr "2024-01-01")] "" None
            (snd (Health.post_cache_clear Scenario.server
                    (snd (Apod.get_root Scenario.server Scenario.noon Scenario.apod_query
                            Scenario.fresh))))))
  = [("/planetary/apod", [("date", PStr "2024-01-01")]);
     ("/planetary/apod", [("date", PStr "2024-01-01")])].
Proof.
  apply (proj2 (cleared_service_cache_asks_again Scenario.server (Scenario.noon + 2000)
                  "/planetary/apod" [("date", PStr "2024-01-01")] "" None
                  (snd (Apod.get_root Scenario.server Scenario.noon Scenario.apod_query
                          Scenario.fresh))
                  eq_refl)).
Defined.

(** In production the cache of the service is left alone. *)
Lemma service_cache_is_kept_in_production (cfg : config) (st : service) :
  env_is cfg "production" = true ->
  status_of (fst (Health.post_cache_clear cfg st)) = 403
  /\ snd (Health.post_cache_clear cfg st) = st.
Proof. intros H. unfold Health.post_cache_clear. rewrite H. split; reflexivity. Qed.

(** ** The image cache of the proxy *)

(** X22. An image the proxy fetched is served from its cache for the next
    24 hours: the same bytes and content type, marked [HIT], and nothing is
    fetched again. *)
Theorem proxied_image_is_cached (URL_hostname : string -> option string)
    (fetch : nat -> string -> Proxy.fetch_result) (t0 t1 : Z)
    (url hostname : string) (content_type : option string) (bytes : string) :
  url <> "" ->
  URL_hostname url = Some hostname ->
  Proxy.isAllowedDomain hostname = true ->
  fetch 0%nat url = Proxy.Fetched content_type bytes ->
  t1 <= t0 + 86400 * 1000 ->
  exists contentType,
    fst (Proxy.get_image URL_hostname fetch t0 (Some url) Proxy.start)
    = Respond (SendResponse (Proxy.image_headers contentType bytes "MISS") bytes)
    /\ fst (Proxy.get_image URL_hostname fetch t1 (Some url)
              (snd (Proxy.get_image URL_hostname fetch t0 (Some url) Proxy.start)))
       = Respond (SendResponse (Proxy.image_headers contentType bytes "HIT") bytes)
    /\ Proxy.fetched
         (snd (Proxy.get_image URL_hostname fetch t1 (Some url)
                 (snd (Proxy.get_image URL_hostname fetch t0 (Some url) Proxy.start))))
       = [url].
Proof.
  intros Hurl Hhost Hallowed Hfetch Ht1.
  set (contentType := match content_type with
                      | Some ct => if String.eqb ct "" then "image/jpeg" else ct
                      | None => "image/jpeg"
                      end).
  exists contentType.
  assert (E0 : Proxy.get_image URL_hostname fetch t0 (Some url) Proxy.start
               = (Respond (SendResponse (Proxy.image_headers contentType bytes "MISS") bytes),
                  Proxy.mkState
                    (NodeCache.set t0 ("image_" +:+ Proxy.base64 url)
                       (Proxy.mkImage bytes contentType) None
                       (NodeCache.mkCache 86400 ∅ (NodeCache.mkStats 0 1 0)))
                    [url])).
  { unfold Proxy.get_image. cbn [given default from_option]. unfold id.
    destruct (String.eqb_spec url ""); [contradiction|]. cbn [negb].
    rewrite Hhost, Hallowed. cbn [negb].
    unfold NodeCache.get, Proxy.start, NodeCache.create.
    cbn [Proxy.imageCache Proxy.fetched NodeCache.data]. rewrite lookup_empty.
    cbn [List.length app]. rewrite Hfetch. reflexivity. }
  rewrite E0. cbn [fst snd]. split; [reflexivity|].
  unfold Proxy.get_image. cbn [given default from_option]. unfold id.
  destruct (String.eqb_spec url ""); [contradiction|]. cbn [negb].
  rewrite Hhost, Hallowed. cbn [negb].
  unfold NodeCache.get, NodeCache.set.
  cbn [Proxy.imageCache Proxy.fetched NodeCache.data NodeCache.stdTTL default from_option].
  unfold id. rewrite lookup_insert_eq.
  unfold NodeCache.expired. cbn [NodeCache.t NodeCache.v Z.eqb].
  destruct (Z.ltb_spec (t0 + 86400 * 1000) t1); [lia|].
  rewrite andb_false_r. split; reflexivity.
Qed.

Lemma proxied_image_is_cached_witness :
  exists contentType,
    fst (Proxy.get_image Proxy.simple_hostname Scenario.jpeg Scenario.noon
           (Some Scenario.picture_url) Proxy.start)
    = Respond (SendResponse (Proxy.image_headers contentType "JFIF" "MISS") "JFIF")
    /\ fst (Proxy.get_image Proxy.simple_hostname Scenario.jpeg (Scenario.noon + 1000)
              (Some Scenario.picture_url)
              (snd (Proxy.get_image Proxy.simple_hostname Scenario.jpeg Scenario.noon
                      (Some Scenario.picture_url) Proxy.start)))
       = Respond (SendResponse (Proxy.image_headers contentType "JFIF" "HIT") "JFIF")
    /\ Proxy.fetched
         (snd (Proxy.get_image Proxy.simple_hostname Scenario.jpeg (Scenario.noon + 1000)
                 (Some Scenario.picture_url)
                 (snd (Proxy.get_image Proxy.simple_hostname Scenario.jpeg Scenario.noon
                         (Some Scenario.picture_url) Proxy.start))))
       = [Scenario.picture_url].
Proof.
  apply (proxied_image_is_cached Proxy.simple_hostname Scenario.jpeg Scenario.noon
           (Scenario.noon + 1000) Scenario.picture_url "apod.nasa.gov"
           (Some "image/jpeg") "JFIF");
    [discriminate | reflexivity | reflexivity | reflexivity | lia].
Defined.

(** ** Cache keys of the proxy: base64 *)

(** The character of a base64 digit. *)
Lemma base64_digit_code (n : N) :
  (n < 64)%N ->
  N_of_ascii (Proxy.base64_digit n)
  = (if n <? 26 then n + 65 else if n <? 52 then n + 71 else if n <? 62 then n - 4
     else if n =? 62 then 43 else 47)%N.
Proof.
  intros H.
  assert (C : forallb (fun i =>
                N_of_ascii (Proxy.base64_digit i)
                =? (if i <? 26 then i + 65 else if i <? 52 then i + 71
                    else if i <? 62 then i - 4 else if i =? 62 then 43 else 47))%N
                (map N.of_nat (seq 0 64)) = true) by (vm_compute; reflexivity).
  rewrite forallb_forall in C. apply N.eqb_eq, C, in_map_iff.
  exists (N.to_nat n). split; [lia | apply in_seq; lia].
Qed.

Lemma base64_digit_inj (n m : N) :
  (n < 64)%N -> (m < 64)%N -> Proxy.base64_digit n = Proxy.base64_digit m -> n = m.
Proof.
  intros Hn Hm E. apply (f_equal N_of_ascii) in E.
  rewrite !base64_digit_code in E by assumption.
  destruct (N.ltb_spec n 26), (N.ltb_spec n 52), (N.ltb_spec n 62), (N.eqb_spec n 62),
    (N.ltb_spec m 26), (N.ltb_spec m 52), (N.ltb_spec m 62), (N.eqb_spec m 62); lia.
Qed.

(** The padding character is no digit. *)
Lemma base64_digit_not_pad (n : N) : (n < 64)%N -> Proxy.base64_digit n <> "="%char.
Proof.
  intros Hn E. apply (f_equal N_of_ascii) in E.
  rewrite base64_digit_code in E by assumption. cbn in E.
  destruct (N.ltb_spec n 26), (N.ltb_spec n 52), (N.ltb_spec n 62), (N.eqb_spec n 62); lia.
Qed.

Lemma N_of_ascii_inj (a b : ascii) : N_of_ascii a = N_of_ascii b -> a = b.
Proof.
  intros E. rewrite <- (ascii_N_embedding a), <- (ascii_N_embedding b). now rewrite E.
Qed.

Ltac euclid a b :=
  let q := fresh "q" in
  let r := fresh "r" in
  pose proof (N.div_mod' a b);
  pose proof (N.mod_lt a b ltac:(lia));
  set (q := (a / b)%N) in *; set (r := (a mod b)%N) in *; clearbody q r.

(** The four digits of three bytes, and the bytes from the digits. *)
Lemma sextets_bounded (x y z : N) :
  (x < 256 -> y < 256 -> z < 256 ->
   x / 4 < 64 /\ x mod 4 * 16 + y / 16 < 64 /\ y mod 16 * 4 + z / 64 < 64
   /\ z mod 64 < 64 /\ x mod 4 * 16 < 64 /\ y mod 16 * 4 < 64)%N.
Proof. intros. euclid x 4%N. euclid y 16%N. euclid z 64%N. lia. Qed.

Lemma sextets_inj (x y z x' y' z' : N) :
  (x < 256 -> y < 256 -> z < 256 -> x' < 256 -> y' < 256 -> z' < 256 ->
   x / 4 = x' / 4 ->
   x mod 4 * 16 + y / 16 = x' mod 4 * 16 + y' / 16 ->
   y mod 16 * 4 + z / 64 = y' mod 16 * 4 + z' / 64 ->
   z mod 64 = z' mod 64 ->
   x = x' /\ y = y' /\ z = z')%N.
Proof.
  intros. euclid x 4%N. euclid y 16%N. euclid z 64%N.
  euclid x' 4%N. euclid y' 16%N. euclid z' 64%N. lia.
Qed.

Ltac sextet_bound :=
  match goal with
  | |- (_ < 64)%N =>
      first [ apply (sextets_bounded _ 0 0); first [apply N_ascii_bounded | reflexivity]
            | apply (sextets_bounded _ _ 0); first [apply N_ascii_bounded | reflexivity]
            | apply (sextets_bounded 0 _ 0); first [apply N_ascii_bounded | reflexivity]
            | apply (sextets_bounded 0 _ _); first [apply N_ascii_bounded | reflexivity]
            | apply (sextets_bounded 0 0 _); first [apply N_ascii_bounded | reflexivity] ]
  end.

Ltac digits_differ :=
  exfalso;
  match goal with
  | H : Proxy.base64_digit ?n = "="%char |- _ =>
      apply (base64_digit_not_pad n); [sextet_bound | exact H]
  | H : "="%char = Proxy.base64_digit ?n |- _ =>
      apply (base64_digit_not_pad n); [sextet_bound | symmetry; exact H]
  end.

Ltac digits_agree :=
  repeat match goal with
         | H : Proxy.base64_digit _ = Proxy.base64_digit _ |- _ =>
             apply base64_digit_inj in H; [|sextet_bound..]
         end.

(** [Buffer.from(s).toString('base64')] tells strings apart. *)
Lemma base64_inj (a b : string) : Proxy.base64 a = Proxy.base64 b -> a = b.
Proof.
  remember (String.length a) as n eqn:Hn.
  assert (Hle : (String.length a <= n)%nat) by lia. clear Hn.
  revert a b Hle. induction n as [n IH] using (well_founded_induction lt_wf).
  intros a b Hle.
  destruct a as [|x [|y [|z a]]], b as [|x' [|y' [|z' b]]];
    cbn [Proxy.base64]; cbv zeta; intros E; try discriminate E;
    try reflexivity;
    repeat match goal with
           | H : String _ _ = String _ _ |- _ => injection H as ? H
           end;
    try solve [digits_differ]; digits_agree.
  - destruct (sextets_inj (N_of_ascii x) 0 0 (N_of_ascii x') 0 0) as (Ex & _);
      try apply N_ascii_bounded; try reflexivity; try assumption;
      [cbn; lia|].
    f_equal. now apply N_of_ascii_inj.
  - destruct (sextets_inj (N_of_ascii x) (N_of_ascii y) 0 (N_of_ascii x') (N_of_ascii y') 0)
      as (Ex & Ey & _);
      try apply N_ascii_bounded; try reflexivity; try assumption;
      [cbn; lia|].
    f_equal; [|f_equal]; now apply N_of_ascii_inj.
  - destruct (sextets_inj (N_of_ascii x) (N_of_ascii y) (N_of_ascii z)
                (N_of_ascii x') (N_of_ascii y') (N_of_ascii z')) as (Ex & Ey & Ez);
      try apply N_ascii_bounded; try assumption.
    assert (a = b).
    { apply (IH (String.length a)); [cbn [String.length] in Hle; lia | lia | assumption]. }
    subst b. f_equal; [|f_equal; [|f_equal]]; now apply N_of_ascii_inj.
Qed.

(** X23. Images are cached per URL: after one image was fetched and cached, a
    request for any other URL is not answered with it; the other URL is
    fetched. *)
Theorem images_are_cached_per_url (URL_hostname : string -> option string)
    (fetch : nat -> string -> Proxy.fetch_result) (t0 t1 : Z)
    (url1 url2 host1 host2 : string) (content_type : option string) (bytes : string) :
  url1 <> "" -> url2 <> "" -> url1 <> url2 ->
  URL_hostname url1 = Some host1 -> Proxy.isAllowedDomain host1 = true ->
  URL_hostname url2 = Some host2 -> Proxy.isAllowedDomain host2 = true ->
  fetch 0%nat url1 = Proxy.Fetched content_type bytes ->
  Proxy.fetched
    (snd (Proxy.get_image URL_hostname fetch t1 (Some url2)
            (snd (Proxy.get_image URL_hostname fetch t0 (Some url1) Proxy.start))))
  = [url1; url2]
  /\ forall headers data,
       fst (Proxy.get_image URL_hostname fetch t1 (Some url2)
              (snd (Proxy.get_image URL_hostname fetch t0 (Some url1) Proxy.start)))
       = Respond (SendResponse headers data) ->
       exists ct, fetch 1%nat url2 = Proxy.Fetched ct data.
Proof.
  intros Hurl1 Hurl2 Hne Hhost1 Hallowed1 Hhost2 Hallowed2 Hfetch.
  assert (K : "image_" +:+ Proxy.base64 url1 <> "image_" +:+ Proxy.base64 url2).
  { intros E. apply Hne, base64_inj. cbn in E. now injection E. }
  assert (E0 : exists img,
             snd (Proxy.get_image URL_hostname fetch t0 (Some url1) Proxy.start)
             = Proxy.mkState
                 (NodeCache.set t0 ("image_" +:+ Proxy.base64 url1) img None
                    (NodeCache.mkCache 86400 ∅ (NodeCache.mkStats 0 1 0)))
                 [url1]).
  { unfold Proxy.get_image. cbn [given default from_option]. unfold id.
    destruct (String.eqb_spec url1 ""); [contradiction|]. cbn [negb].
    rewrite Hhost1, Hallowed1. cbn [negb].
    unfold NodeCache.get, Proxy.start, NodeCache.create.
    cbn [Proxy.imageCache Proxy.fetched NodeCache.data]. rewrite lookup_empty.
    cbn [List.length app]. rewrite Hfetch. eexists. reflexivity. }
  destruct E0 as [img ->].
  unfold Proxy.get_image. cbn [given default from_option]. unfold id.
  destruct (String.eqb_spec url2 ""); [contradiction|]. cbn [negb].
  rewrite Hhost2, Hallowed2. cbn [negb].
  unfold NodeCache.get, NodeCache.set.
  cbn [Proxy.imageCache Proxy.fetched NodeCache.data NodeCache.stdTTL default from_option].
  rewrite lookup_insert_ne, lookup_empty by exact K.
  cbn [List.length app].
  destruct (fetch 1%nat url2) as [ct data|e]; cbn [fst snd Proxy.fetched app].
  - split; [reflexivity|]. intros headers data' [= _ <-]. eauto.
  - split; [reflexivity|]. intros headers data' H. exfalso.
    unfold Proxy.image_error in H.
    destruct (_ || _); [discriminate H|].
    destruct (option_map _ _) as [s|]; [destruct (s =? 404)|]; discriminate H.
Qed.

Lemma images_are_cached_per_url_witness :
  Proxy.fetched
    (snd (Proxy.get_image Proxy.simple_hostname Scenario.jpeg (Scenario.noon + 1000)
            (Some "https://mars.nasa.gov/rover.jpg")
            (snd (Proxy.get_image Proxy.simple_hostname Scenario.jpeg Scenario.noon
                    (Some Scenario.picture_url) Proxy.start))))
  = [Scenario.picture_url; "https://mars.nasa.gov/rover.jpg"].
Proof.
  apply (images_are_cached_per_url Proxy.simple_hostname Scenario.jpeg Scenario.noon
           (Scenario.noon + 1000) Scenario.picture_url "https://mars.nasa.gov/rover.jpg"
           "apod.nasa.gov" "mars.nasa.gov" (Some "image/jpeg") "JFIF");
    first [discriminate | reflexivity].
Defined.

(** X24. Outside production, [POST /proxy/cache/clear] empties the image
    cache: whatever was cached, the next request for an image fetches it. *)
Theorem cleared_image_cache_fetches_again (cfg : config)
    (URL_hostname : string -> option string) (fetch : nat -> string -> Proxy.fetch_result)
    (now : Z) (url hostname : string) (st : Proxy.state) :
  env_is cfg "production" = false ->
  url <> "" ->
  URL_hostname url = Some hostname ->
  Proxy.isAllowedDomain hostname = true ->
  Proxy.fetched (snd (Proxy.get_image URL_hostname fetch now (Some url)
                        (snd (Proxy.post_cache_clear cfg st))))
  = Proxy.fetched st ++ [url].
Proof.
  intros Henv Hurl Hhost Hallowed. unfold Proxy.post_cache_clear. rewrite Henv.
  cbn [snd]. unfold Proxy.get_image. cbn [given default from_option]. unfold id.
  destruct (String.eqb_spec url ""); [contradiction|]. cbn [negb].
  rewrite Hhost, Hallowed. cbn [negb].
  unfold NodeCache.get, NodeCache.flushAll.
  cbn [Proxy.imageCache Proxy.fetched NodeCache.data]. rewrite lookup_empty.
  destruct (fetch _ url); reflexivity.
Qed.

Lemma cleared_image_cache_fetches_again_witness :
  Proxy.fetched (snd (Proxy.get_image Proxy.simple_hostname Scenario.jpeg
                        (Scenario.noon + 2000) (Some Scenario.picture_url)
                        (snd (Proxy.post_cache_clear Scenario.server Scenario.proxy_used))))
  = Proxy.fetched Scenario.proxy_used ++ [Scenario.picture_url].
Proof.
  apply (cleared_image_cache_fetches_again Scenario.server Proxy.simple_hostname
           Scenario.jpeg (Scenario.noon + 2000) Scenario.picture_url "apod.nasa.gov"
           Scenario.proxy_used);
    first [discriminate | reflexivity].
Defined.

(** In production the cache is left alone. *)
Lemma image_cache_is_kept_in_production (cfg : config) (st : Proxy.state) :
  env_is cfg "production" = true ->
  status_of (fst (Proxy.post_cache_clear cfg st)) = 403
  /\ snd (Proxy.post_cache_clear cfg st) = st.
Proof. intros H. unfold Proxy.post_cache_clear. rewrite H. split; reflexivity. Qed.

(** ** The statistics of the image cache *)

(** Reading live entries leaves the entries and counts a hit for each. *)
Lemma measure_live (now : Z) (keys : list string) (c : NodeCache.cache Proxy.image)
    (total : Z) :
  (forall k, In k keys ->
     exists e, NodeCache.data c !! k = Some e /\ NodeCache.expired now e = false) ->
  snd (fold_left (Proxy.measure now) keys (total, c))
  = NodeCache.mkCache (NodeCache.stdTTL c) (NodeCache.data c)
      (NodeCache.mkStats
         (NodeCache.hits (NodeCache.getStats c) + Z.of_nat (List.length keys))
         (NodeCache.misses (NodeCache.getStats c))
         (NodeCache.keys (NodeCache.getStats c))).
Proof.
  revert c total. induction keys as [|k keys IH]; intros c total Hlive.
  - cbn. rewrite Z.add_0_r. destruct c as [ttl data [h m ks]]. reflexivity.
  - cbn [fold_left]. destruct (Hlive k (or_introl eq_refl)) as (e & Hk & He).
    unfold Proxy.measure at 2. cbn [fst snd]. unfold NodeCache.get. rewrite Hk, He.
    rewrite IH.
    + cbn [NodeCache.stdTTL NodeCache.data NodeCache.getStats NodeCache.count_hit
        NodeCache.hits NodeCache.misses NodeCache.keys List.length].
      do 2 f_equal. lia.
    + intros k' Hk'. cbn [NodeCache.data]. apply Hlive. now right.
Qed.

(** X25. [GET /proxy/cache/stats] reads every cached image to measure it, and
    the reads count: while no entry has expired, the statistics it reports,
    and leaves behind, have one more hit for each cached image. *)
Theorem cache_stats_count_their_own_reads (now : Z) (st : Proxy.state) :
  (forall k e, NodeCache.data (Proxy.imageCache st) !! k = Some e ->
     NodeCache.expired now e = false) ->
  let cached := Z.of_nat (List.length (NodeCache.key_list (Proxy.imageCache st))) in
  let before := NodeCache.getStats (Proxy.imageCache st) in
  let after :=
    NodeCache.mkStats (NodeCache.hits before + cached) (NodeCache.misses before)
      (NodeCache.keys before) in
  field "stats" (field "data" (body_of (fst (Proxy.get_cache_stats now st))))
  = Proxy.json_of_stats after
  /\ field "cached_images" (field "data" (body_of (fst (Proxy.get_cache_stats now st))))
     = VNum (Int cached)
  /\ NodeCache.getStats (Proxy.imageCache (snd (Proxy.get_cache_stats now st))) = after
  /\ NodeCache.data (Proxy.imageCache (snd (Proxy.get_cache_stats now st)))
     = NodeCache.data (Proxy.imageCache st).
Proof.
  intros Hlive. cbv zeta. unfold Proxy.get_cache_stats.
  pose proof (measure_live now (NodeCache.key_list (Proxy.imageCache st))
                (Proxy.imageCache st) 0) as M.
  destruct (fold_left _ _ _) as [total cache1]. cbn [snd] in M.
  rewrite M.
  - repeat split.
  - intros k Hk. unfold NodeCache.key_list in Hk.
    apply in_map_iff in Hk as [[k' e] [<- Hin]].
    apply list_elem_of_In, elem_of_map_to_list in Hin. cbn. eauto.
Qed.

Lemma cache_stats_count_their_own_reads_witness :
  NodeCache.getStats
    (Proxy.imageCache
       (snd (Proxy.get_cache_stats (Scenario.noon + 1000)
               (Proxy.mkState
                  (NodeCache.set Scenario.noon "image_aHR0cHM6Ly9hcG9kLm5hc2EuZ292L3guanBn"
                     (Proxy.mkImage "JFIF" "image/jpeg") None (NodeCache.create 86400))
                  ["https://apod.nasa.gov/x.jpg"]))))
  = NodeCache.mkStats 1 0 1.
Proof.
  apply (cache_stats_count_their_own_reads (Scenario.noon + 1000)
           (Proxy.mkState
              (NodeCache.set Scenario.noon "image_aHR0cHM6Ly9hcG9kLm5hc2EuZ292L3guanBn"
                 (Proxy.mkImage "JFIF" "image/jpeg") None (NodeCache.create 86400))
              ["https://apod.nasa.gov/x.jpg"])).
  intros k e H. cbn [Proxy.imageCache NodeCache.set NodeCache.data NodeCache.create] in H.
  apply lookup_insert_Some in H as [[_ <-]|[_ H]]; [reflexivity|].
  rewrite lookup_empty in H. discriminate H.
Defined.

(** ** Sorting by size *)

Lemma length_sort_insert {A : Type} (gt : A -> A -> bool) (x : A) (l : list A) :
  List.length (sort_insert gt x l) = S (List.length l).
Proof.
  induction l as [|h l IH]; cbn [sort_insert]; [reflexivity|].
  destruct (gt x h); cbn [List.length]; [now rewrite IH | reflexivity].
Qed.

Lemma length_sort {A : Type} (gt : A -> A -> bool) (l : list A) :
  List.length (sort gt l) = List.length l.
Proof.
  induction l as [|x l IH]; cbn [sort]; [reflexivity|].
  now rewrite length_sort_insert, IH.
Qed.

(** Sorted by a finite number, largest first: no element is smaller than one
    that comes after it. *)
Lemma sort_largest_first {A : Type} (key : A -> number) (l : list A) :
  (forall x, In x l -> exists q, key x = Fin q) ->
  StronglySorted (fun a b => num_lt (key a) (key b) = false)
    (sort (fun a b => num_lt (key a) (key b)) l).
Proof.
  intros Hfin. induction l as [|x l IH]; cbn [sort]; [constructor|].
  assert (Hfin' : forall y, In y l -> exists q, key y = Fin q)
    by (intros; apply Hfin; now right).
  specialize (IH Hfin').
  destruct (Hfin x (or_introl eq_refl)) as [qx Hx].
  assert (Hs : forall y, In y (sort (fun a b => num_lt (key a) (key b)) l) ->
                 exists q, key y = Fin q)
    by (intros y Hy; apply Hfin'; apply In_sort in Hy; exact Hy).
  revert IH Hs. generalize (sort (fun a b => num_lt (key a) (key b)) l). clear Hfin Hfin'.
  intros s. induction s as [|h s IHs]; intros Hsorted Hs; cbn [sort_insert].
  - repeat constructor.
  - apply StronglySorted_inv in Hsorted as [Hsorted Hh].
    destruct (Hs h (or_introl eq_refl)) as [qh Hqh].
    destruct (num_lt (key x) (key h)) eqn:L.
    + constructor; [apply IHs; [exact Hsorted | intros; apply Hs; now right]|].
      apply List.Forall_forall. intros y Hy. apply In_sort_insert in Hy as [->|Hy].
      * rewrite Hx, Hqh in *. apply num_lt_Fin in L. apply num_lt_Fin_false.
        now apply Qlt_le_weak.
      * rewrite List.Forall_forall in Hh. now apply Hh.
    + constructor; [constructor; assumption|].
      apply List.Forall_forall. intros y [<-|Hy]; [exact L|].
      rewrite List.Forall_forall in Hh. specialize (Hh y Hy).
      destruct (Hs y (or_intror Hy)) as [qy Hqy].
      rewrite Hx, Hqh, Hqy in *. apply num_lt_Fin_false in L, Hh.
      apply num_lt_Fin_false. now apply Qle_trans with qh.
Qed.

(** ** The hazardous objects of the day *)

(** X26. What [GET /neows/hazardous] lists, when the feed's diameters are
    finite numbers: exactly the objects of the feed flagged potentially
    hazardous, each as often as the feed has it, [count] being their
    number, and none before a larger one. *)
Theorem hazardous_listing (parseFloat : string -> number) (cfg : config) (now : Z)
    (st st' : service) (f : feed) :
  getNearEarthObjects cfg now (Some (toISODate now)) (Some (toISODate now)) true st
  = (Ret (Feed f), st') ->
  (forall o, In o (Neows.all_objects f) -> exists q, estimated_diameter_max o = Fin q) ->
  exists listed,
    field "hazardous_objects"
      (field "data" (answer (fst (Neows.get_hazardous parseFloat cfg now st))))
    = VArr (map (fun obj =>
                   VObj [("id", VStr (neo_id obj)); ("name", VStr (neo_name obj));
                         ("diameter_km", VNum (estimated_diameter_max obj));
                         ("close_approach_data",
                          VArr (map (fun a =>
                                       Neows.json_of_next (Some (Neows.project parseFloat a)))
                                  (close_approach_data obj)))])
              listed)
    /\ field "count"
         (field "data" (answer (fst (Neows.get_hazardous parseFloat cfg now st))))
       = VNum (Int (Z.of_nat (List.length listed)))
    /\ (forall o, In o listed
                  <-> In o (Neows.all_objects f)
                      /\ is_potentially_hazardous_asteroid o = true)
    /\ List.length listed
       = List.length (List.filter is_potentially_hazardous_asteroid (Neows.all_objects f))
    /\ StronglySorted
         (fun a b => num_lt (estimated_diameter_max a) (estimated_diameter_max b) = false)
         listed.
Proof.
  intros E Hfin. unfold Neows.get_hazardous. cbv zeta. rewrite E.
  eexists. split; [reflexivity|]. split; [reflexivity|]. split; [|split].
  - intros o. rewrite In_sort, filter_In. reflexivity.
  - apply length_sort.
  - apply (sort_largest_first estimated_diameter_max).
    intros o Ho. apply filter_In in Ho as [Ho _]. now apply Hfin.
Qed.

Lemma hazardous_listing_witness :
  exists listed,
    field "hazardous_objects"
      (field "data"
         (answer (fst (Neows.get_hazardous Scenario.no_float Scenario.server Scenario.noon
                         Scenario.fresh))))
    = VArr (map (fun obj =>
                   VObj [("id", VStr (neo_id obj)); ("name", VStr (neo_name obj));
                         ("diameter_km", VNum (estimated_diameter_max obj));
                         ("close_approach_data",
                          VArr (map (fun a =>
                                       Neows.json_of_next
                                         (Some (Neows.project Scenario.no_float a)))
                                  (close_approach_data obj)))])
              listed)
    /\ List.length listed = 1%nat.
Proof.
  destruct (hazardous_listing Scenario.no_float Scenario.server Scenario.noon Scenario.fresh
              (snd (getNearEarthObjects Scenario.server Scenario.noon
                      (Some (toISODate Scenario.noon)) (Some (toISODate Scenario.noon))
                      true Scenario.fresh))
              (mkFeed [("element_count", VNum (Int 1))] (VNum (Int 1))
                 [("2024-01-01", [Scenario.apophis])]))
    as (listed & L & _ & _ & N & _).
  - reflexivity.
  - intros o [<-|[]]. eexists. reflexivity.
  - exists listed. split; [exact L | exact N].
Defined.

(** ** The EPIC image records *)

Lemma first_word_of (day rest : string) :
  includes " " day = false -> Epic.first_word (day +:+ " " +:+ rest) = day.
Proof.
  induction day as [|c day IH]; [reflexivity|].
  cbn [includes]. intros H. apply orb_false_iff in H as [H1 H2].
  change (String c day +:+ " " +:+ rest) with (String c (day +:+ " " +:+ rest)).
  cbn [Epic.first_word]. unfold startsWith in H1. cbn [String.prefix] in H1.
  destruct (Ascii.eqb_spec c " ") as [->|_].
  - destruct day; discriminate H1.
  - now rewrite (IH H2).
Qed.

(** X27. The record [GET /epic/images] returns for an image of the day
    [yyyy-mm-dd]: [image_url] and [thumbnail_url] are the addresses of the
    image in NASA's archive, whatever the upstream record held under these
    names, and they end with the server's own API key; every other property
    of the upstream record, [metadata] apart, is passed on as it is. *)
Theorem epic_image_record (cfg : config) (type : string) (image : epic_image)
    (day time : string) :
  image_date image = day +:+ " " +:+ time ->
  includes " " day = false ->
  field "image_url" (Epic.enhance cfg type image)
  = VStr ("https://api.nasa.gov/EPIC/archive/" +:+ type +:+ "/" +:+ Epic.slashes day
          +:+ "/png/" +:+ image_name image +:+ ".png?api_key=" +:+ Epic.api_key cfg)
  /\ field "thumbnail_url" (Epic.enhance cfg type image)
     = VStr ("https://api.nasa.gov/EPIC/archive/" +:+ type +:+ "/" +:+ Epic.slashes day
             +:+ "/thumbs/" +:+ image_name image +:+ ".jpg?api_key=" +:+ Epic.api_key cfg)
  /\ forall k, k <> "image_url" -> k <> "thumbnail_url" -> k <> "metadata" ->
       field k (Epic.enhance cfg type image) = field k (VObj (image_props image)).
Proof.
  intros Hdate Hday. unfold Epic.enhance, Epic.with_urls, Epic.archive_url, field.
  rewrite Hdate, (first_word_of day time Hday).
  split; [|split].
  - rewrite own_property_set_property_ne, own_property_set_property_ne,
      own_property_set_property by discriminate. reflexivity.
  - rewrite own_property_set_property_ne, own_property_set_property by discriminate.
    reflexivity.
  - intros k H1 H2 H3.
    now rewrite !own_property_set_property_ne by assumption.
Qed.

Lemma epic_image_record_witness :
  field "image_url"
    (Epic.enhance Scenario.server "natural"
       (mkEpicImage [("image", VStr "epic_1b_20240101003633");
                     ("date", VStr "2024-01-01 00:31:45")]
          "2024-01-01 00:31:45" "epic_1b_20240101003633"))
  = VStr "https://api.nasa.gov/EPIC/archive/natural/2024/01/01/png/epic_1b_20240101003633.png?api_key=DEMO_KEY".
Proof.
  apply (proj1 (epic_image_record Scenario.server "natural"
                  (mkEpicImage [("image", VStr "epic_1b_20240101003633");
                                ("date", VStr "2024-01-01 00:31:45")]
                     "2024-01-01 00:31:45" "epic_1b_20240101003633")
                  "2024-01-01" "00:31:45" eq_refl eq_refl)).
Defined.

(** ** The EPIC dates *)

Lemma ceil_div_days (n : Z) : ceil_div (n * msPerDay) (1000 * 60 * 60 * 24) = n.
Proof.
  unfold ceil_div. change (1000 * 60 * 60 * 24) with msPerDay.
  replace (- (n * msPerDay)) with (- n * msPerDay) by ring.
  rewrite Z.div_mul by discriminate. ring.
Qed.

(** The days of a year before a date of it. *)
Lemma day_in_year (y m d : Z) :
  valid_date y m d = true ->
  0 <= days_from_civil y m d - days_from_civil y 1 1 <= 365.
Proof.
  intros V. apply valid_date_spec in V as [Hm Hd]. rewrite DaysInMonth_spec in Hd.
  assert (L : forall b : bool, (if b then 29 else 28) <= 29) by (intros []; lia).
  pose proof (L (InLeapYear y)).
  unfold days_from_civil. cbv zeta.
  assert (C : m = 1 \/ m = 2 \/ m = 3 \/ m = 4 \/ m = 5 \/ m = 6 \/ m = 7 \/ m = 8
              \/ m = 9 \/ m = 10 \/ m = 11 \/ m = 12) by lia.
  destruct C as [-> | [-> | [-> | [-> | [-> | [-> | [-> | [-> | [-> | [-> | [-> | ->]]]]]]]]]]];
    cbn [Z.leb Z.compare Pos.compare Pos.compare_cont Z.eqb Pos.eqb orb] in *;
    match goal with
    | |- context [(?a + 9) mod 12] =>
        let v := eval vm_compute in ((a + 9) mod 12) in
        change ((a + 9) mod 12) with v
    end;
    match goal with
    | |- context [(153 * ?a + 2) / 5] =>
        let v := eval vm_compute in ((153 * a + 2) / 5) in
        change ((153 * a + 2) / 5) with v
    end;
    change ((1 + 9) mod 12) with 10; change ((153 * 10 + 2) / 5) with 306;
    Z.to_euclidean_division_equations; lia.
Qed.

(** X28. On a server in UTC, [GET /epic/dates] describes a date
    [yyyy-mm-dd] of the calendar, of the year 100 or later, with the month
    by name and with its number in the year, from 1 for the first of January
    to 365 or 366 for the last of December. *)
Theorem epic_date_description (Date_parse : string -> option Z) (cfg : config)
    (date : string) (y m d : Z) :
  (forall t, tza cfg t = 0) ->
  Date_parse date = Date_parse_date_only date ->
  date_fields date = Some (y, m, d) ->
  valid_date y m d = true ->
  100 <= y ->
  Epic.describe Date_parse cfg date
  = VObj [("date", VStr date);
          ("formatted_date",
           VStr (nth (Z.to_nat (m - 1)) Epic.month_names "" +:+ " " +:+ show d +:+ ", "
                 +:+ show y));
          ("day_of_year",
           VNum (Int (days_from_civil y m d - days_from_civil y 1 1 + 1)))]
  /\ 1 <= days_from_civil y m d - days_from_civil y 1 1 + 1 <= 366.
Proof.
  intros Hutc Hparse Hfields V Hy.
  pose proof (day_in_year y m d V) as B. split; [|lia].
  pose proof V as V'. apply valid_date_spec in V' as [Hm Hd].
  pose proof (DaysInMonth_bounds y m) as Hdim.
  unfold Epic.describe. rewrite Hparse. unfold Date_parse_date_only. rewrite Hfields.
  rewrite (proj2 (Z.leb_le 1 m)), (proj2 (Z.leb_le m 12)), (proj2 (Z.leb_le 1 d)),
    (proj2 (Z.leb_le d 31)) by lia.
  cbn [andb]. rewrite MakeDay_month by lia.
  assert (T : forall t, 0 <= tza cfg t < msPerDay)
    by (intros t; rewrite Hutc; unfold msPerDay; lia).
  unfold Epic.formatted_date, Epic.day_of_year, Epic.year_start,
    getMonth, getDate, getFullYear.
  rewrite (Day_LocalTime_midnight (tza cfg) _ T), (civil_from_days_from_civil y m d V).
  cbn [fst snd].
  destruct (Z.leb_spec y 99); [lia|]. rewrite andb_false_r.
  rewrite Hutc, Z.sub_0_r.
  unfold MakeDay. change (0 / 12) with 0. change (0 mod 12 + 1) with 1.
  rewrite !Z.add_0_r.
  replace (days_from_civil y m d * msPerDay - (days_from_civil y 1 1 - 1) * msPerDay)
    with ((days_from_civil y m d - days_from_civil y 1 1 + 1) * msPerDay) by ring.
  rewrite ceil_div_days. reflexivity.
Qed.

Lemma epic_date_description_witness :
  Epic.describe Date_parse_date_only Scenario.server "2024-03-01"
  = VObj [("date", VStr "2024-03-01");
          ("formatted_date", VStr "March 1, 2024");
          ("day_of_year", VNum (Int 61))].
Proof.
  apply (proj1 (epic_date_description Date_parse_date_only Scenario.server "2024-03-01"
                  2024 3 1 (fun _ => eq_refl) eq_refl eq_refl eq_refl ltac:(lia))).
Defined.

(** ** The latest EPIC images *)

(** X29. [GET /epic/latest] on a server that just started asks for the list
    of dates, then for the images of the first date of the list, and answers
    with these images. *)
Theorem latest_images_are_of_the_first_date (cfg : config) (now : Z)
    (type_param : option string) (latestDate : string) (dates : list string)
    (images : list epic_image) :
  Mars.list_includes Epic.VALID_TYPES (toLowerCase (Epic.type_of type_param)) = true ->
  upstream cfg 0 ("/EPIC/api/" +:+ toLowerCase (Epic.type_of type_param) +:+ "/all") []
  = Resolved (Dates (latestDate :: dates)) ->
  latestDate <> "" ->
  upstream cfg 1
    ("/EPIC/api/" +:+ toLowerCase (Epic.type_of type_param) +:+ "/date/" +:+ latestDate) []
  = Resolved (Images images) ->
  fst (Epic.get_latest cfg now type_param (start cfg))
  = success
      (VArr (map (fun image =>
                    VObj (Epic.with_urls cfg (toLowerCase (Epic.type_of type_param)) image))
               images))
      (Epic.images_meta "epic/latest" latestDate (toLowerCase (Epic.type_of type_param))
         (List.length images) now)
  /\ requests (snd (Epic.get_latest cfg now type_param (start cfg)))
     = [("/EPIC/api/" +:+ toLowerCase (Epic.type_of type_param) +:+ "/all", []);
        ("/EPIC/api/" +:+ toLowerCase (Epic.type_of type_param) +:+ "/date/" +:+ latestDate,
         [])].
Proof.
  set (type := toLowerCase (Epic.type_of type_param)).
  intros Htype Hdates Hdate Himages. unfold Epic.get_latest. fold type. cbv zeta.
  rewrite Htype. cbn [negb]. unfold getEPICAvailableDates.
  assert (T : type = "natural" \/ type = "enhanced").
  { revert Htype. unfold Mars.list_includes, Epic.VALID_TYPES. cbn [existsb].
    destruct (String.eqb_spec type "natural"); [auto|].
    destruct (String.eqb_spec type "enhanced"); [auto | discriminate]. }
  destruct (makeRequest_miss cfg now ("/EPIC/api/" +:+ type +:+ "/all") []
              ("epic_dates_" +:+ type) (Some 86400) (start cfg)
              (Dates (latestDate :: dates)))
    as [c1 [E1 K1]]; [discriminate | apply lookup_empty | exact Hdates |].
  rewrite E1. unfold getEPICImages.
  destruct (String.eqb_spec latestDate ""); [contradiction|].
  set (key := "epic_" +:+ type +:+ "_" +:+ latestDate).
  assert (Hkey : key <> "epic_dates_" +:+ type)
    by (unfold key; destruct T as [-> | ->]; discriminate).
  destruct (makeRequest_miss cfg now ("/EPIC/api/" +:+ type +:+ "/date/" +:+ latestDate) []
              key None
              (mkService c1 (requests (start cfg) ++ [("/EPIC/api/" +:+ type +:+ "/all", [])]))
              (Images images))
    as [c2 [E2 _]]; [discriminate | | exact Himages |].
  { cbn [cache]. rewrite (K1 key Hkey). apply lookup_empty. }
  rewrite E2. split; reflexivity.
Qed.

Lemma latest_images_are_of_the_first_date_witness :
  requests (snd (Epic.get_latest Scenario.earth_watch Scenario.noon (Some "Enhanced")
                   (start Scenario.earth_watch)))
  = [("/EPIC/api/enhanced/all", []); ("/EPIC/api/enhanced/date/2023-12-31", [])].
Proof.
  apply (proj2 (latest_images_are_of_the_first_date Scenario.earth_watch Scenario.noon
                  (Some "Enhanced") "2023-12-31" ["2023-12-30"] []
                  eq_refl eq_refl ltac:(discriminate) eq_refl)).
Defined.

(** With no dates to choose from the answer is 404, and no images are asked
    for. *)
Lemma no_dates_no_images (cfg : config) (now : Z) (type_param : option string) :
  Mars.list_includes Epic.VALID_TYPES (toLowerCase (Epic.type_of type_param)) = true ->
  upstream cfg 0 ("/EPIC/api/" +:+ toLowerCase (Epic.type_of type_param) +:+ "/all") []
  = Resolved (Dates []) ->
  fst (Epic.get_latest cfg now type_param (start cfg))
  = failure 404 "No data available" "No EPIC images available for the specified type" []
  /\ requests (snd (Epic.get_latest cfg now type_param (start cfg)))
     = [("/EPIC/api/" +:+ toLowerCase (Epic.type_of type_param) +:+ "/all", [])].
Proof.
  set (type := toLowerCase (Epic.type_of type_param)).
  intros Htype Hdates. unfold Epic.get_latest. fold type. cbv zeta.
  rewrite Htype. cbn [negb]. unfold getEPICAvailableDates.
  destruct (makeRequest_miss cfg now ("/EPIC/api/" +:+ type +:+ "/all") []
              ("epic_dates_" +:+ type) (Some 86400) (start cfg) (Dates []))
    as [c1 [E1 K1]]; [discriminate | apply lookup_empty | exact Hdates |].
  rewrite E1. split; reflexivity.
Qed.
